(** * An address book assistant: shallow embedding of [final.py]

    The development follows the layering of the program: field types
    ([Name], [Phone], [Email], [Birthday]), the contact [Record], the
    [AddressBook], the command handlers and the loop of [main].  The
    definitions come first, then the vocabulary of the specification and
    the properties.

    Modelling conventions.
    - A Python [str] is a [string]: a sequence of code points of Unicode,
      each a number.  [\d] of module [re] and [int] read the decimal
      digits of every script ([decimal]: the database of Unicode 14.0,
      the one of CPython 3.11), while a class such as [[1-9]] holds the
      characters ['1'..'9'] only; [split] and [strip] use the white space
      of Unicode.
    - [str.lower] is computed on the strings whose code points are all
      below 256; on the other strings it is the function of the Unicode
      database, a parameter ([lower_wide]) of [parse_input] and [main],
      whose result is never empty.
    - An exception is a value of [exn]; its text is the one of CPython's
      own implementation (up to 3.13 where newer versions reword it).
    - Objects of class [Record] live in a store ([heap]) and are referred
      to by address; the dictionary of the book maps a name to an address,
      so a mutation through one reference is seen through every other.
    - A method or handler is a state transformer that either returns or
      raises; the state reached before a [raise] is kept.
    - [datetime.now()] is an explicit argument; [strptime], [replace] and
      the addition of a [timedelta] follow module [datetime] of CPython
      3.11; [strftime] is the one of the C library of Linux (glibc),
      which CPython calls: [%d] and [%m] print two digits, [%Y] prints
      the year as a number, without leading zeros.
    - [int(s)], used by the handler [birthdays] only, is a parameter of
      that handler and of [main]. *)

From Stdlib Require Import Bool List NArith ZArith Lia.
From Stdlib Require Strings.Byte.
Import ListNotations.

(** ** Characters and strings *)

(** A character is its code point. *)
Definition char : Type := N.

Declare Scope char_scope.
Delimit Scope char_scope with char.
Bind Scope char_scope with char.

(** A character written between quotes is an ASCII character. *)
Definition char_of_bytes (l : list Byte.byte) : option N :=
  match l with
  | [b] => if (Byte.to_N b <? 128)%N then Some (Byte.to_N b) else None
  | _ => None
  end.

Definition bytes_of_char (c : N) : option (list Byte.byte) :=
  if (c <? 128)%N then option_map (fun b => [b]) (Byte.of_N c) else None.

String Notation N char_of_bytes bytes_of_char : char_scope.

Module Char.

Definition eqb (a b : char) : bool := N.eqb a b.

End Char.

Module String.

Inductive string : Type :=
| EmptyString
| String (c : char) (s : string).

Declare Scope string_scope.
Delimit Scope string_scope with string.
Bind Scope string_scope with string.

Fixpoint of_codes (l : list N) : string :=
  match l with
  | [] => EmptyString
  | c :: l' => String c (of_codes l')
  end.

(** A string written between quotes is made of ASCII characters. *)
Fixpoint codes_of_bytes (l : list Byte.byte) : option (list N) :=
  match l with
  | [] => Some []
  | b :: l' =>
      match char_of_bytes [b], codes_of_bytes l' with
      | Some c, Some cs => Some (c :: cs)
      | _, _ => None
      end
  end.

Definition string_of_bytes (l : list Byte.byte) : option string :=
  option_map of_codes (codes_of_bytes l).

Fixpoint bytes_of_string (s : string) : option (list Byte.byte) :=
  match s with
  | EmptyString => Some []
  | String c s' =>
      match bytes_of_char c, bytes_of_string s' with
      | Some [b], Some bs => Some (b :: bs)
      | _, _ => None
      end
  end.

String Notation string string_of_bytes bytes_of_string : string_scope.

Fixpoint eqb (s1 s2 : string) : bool :=
  match s1, s2 with
  | EmptyString, EmptyString => true
  | String c1 s1', String c2 s2' => Char.eqb c1 c2 && eqb s1' s2'
  | _, _ => false
  end.

Fixpoint append (s1 s2 : string) : string :=
  match s1 with
  | EmptyString => s2
  | String c s1' => String c (append s1' s2)
  end.

Notation "x ++ y" := (append x y) : string_scope.

Fixpoint length (s : string) : nat :=
  match s with
  | EmptyString => 0
  | String _ s' => S (length s')
  end.

(** The string without its first [n] characters, and its first [m]
    characters. *)
Fixpoint skip (n : nat) (s : string) : string :=
  match n, s with
  | S n', String _ s' => skip n' s'
  | _, _ => s
  end.

Fixpoint take (m : nat) (s : string) : string :=
  match m, s with
  | S m', String c s' => String c (take m' s')
  | _, _ => EmptyString
  end.

(** [substring n m s]: the [m] characters of [s] from the position [n],
    [s[n:n+m]]. *)
Definition substring (n m : nat) (s : string) : string := take m (skip n s).

Fixpoint concat (sep : string) (ls : list string) : string :=
  match ls with
  | nil => EmptyString
  | cons x nil => x
  | cons x xs => append x (append sep (concat sep xs))
  end.

End String.

Import String.

Local Open Scope string_scope.
Local Open Scope list_scope.

Set Implicit Arguments.

(** ** Exceptions and the state-and-exception monad *)

Inductive exn : Type :=
| ValueError (msg : string)
| IndexError (msg : string)
| OverflowError (msg : string)
| AttributeError (msg : string).

Inductive result (A : Type) : Type :=
| Ok (a : A)
| Raise (e : exn).

Arguments Ok {A} a.
Arguments Raise {A} e.

Definition M (S A : Type) : Type := S -> result A * S.

Definition ret {S A : Type} (a : A) : M S A := fun s => (Ok a, s).

Definition raise {S A : Type} (e : exn) : M S A := fun s => (Raise e, s).

Definition bind {S A B : Type} (m : M S A) (k : A -> M S B) : M S B :=
  fun s =>
    match m s with
    | (Ok a, s') => k a s'
    | (Raise e, s') => (Raise e, s')
    end.

Definition get {S : Type} : M S S := fun s => (Ok s, s).

Definition put {S : Type} (s : S) : M S unit := fun _ => (Ok tt, s).

Definition lift {S A : Type} (r : result A) : M S A := fun s => (r, s).

Notation "x <- m ;; k" := (bind m (fun x => k))
  (at level 61, m at next level, right associativity).
Notation "m ;;; k" := (bind m (fun _ => k))
  (at level 61, right associativity).

(** ** Classes of characters *)

(** ['0'..'9'] *)
Definition is_digit (c : char) : bool := (48 <=? c)%N && (c <=? 57)%N.

(** The digits zero of the decimal digits of Unicode; the nine code
    points that follow each are the digits one to nine of the same
    script. *)
Definition decimal_zeros : list N :=
  [48; 1632; 1776; 1984; 2406; 2534; 2662; 2790; 2918; 3046; 3174; 3302;
   3430; 3558; 3664; 3792; 3872; 4160; 4240; 6112; 6160; 6470; 6608; 6784;
   6800; 6992; 7088; 7232; 7248; 42528; 43216; 43264; 43472; 43504; 43600;
   44016; 65296; 66720; 68912; 69734; 69872; 69942; 70096; 70384; 70736;
   70864; 71248; 71360; 71472; 71904; 72016; 72784; 73040; 73120; 92768;
   92864; 93008; 120782; 120792; 120802; 120812; 120822; 123200; 123632;
   125264; 130032]%N.

Fixpoint decimal_in (zeros : list N) (c : char) : option Z :=
  match zeros with
  | [] => None
  | z :: zeros' =>
      if (z <=? c)%N && (c <? z + 10)%N then Some (Z.of_N (c - z))
      else decimal_in zeros' c
  end.

(** The value of a decimal digit: what [int] and [\d] go by. *)
Definition decimal (c : char) : option Z := decimal_in decimal_zeros c.

(** [\d] *)
Definition is_decimal (c : char) : bool :=
  match decimal c with
  | Some _ => true
  | None => false
  end.

Fixpoint string_forall (p : char -> bool) (s : string) : bool :=
  match s with
  | EmptyString => true
  | String c s' => p c && string_forall p s'
  end.

(** [sep.join(l)] *)
Definition join (sep : string) (l : list string) : string := String.concat sep l.

(** [str(n)] for an [int] and for a length. *)
Fixpoint string_of_uint (d : Decimal.uint) : string :=
  match d with
  | Decimal.Nil => EmptyString
  | Decimal.D0 d' => String "0" (string_of_uint d')
  | Decimal.D1 d' => String "1" (string_of_uint d')
  | Decimal.D2 d' => String "2" (string_of_uint d')
  | Decimal.D3 d' => String "3" (string_of_uint d')
  | Decimal.D4 d' => String "4" (string_of_uint d')
  | Decimal.D5 d' => String "5" (string_of_uint d')
  | Decimal.D6 d' => String "6" (string_of_uint d')
  | Decimal.D7 d' => String "7" (string_of_uint d')
  | Decimal.D8 d' => String "8" (string_of_uint d')
  | Decimal.D9 d' => String "9" (string_of_uint d')
  end.

Definition str_int (n : Z) : string :=
  match Z.to_int n with
  | Decimal.Pos d => string_of_uint d
  | Decimal.Neg d => String "-" (string_of_uint d)
  end.

Definition str_nat (n : nat) : string := string_of_uint (Nat.to_uint n).

(** ** Regular expressions: the fragment of module [re] the program uses

    [re.fullmatch(r, s) is not None] holds exactly when [s] is in the
    language of [r]; [fullmatch] decides it by derivatives. *)

Module Re.

Inductive regex : Type :=
| Void
| Eps
| Class (p : char -> bool)
| Cat (r1 r2 : regex)
| Alt (r1 r2 : regex)
| Star (r : regex).

(** [r+] and [r{n}] *)
Definition Plus (r : regex) : regex := Cat r (Star r).

Fixpoint Repeat (n : nat) (r : regex) : regex :=
match n with
| O => Eps
| S n' => Cat r (Repeat n' r)
end.

Definition Chr (c : char) : regex := Class (Char.eqb c).
Definition NotChr (c : char) : regex := Class (fun x => negb (Char.eqb c x)).

Fixpoint nullable (r : regex) : bool :=
match r with
| Void => false
| Eps => true
| Class _ => false
| Cat r1 r2 => nullable r1 && nullable r2
| Alt r1 r2 => nullable r1 || nullable r2
| Star _ => true
end.

Fixpoint deriv (c : char) (r : regex) : regex :=
match r with
| Void => Void
| Eps => Void
| Class p => if p c then Eps else Void
| Cat r1 r2 =>
    if nullable r1
    then Alt (Cat (deriv c r1) r2) (deriv c r2)
    else Cat (deriv c r1) r2
| Alt r1 r2 => Alt (deriv c r1) (deriv c r2)
| Star r1 => Cat (deriv c r1) (Star r1)
end.

Fixpoint fullmatch (r : regex) (s : string) : bool :=
match s with
| EmptyString => nullable r
| String c s' => fullmatch (deriv c r) s'
end.

(** The language of a regular expression. *)
Inductive lang : regex -> string -> Prop :=
| lang_eps : lang Eps ""
| lang_class : forall (p : char -> bool) c, p c = true -> lang (Class p) (String c "")
| lang_cat : forall r1 r2 s1 s2,
  lang r1 s1 -> lang r2 s2 -> lang (Cat r1 r2) (s1 ++ s2)
| lang_alt_l : forall r1 r2 s, lang r1 s -> lang (Alt r1 r2) s
| lang_alt_r : forall r1 r2 s, lang r2 s -> lang (Alt r1 r2) s
| lang_star_nil : forall r, lang (Star r) ""
| lang_star_cons : forall r s1 s2,
  lang r s1 -> lang (Star r) s2 -> lang (Star r) (s1 ++ s2).

End Re.

(** ** Field types *)

Module Name.
Record t : Type := mk { value : string }.
Definition init (v : string) : t := mk v.
End Name.

Module Phone.
Record t : Type := mk { value : string }.

(** [r"\d{10}"] *)
Definition pattern : Re.regex := Re.Repeat 10 (Re.Class is_decimal).

Definition _validate (v : string) : bool := Re.fullmatch pattern v.

Definition init (v : string) : result t :=
  if _validate v then Ok (mk v)
  else Raise (ValueError "Invalid phone number format. It should be 10 digits.").
End Phone.

Module Email.
Record t : Type := mk { value : string }.

(** [r"[^@]+@[^@]+\.[^@]+"] *)
Definition pattern : Re.regex :=
  Re.Cat (Re.Plus (Re.NotChr "@"))
    (Re.Cat (Re.Chr "@")
       (Re.Cat (Re.Plus (Re.NotChr "@"))
          (Re.Cat (Re.Chr ".") (Re.Plus (Re.NotChr "@"))))).

Definition _validate (v : string) : bool := Re.fullmatch pattern v.

Definition init (v : string) : result t :=
  if _validate v then Ok (mk v)
  else Raise (ValueError "Invalid email format.").
End Email.

(** ** Dates: the fragment of module [datetime] the program uses *)

Local Open Scope Z_scope.

Module Datetime.

(** A naive [datetime]; [strptime] with a date-only format leaves the
    time fields at zero. *)
Record t : Type := mk {
  year : Z; month : Z; day : Z;
  hour : Z; minute : Z; second : Z; microsecond : Z }.

Definition MINYEAR : Z := 1.
Definition MAXYEAR : Z := 9999.
Definition _MAXORDINAL : Z := 3652059.

Definition _is_leap (y : Z) : bool :=
  (y mod 4 =? 0) && (negb (y mod 100 =? 0) || (y mod 400 =? 0)).

Definition _DAYS_IN_MONTH (m : Z) : Z :=
  match m with
  | 1 => 31 | 2 => 28 | 3 => 31 | 4 => 30 | 5 => 31 | 6 => 30
  | 7 => 31 | 8 => 31 | 9 => 30 | 10 => 31 | 11 => 30 | 12 => 31
  | _ => -1
  end.

Definition _DAYS_BEFORE_MONTH (m : Z) : Z :=
  match m with
  | 1 => 0 | 2 => 31 | 3 => 59 | 4 => 90 | 5 => 120 | 6 => 151
  | 7 => 181 | 8 => 212 | 9 => 243 | 10 => 273 | 11 => 304 | 12 => 334
  | _ => -1
  end.

Definition _days_before_year (y : Z) : Z :=
  let y := y - 1 in y * 365 + y / 4 - y / 100 + y / 400.

Definition _days_in_month (y m : Z) : Z :=
  if (m =? 2) && _is_leap y then 29 else _DAYS_IN_MONTH m.

Definition _days_before_month (y m : Z) : Z :=
  _DAYS_BEFORE_MONTH m + (if (m >? 2) && _is_leap y then 1 else 0).

Definition _ymd2ord (y m d : Z) : Z :=
  _days_before_year y + _days_before_month y m + d.

Definition _DI400Y : Z := 146097.
Definition _DI100Y : Z := 36524.
Definition _DI4Y : Z := 1461.

Definition _ord2ymd (n : Z) : Z * Z * Z :=
  let n := n - 1 in
  let n400 := n / _DI400Y in
  let n := n mod _DI400Y in
  let year := n400 * 400 + 1 in
  let n100 := n / _DI100Y in
  let n := n mod _DI100Y in
  let n4 := n / _DI4Y in
  let n := n mod _DI4Y in
  let n1 := n / 365 in
  let n := n mod 365 in
  let year := year + n100 * 100 + n4 * 4 + n1 in
  if (n1 =? 4) || (n100 =? 4) then (year - 1, 12, 31)
  else
    let leapyear := (n1 =? 3) && (negb (n4 =? 24) || (n100 =? 3)) in
    let month := Z.shiftr (n + 50) 5 in
    let preceding :=
      _DAYS_BEFORE_MONTH month + (if (month >? 2) && leapyear then 1 else 0) in
    if preceding >? n then
      let month := month - 1 in
      let preceding :=
        preceding
        - (_DAYS_IN_MONTH month + (if (month =? 2) && leapyear then 1 else 0)) in
      (year, month, n - preceding + 1)
    else (year, month, n - preceding + 1).

Definition in_range (lo x hi : Z) : bool := (lo <=? x) && (x <=? hi).

(** The constructor [datetime(year, month, day, hour, ...)]: it checks
    the date fields, then the time fields. *)
Definition new (y m d hh mm ss us : Z) : result t :=
  if negb (in_range MINYEAR y MAXYEAR) then
    Raise (ValueError ("year " ++ str_int y ++ " is out of range"))
  else if negb (in_range 1 m 12) then
    Raise (ValueError "month must be in 1..12")
  else if negb (in_range 1 d (_days_in_month y m)) then
    Raise (ValueError "day is out of range for month")
  else if negb (in_range 0 hh 23) then
    Raise (ValueError "hour must be in 0..23")
  else if negb (in_range 0 mm 59) then
    Raise (ValueError "minute must be in 0..59")
  else if negb (in_range 0 ss 59) then
    Raise (ValueError "second must be in 0..59")
  else if negb (in_range 0 us 999999) then
    Raise (ValueError "microsecond must be in 0..999999")
  else Ok (mk y m d hh mm ss us).

(** [dt.replace(year=y)] builds a new object from the fields, so the
    date is checked again. *)
Definition replace_year (dt : t) (y : Z) : result t :=
  new y (month dt) (day dt) (hour dt) (minute dt) (second dt) (microsecond dt).

Definition toordinal (dt : t) : Z := _ymd2ord (year dt) (month dt) (day dt).

(** Comparison of two naive datetimes is the comparison of the tuples
    of their fields. *)
Fixpoint cmp_tuple (a b : list Z) : comparison :=
  match a, b with
  | x :: a', y :: b' =>
      match x ?= y with
      | Eq => cmp_tuple a' b'
      | c => c
      end
  | [], [] => Eq
  | [], _ :: _ => Lt
  | _ :: _, [] => Gt
  end.

Definition fields (dt : t) : list Z :=
  [year dt; month dt; day dt; hour dt; minute dt; second dt; microsecond dt].

Definition cmp (a b : t) : comparison := cmp_tuple (fields a) (fields b).

Definition le (a b : t) : bool :=
  match cmp a b with
  | Gt => false
  | _ => true
  end.

(** [timedelta(days=n)] *)
Definition timedelta_days (n : Z) : result Z :=
  if negb (in_range (-2147483648) n 2147483647) then
    Raise (OverflowError "Python int too large to convert to C int")
  else if Z.abs n >? 999999999 then
    Raise (OverflowError
             ("days=" ++ str_int n ++ "; must have magnitude <= 999999999"))
  else Ok n.

(** [dt + timedelta(days=n)]: the date moves by whole days, the time of
    day is kept. *)
Definition add_days (dt : t) (n : Z) : result t :=
  let o := toordinal dt + n in
  if (0 <? o) && (o <=? _MAXORDINAL) then
    let '(y, m, d) := _ord2ymd o in
    Ok (mk y m d (hour dt) (minute dt) (second dt) (microsecond dt))
  else Raise (OverflowError "date value out of range").

(** *** [strptime]

    The format is turned into a regular expression with one named group
    per directive; the groups of ["%d.%m.%Y"] are
    [(?P<d>3[0-1]|[1-2]\d|0[1-9]|[1-9]| [1-9])],
    [(?P<m>1[0-2]|0[1-9]|[1-9])] and [(?P<Y>\d\d\d\d)].  The expression
    is matched at the start of the data, alternatives in order and with
    backtracking; data left after the match is an error.  In these
    groups [\d] is any decimal digit, and a class is a range of ASCII
    characters. *)

Inductive directive : Type := dir_d | dir_m | dir_Y.

Inductive item : Type :=
| Lit (c : char)
| Group (k : directive).

(** A class [[lo-hi]] *)
Definition between (lo hi : char) (c : char) : bool :=
  (lo <=? c)%N && (c <=? hi)%N.

Definition alternatives (k : directive) : list (list (char -> bool)) :=
  match k with
  | dir_d =>
      [ [Char.eqb "3"; between "0" "1"];
        [between "1" "2"; is_decimal];
        [Char.eqb "0"; between "1" "9"];
        [between "1" "9"];
        [Char.eqb " "; between "1" "9"] ]
  | dir_m =>
      [ [Char.eqb "1"; between "0" "2"];
        [Char.eqb "0"; between "1" "9"];
        [between "1" "9"] ]
  | dir_Y => [ [is_decimal; is_decimal; is_decimal; is_decimal] ]
  end.

(** ["%d.%m.%Y"] *)
Definition format_dmY : list item :=
  [Group dir_d; Lit "."; Group dir_m; Lit "."; Group dir_Y].

Fixpoint match_classes (cs : list (char -> bool)) (s : string)
  : option (string * string) :=
  match cs with
  | [] => Some (EmptyString, s)
  | p :: cs' =>
      match s with
      | String c s' =>
          if p c then
            match match_classes cs' s' with
            | Some (txt, rest) => Some (String c txt, rest)
            | None => None
            end
          else None
      | EmptyString => None
      end
  end.

Fixpoint first_some {A B : Type} (f : A -> option B) (l : list A) : option B :=
  match l with
  | [] => None
  | a :: l' =>
      match f a with
      | Some b => Some b
      | None => first_some f l'
      end
  end.

(** The groups found and the data left after the match. *)
Fixpoint re_match (items : list item) (s : string)
  : option (list (directive * string) * string) :=
  match items with
  | [] => Some ([], s)
  | Lit c :: items' =>
      match s with
      | String c' s' => if Char.eqb c c' then re_match items' s' else None
      | EmptyString => None
      end
  | Group k :: items' =>
      first_some
        (fun alt =>
           match match_classes alt s with
           | Some (txt, rest) =>
               match re_match items' rest with
               | Some (found, remains) => Some ((k, txt) :: found, remains)
               | None => None
               end
           | None => None
           end)
        (alternatives k)
  end.

(** [int(text)] on the text of a group: decimal digits, of any script,
    after the blank that [%d] allows in front. *)
Fixpoint int_digits (acc : Z) (s : string) : Z :=
  match s with
  | EmptyString => acc
  | String c s' =>
      match decimal c with
      | Some v => int_digits (acc * 10 + v) s'
      | None => int_digits acc s'
      end
  end.

Definition int_group (s : string) : Z := int_digits 0 s.

Definition directive_eqb (a b : directive) : bool :=
  match a, b with
  | dir_d, dir_d | dir_m, dir_m | dir_Y, dir_Y => true
  | _, _ => false
  end.

Fixpoint found_dict (k : directive) (found : list (directive * string))
  : option string :=
  match found with
  | [] => None
  | (k', txt) :: found' =>
      if directive_eqb k k' then Some txt else found_dict k found'
  end.

Definition field_or (default : Z) (k : directive)
  (found : list (directive * string)) : Z :=
  match found_dict k found with
  | Some txt => int_group txt
  | None => default
  end.

(** [datetime.strptime(data, "%d.%m.%Y")].  The text of the errors
    raised here is not kept: the only caller replaces it. *)
Definition strptime_dmY (data : string) : result t :=
  match re_match format_dmY data with
  | None => Raise (ValueError "time data does not match format")
  | Some (found, remains) =>
      match remains with
      | String _ _ => Raise (ValueError ("unconverted data remains: " ++ remains))
      | EmptyString =>
          let y := field_or 1900 dir_Y found in
          let m := field_or 1 dir_m found in
          let d := field_or 1 dir_d found in
          new y m d 0 0 0 0
      end
  end.

(** *** [strftime] *)

Definition digit (n : Z) : char := (48 + Z.to_N n)%N.

Definition pad2 (n : Z) : string :=
  String (digit (n / 10 mod 10)) (String (digit (n mod 10)) EmptyString).

(** [dt.strftime("%d.%m.%Y")]: day and month on two digits; the year as
    the C library prints a number, without leading zeros. *)
Definition strftime_dmY (dt : t) : string :=
  pad2 (day dt) ++ "." ++ pad2 (month dt) ++ "." ++ str_int (year dt).

End Datetime.

Module Birthday.
Record t : Type := mk { value : Datetime.t }.

Definition init (v : string) : result t :=
  match Datetime.strptime_dmY v with
  | Ok dt => Ok (mk dt)
  | Raise (ValueError _) => Raise (ValueError "Invalid date format. Use DD.MM.YYYY")
  | Raise e => Raise e
  end.
End Birthday.

Local Close Scope Z_scope.

(** ** More of [str] *)

Definition nl : string := String 10%N EmptyString.

Definition is_empty (s : string) : bool :=
  match s with
  | EmptyString => true
  | String _ _ => false
  end.

(** The white space of Unicode, which [split] and [strip] go by. *)
Definition is_space (c : char) : bool :=
  (((9 <=? c) && (c <=? 13)) || ((28 <=? c) && (c <=? 32))
   || (c =? 133) || (c =? 160) || (c =? 5760)
   || ((8192 <=? c) && (c <=? 8202)) || (c =? 8232) || (c =? 8233)
   || (c =? 8239) || (c =? 8287) || (c =? 12288))%N.

(** [s.split()]: the maximal runs of characters that are not white space. *)
Fixpoint split_from (cur s : string) : list string :=
  match s with
  | EmptyString => if is_empty cur then [] else [cur]
  | String c s' =>
      if is_space c then
        if is_empty cur then split_from EmptyString s'
        else cur :: split_from EmptyString s'
      else split_from (cur ++ String c EmptyString) s'
  end.

Definition split (s : string) : list string := split_from EmptyString s.

Fixpoint lstrip (s : string) : string :=
  match s with
  | EmptyString => EmptyString
  | String c s' => if is_space c then lstrip s' else s
  end.

Fixpoint rstrip (s : string) : string :=
  match s with
  | EmptyString => EmptyString
  | String c s' =>
      let r := rstrip s' in
      if is_space c && is_empty r then EmptyString else String c r
  end.

Definition strip (s : string) : string := rstrip (lstrip s).

(** The lower case of a code point below 256. *)
Definition lower_char (c : char) : char :=
  if (((65 <=? c) && (c <=? 90))
      || ((192 <=? c) && (c <=? 222) && negb (c =? 215)))%N
  then (c + 32)%N else c.

Fixpoint lower_latin1 (s : string) : string :=
  match s with
  | EmptyString => EmptyString
  | String c s' => String (lower_char c) (lower_latin1 s')
  end.

Definition is_latin1 (s : string) : bool :=
  string_forall (fun c => (c <? 256)%N) s.

(** [s.lower()]: character by character when the code points are all
    below 256; [lower_wide] otherwise, whose result has a first
    character. *)
Definition lower (lower_wide : string -> char * string) (s : string) : string :=
  if is_latin1 s then lower_latin1 s
  else let (c, s') := lower_wide s in String c s'.

(** ** Lists and dictionaries *)

(** [l.remove(x)]: the first item equal to [x] goes; none is an error. *)
Fixpoint list_remove {A : Type} (eqb : A -> A -> bool) (x : A) (l : list A)
  : result (list A) :=
  match l with
  | [] => Raise (ValueError "list.remove(x): x not in list")
  | y :: l' =>
      if eqb y x then Ok l'
      else
        match list_remove eqb x l' with
        | Ok l'' => Ok (y :: l'')
        | Raise e => Raise e
        end
  end.

(** A [dict] with [str] keys: the items in insertion order, one per key. *)
Module Dict.
Section Dict.
Variable V : Type.

Definition t : Type := list (string * V).

Fixpoint get (k : string) (d : t) : option V :=
  match d with
  | [] => None
  | (k', v) :: d' => if String.eqb k k' then Some v else get k d'
  end.

Definition mem (k : string) (d : t) : bool :=
  match get k d with
  | Some _ => true
  | None => false
  end.

(** [d[k] = v]: an existing key keeps its place. *)
Fixpoint set (k : string) (v : V) (d : t) : t :=
  match d with
  | [] => [(k, v)]
  | (k', v') :: d' =>
      if String.eqb k k' then (k, v) :: d' else (k', v') :: set k v d'
  end.

(** [del d[k]] *)
Fixpoint del (k : string) (d : t) : t :=
  match d with
  | [] => []
  | (k', v') :: d' =>
      if String.eqb k k' then d' else (k', v') :: del k d'
  end.

Definition keys (d : t) : list string := map fst d.
Definition values (d : t) : list V := map snd d.
End Dict.
End Dict.

(** ** Record *)

Module Record_.

Record t : Type := mk {
  name : Name.t;
  phones : list Phone.t;
  emails : list Email.t;
  birthday : option Birthday.t }.

Definition init (n : string) : t := mk (Name.init n) [] [] None.

Definition set_phones (ps : list Phone.t) (self : t) : t :=
  mk (name self) ps (emails self) (birthday self).

Definition set_emails (es : list Email.t) (self : t) : t :=
  mk (name self) (phones self) es (birthday self).

Definition set_birthday (b : option Birthday.t) (self : t) : t :=
  mk (name self) (phones self) (emails self) b.

(** Field objects have no [__eq__], so [list.remove] compares them by
    identity.  Every item of [phones] (of [emails]) is an object of its
    own and [find_phone] ([find_email]) returns the first one that
    carries the value, so the object found is the first item that
    carries the value: comparing values removes the same item. *)
Definition phone_is (x y : Phone.t) : bool :=
  String.eqb (Phone.value x) (Phone.value y).

Definition email_is (x y : Email.t) : bool :=
  String.eqb (Email.value x) (Email.value y).

Definition find_phone (phone : string) (self : t) : option Phone.t :=
  List.find (fun p => String.eqb (Phone.value p) phone) (phones self).

Definition find_email (email : string) (self : t) : option Email.t :=
  List.find (fun e => String.eqb (Email.value e) email) (emails self).

Definition add_phone (phone : string) : M t unit :=
  p <- lift (Phone.init phone) ;;
  self <- get ;;
  put (set_phones (phones self ++ [p]) self).

Definition remove_phone (phone : string) : M t unit :=
  self <- get ;;
  match find_phone phone self with
  | Some phone_to_remove =>
      ps <- lift (list_remove phone_is phone_to_remove (phones self)) ;;
      put (set_phones ps self)
  | None => ret tt
  end.

Definition edit_phone (old_phone new_phone : string) : M t unit :=
  self <- get ;;
  match find_phone old_phone self with
  | Some phone_to_edit =>
      ps <- lift (list_remove phone_is phone_to_edit (phones self)) ;;
      put (set_phones ps self) ;;;
      add_phone new_phone
  | None => ret tt
  end.

Definition add_email (email : string) : M t unit :=
  e <- lift (Email.init email) ;;
  self <- get ;;
  put (set_emails (emails self ++ [e]) self).

Definition remove_email (email : string) : M t unit :=
  self <- get ;;
  match find_email email self with
  | Some email_to_remove =>
      es <- lift (list_remove email_is email_to_remove (emails self)) ;;
      put (set_emails es self)
  | None => ret tt
  end.

Definition edit_email (old_email new_email : string) : M t unit :=
  self <- get ;;
  match find_email old_email self with
  | Some email_to_edit =>
      es <- lift (list_remove email_is email_to_edit (emails self)) ;;
      put (set_emails es self) ;;;
      add_email new_email
  | None => ret tt
  end.

Definition add_birthday (b : string) : M t unit :=
  v <- lift (Birthday.init b) ;;
  self <- get ;;
  put (set_birthday (Some v) self).

(** [__str__] *)
Definition str (self : t) : string :=
  let phones := join "; " (map Phone.value (phones self)) in
  let emails := join "; " (map Email.value (emails self)) in
  let birthday :=
    match birthday self with
    | Some b => Datetime.strftime_dmY (Birthday.value b)
    | None => "N/A"
    end in
  "Contact name: " ++ Name.value (name self) ++ ", phones: " ++ phones
  ++ ", emails: " ++ emails ++ ", birthday: " ++ birthday.

End Record_.

(** ** The object store and the address book *)

Definition addr : Type := nat.

(** [heap]: the [Record] objects created so far; [data]: the dictionary of
    the one [AddressBook] of the program. *)
Record World : Type := mkWorld {
  heap : list Record_.t;
  data : Dict.t addr }.

Definition empty_world : World := mkWorld [] [].

Definition deref (w : World) (a : addr) : Record_.t :=
  nth a (heap w) (Record_.init "").

Fixpoint heap_set (a : addr) (r : Record_.t) (h : list Record_.t)
  : list Record_.t :=
  match h, a with
  | [], _ => []
  | _ :: h', O => r :: h'
  | x :: h', S a' => x :: heap_set a' r h'
  end.

(** [Record(name)]: a new object. *)
Definition new_record (n : string) : M World addr :=
  fun w => (Ok (List.length (heap w)), mkWorld (heap w ++ [Record_.init n]) (data w)).

(** A method call on the object at [a]; what the method did to the object
    before raising stays done. *)
Definition call {A : Type} (a : addr) (m : M Record_.t A) : M World A :=
  fun w =>
    let (res, r') := m (deref w a) in
    (res, mkWorld (heap_set a r' (heap w)) (data w)).

Module AddressBook.

Definition add_record (record : addr) : M World unit :=
  fun w =>
    let key := Name.value (Record_.name (deref w record)) in
    (Ok tt, mkWorld (heap w) (Dict.set key record (data w))).

Definition find (name : string) : M World (option addr) :=
  fun w => (Ok (Dict.get name (data w)), w).

Definition delete (name : string) : M World unit :=
  fun w =>
    if Dict.mem name (data w)
    then (Ok tt, mkWorld (heap w) (Dict.del name (data w)))
    else (Ok tt, w).

(** The loop of [get_upcoming_birthdays] over [self.data.values()], with
    the list built so far. *)
Fixpoint upcoming_loop (today : Datetime.t) (days : Z)
  (values : list addr) (upcoming_birthdays : list addr)
  : M World (list addr) :=
  match values with
  | [] => ret upcoming_birthdays
  | record :: values' =>
      w <- get ;;
      match Record_.birthday (deref w record) with
      | Some b =>
          next_birthday <-
            lift (Datetime.replace_year (Birthday.value b) (Datetime.year today)) ;;
          if Datetime.le today next_birthday then
            delta <- lift (Datetime.timedelta_days days) ;;
            limit <- lift (Datetime.add_days today delta) ;;
            if Datetime.le next_birthday limit
            then upcoming_loop today days values' (upcoming_birthdays ++ [record])
            else upcoming_loop today days values' upcoming_birthdays
          else upcoming_loop today days values' upcoming_birthdays
      | None => upcoming_loop today days values' upcoming_birthdays
      end
  end.

(** [today] is the value of [datetime.now()]. *)
Definition get_upcoming_birthdays (today : Datetime.t) (days : Z)
  : M World (list addr) :=
  w <- get ;;
  upcoming_loop today days (Dict.values (data w)) [].

End AddressBook.

(** ** Command handlers *)

(** The decorator: a [ValueError] raised by the handler becomes the text
    it returns; any other exception goes through. *)
Definition input_error (func : list string -> M World string)
  : list string -> M World string :=
  fun args w =>
    match func args w with
    | (Raise (ValueError msg), w') => (Ok msg, w')
    | other => other
    end.

(** The errors of an unpacking assignment (the text is that of CPython up
    to 3.13). *)
Definition not_enough_values (expected : string) (got : nat) : exn :=
  ValueError ("not enough values to unpack (expected " ++ expected
              ++ ", got " ++ str_nat got ++ ")").

Definition too_many_values (expected : string) : exn :=
  ValueError ("too many values to unpack (expected " ++ expected ++ ")").

Definition index_out_of_range : exn := IndexError "list index out of range".

(** [if b: m] *)
Definition when {S : Type} (b : bool) (m : M S unit) : M S unit :=
  if b then m else ret tt.

Fixpoint mapM {S A B : Type} (f : A -> M S B) (l : list A) : M S (list B) :=
  match l with
  | [] => ret []
  | a :: l' => b <- f a ;; bs <- mapM f l' ;; ret (b :: bs)
  end.

Definition add_contact_func (args : list string) : M World string :=
  match args with
  | name :: phone :: _ =>
      found <- AddressBook.find name ;;
      rm <- match found with
            | None =>
                record <- new_record name ;;
                AddressBook.add_record record ;;;
                ret (record, "Contact added.")
            | Some record => ret (record, "Contact updated.")
            end ;;
      let '(record, message) := rm in
      when (negb (is_empty phone)) (call record (Record_.add_phone phone)) ;;;
      ret message
  | _ => raise (not_enough_values "at least 2" (List.length args))
  end.

Definition add_contact := input_error add_contact_func.

Definition change_phone_func (args : list string) : M World string :=
  match args with
  | [name; old_phone; new_phone] =>
      found <- AddressBook.find name ;;
      match found with
      | Some record =>
          call record (Record_.edit_phone old_phone new_phone) ;;;
          ret ("Phone number updated for contact " ++ name ++ ".")%string
      | None => ret ("Contact " ++ name ++ " not found.")%string
      end
  | _ :: _ :: _ :: _ :: _ => raise (too_many_values "3")
  | _ => raise (not_enough_values "3" (List.length args))
  end.

Definition change_phone := input_error change_phone_func.

Definition show_phone_func (args : list string) : M World string :=
  match args with
  | name :: _ =>
      found <- AddressBook.find name ;;
      match found with
      | Some record =>
          w <- get ;;
          ret (name ++ "'s phones: "
               ++ join ", " (map Phone.value (Record_.phones (deref w record))))%string
      | None => ret ("Contact " ++ name ++ " not found.")%string
      end
  | [] => raise index_out_of_range
  end.

Definition show_phone := input_error show_phone_func.

Definition list_contacts_func (args : list string) : M World string :=
  w <- get ;;
  match data w with
  | [] => ret "Address book is empty."
  | _ :: _ =>
      ret (join nl ("Contacts in address book:"
                    :: map (fun record => Record_.str (deref w record))
                         (Dict.values (data w))))
  end.

Definition list_contacts := input_error list_contacts_func.

Definition add_email_func (args : list string) : M World string :=
  match args with
  | name :: email :: _ =>
      found <- AddressBook.find name ;;
      match found with
      | Some record =>
          call record (Record_.add_email email) ;;;
          ret ("Email " ++ email ++ " added for contact " ++ name ++ ".")%string
      | None => ret ("Contact " ++ name ++ " not found.")%string
      end
  | _ => raise (not_enough_values "at least 2" (List.length args))
  end.

Definition add_email := input_error add_email_func.

Definition change_email_func (args : list string) : M World string :=
  match args with
  | [name; old_email; new_email] =>
      found <- AddressBook.find name ;;
      match found with
      | Some record =>
          call record (Record_.edit_email old_email new_email) ;;;
          ret ("Email updated for contact " ++ name ++ ".")%string
      | None => ret ("Contact " ++ name ++ " not found.")%string
      end
  | _ :: _ :: _ :: _ :: _ => raise (too_many_values "3")
  | _ => raise (not_enough_values "3" (List.length args))
  end.

Definition change_email := input_error change_email_func.

Definition show_email_func (args : list string) : M World string :=
  match args with
  | name :: _ =>
      found <- AddressBook.find name ;;
      match found with
      | Some record =>
          w <- get ;;
          ret (name ++ "'s emails: "
               ++ join ", " (map Email.value (Record_.emails (deref w record))))%string
      | None => ret ("Contact " ++ name ++ " not found.")%string
      end
  | [] => raise index_out_of_range
  end.

Definition show_email := input_error show_email_func.

Definition add_birthday_func (args : list string) : M World string :=
  match args with
  | [name; birthday] =>
      found <- AddressBook.find name ;;
      match found with
      | Some record =>
          call record (Record_.add_birthday birthday) ;;;
          ret ("Birthday added for contact " ++ name ++ ".")%string
      | None => ret ("Contact " ++ name ++ " not found.")%string
      end
  | _ :: _ :: _ :: _ => raise (too_many_values "2")
  | _ => raise (not_enough_values "2" (List.length args))
  end.

Definition add_birthday := input_error add_birthday_func.

Definition show_birthday_func (args : list string) : M World string :=
  match args with
  | name :: _ =>
      found <- AddressBook.find name ;;
      match found with
      | Some record =>
          w <- get ;;
          match Record_.birthday (deref w record) with
          | Some b =>
              ret (name ++ "'s birthday is on "
                   ++ Datetime.strftime_dmY (Birthday.value b) ++ ".")%string
          | None => ret ("Birthday not set for contact " ++ name ++ ".")%string
          end
      | None => ret ("Contact " ++ name ++ " not found.")%string
      end
  | [] => raise index_out_of_range
  end.

Definition show_birthday := input_error show_birthday_func.

(** [parse_input]; [parts[0]] of an empty list is an [IndexError]. *)
Definition parse_input (lower_wide : string -> char * string)
  (user_input : string) : result (string * list string) :=
  match split user_input with
  | [] => Raise index_out_of_range
  | command :: args => Ok (lower lower_wide command, args)
  end.

(** What one turn of the loop leaves behind. *)
Inductive status : Type :=
| Running
| Exited
| Crashed (e : exn).

(** [print(handler(args, book))]; an exception that leaves the handler
    ends the program. *)
Definition print_result (m : M World string) (w : World)
  : list string * status * World :=
  match m w with
  | (Ok text, w') => ([text], Running, w')
  | (Raise e, w') => ([], Crashed e, w')
  end.

Section Main.

(** The conversion [int(s)] of a [str], of the language itself. *)
Variable int : string -> result Z.

(** [str.lower] on the strings that have a code point from 256 on. *)
Variable lower_wide : string -> char * string.

Definition birthday_line (record : addr) : M World string :=
  w <- get ;;
  let r := deref w record in
  match Record_.birthday r with
  | Some b =>
      ret (Name.value (Record_.name r) ++ " on "
           ++ Datetime.strftime_dmY (Birthday.value b))%string
  | None => raise (AttributeError "'NoneType' object has no attribute 'value'")
  end.

Definition birthdays_func (today : Datetime.t) (args : list string)
  : M World string :=
  days <- match args with
          | a :: _ => lift (int a)
          | [] => ret 7%Z
          end ;;
  upcoming_birthdays <- AddressBook.get_upcoming_birthdays today days ;;
  match upcoming_birthdays with
  | [] => ret "No upcoming birthdays within the next week."
  | _ :: _ =>
      lines <- mapM birthday_line upcoming_birthdays ;;
      ret (join nl ("Upcoming birthdays:" :: lines))
  end.

Definition birthdays (today : Datetime.t) := input_error (birthdays_func today).

(** One turn of the loop of [main] on the line read, [today] being the
    clock during the turn: the lines printed, whether the loop goes on,
    and the state. *)
Definition step (today : Datetime.t) (user_input : string) (w : World)
  : list string * status * World :=
  if is_empty (strip user_input) then
    (["No command entered. Please enter a command."], Running, w)
  else
    match parse_input lower_wide user_input with
    | Raise e => ([], Crashed e, w)
    | Ok (command, args) =>
        if String.eqb command "close" || String.eqb command "exit" then
          (["Good bye!"], Exited, w)
        else if String.eqb command "hello" then
          (["How can I help you?"], Running, w)
        else if String.eqb command "add" then
          print_result (add_contact args) w
        else if String.eqb command "change" then
          print_result (change_phone args) w
        else if String.eqb command "phone" then
          print_result (show_phone args) w
        else if String.eqb command "add-email" then
          print_result (add_email args) w
        else if String.eqb command "change-email" then
          print_result (change_email args) w
        else if String.eqb command "show-email" then
          print_result (show_email args) w
        else if String.eqb command "all" then
          print_result (list_contacts args) w
        else if String.eqb command "add-birthday" then
          print_result (add_birthday args) w
        else if String.eqb command "show-birthday" then
          print_result (show_birthday args) w
        else if String.eqb command "birthdays" then
          print_result (birthdays today args) w
        else (["Invalid command."], Running, w)
    end.

(** The loop on the lines typed, each with the clock at that turn. *)
Fixpoint main_loop (inputs : list (Datetime.t * string)) (w : World)
  : list string * status * World :=
  match inputs with
  | [] => ([], Running, w)
  | (today, user_input) :: inputs' =>
      match step today user_input w with
      | (out, Running, w') =>
          let '(out', st, w'') := main_loop inputs' w' in
          (out ++ out', st, w'')
      | stopped => stopped
      end
  end.

Definition main (inputs : list (Datetime.t * string))
  : list string * status * World :=
  let '(out, st, w) := main_loop inputs empty_world in
  ("Welcome to the assistant bot!" :: out, st, w).

End Main.

(** ** Vocabulary of the specification *)

(** Exactly ten decimal digits. *)
Definition ten_digits (v : string) : bool :=
  (String.length v =? 10)%nat && string_forall is_decimal v.

(** The strict shape [DD.MM.YYYY]: two digits, a dot, two digits, a dot
    and four digits, the digits being ['0'..'9']. *)
Definition strict_DD_MM_YYYY (v : string) : bool :=
  match v with
  | String d1 (String d2 (String p1 (String m1 (String m2 (String p2
      (String y1 (String y2 (String y3 (String y4 EmptyString))))))))) =>
      is_digit d1 && is_digit d2 && Char.eqb "." p1
      && is_digit m1 && is_digit m2 && Char.eqb "." p2
      && is_digit y1 && is_digit y2 && is_digit y3 && is_digit y4
  | _ => false
  end.

(** A date of the calendar, in the years 1 to 9999. *)
Definition calendar_date (y m d : Z) : bool :=
  Datetime.in_range 1 y 9999 && Datetime.in_range 1 m 12
  && Datetime.in_range 1 d (Datetime._days_in_month y m).

(** The text before the first [c] and the text after it. *)
Fixpoint cut (c : char) (s : string) : option (string * string) :=
  match s with
  | EmptyString => None
  | String x s' =>
      if Char.eqb c x then Some (EmptyString, s')
      else
        match cut c s' with
        | Some (a, b) => Some (String x a, b)
        | None => None
        end
  end.

(** A day as [strptime] reads it: [1]..[9], the same after a blank or
    after a zero, [1] or [2] followed by a decimal digit of any script, or
    [30], [31]. *)
Definition day_text (t : string) : bool :=
  match t with
  | String a EmptyString => Datetime.between "1" "9" a
  | String a (String b EmptyString) =>
      (Char.eqb " " a && Datetime.between "1" "9" b)
      || (Char.eqb "0" a && Datetime.between "1" "9" b)
      || (Datetime.between "1" "2" a && is_decimal b)
      || (Char.eqb "3" a && Datetime.between "0" "1" b)
  | _ => false
  end.

(** A month: [1]..[9], [01]..[09] or [10]..[12]. *)
Definition month_text (t : string) : bool :=
  match t with
  | String a EmptyString => Datetime.between "1" "9" a
  | String a (String b EmptyString) =>
      (Char.eqb "0" a && Datetime.between "1" "9" b)
      || (Char.eqb "1" a && Datetime.between "0" "2" b)
  | _ => false
  end.

(** A year: four decimal digits, of any script. *)
Definition year_text (t : string) : bool :=
  (String.length t =? 4)%nat && string_forall is_decimal t.

(** The shape [D.M.YYYY]: the day, month and year texts of a value, when
    it is made of the three, separated by dots. *)
Definition D_M_YYYY (v : string) : option (string * string * string) :=
  match cut "." v with
  | Some (d, v') =>
      if day_text d then
        match cut "." v' with
        | Some (m, y) =>
            if month_text m && year_text y then Some (d, m, y) else None
        | None => None
        end
      else None
  | None => None
  end.

(** The day, month and year numbers of a value in the strict shape, read
    at their places. *)
Definition strict_day (v : string) : Z := Datetime.int_group (substring 0 2 v).
Definition strict_month (v : string) : Z := Datetime.int_group (substring 3 2 v).
Definition strict_year (v : string) : Z := Datetime.int_group (substring 6 4 v).

(** Some item of the list carries the value [v]. *)
Definition has_value {A : Type} (value : A -> string) (v : string) (l : list A)
  : bool :=
  existsb (fun x => String.eqb (value x) v) l.

(** The list without its first item that carries the value [v]. *)
Fixpoint without_first {A : Type} (value : A -> string) (v : string) (l : list A)
  : list A :=
  match l with
  | [] => []
  | x :: l' =>
      if String.eqb (value x) v then l' else x :: without_first value v l'
  end.

(** The call ended with an exception. *)
Definition crashes {A S : Type} (r : result A * S) : bool :=
  match fst r with
  | Raise _ => true
  | Ok _ => false
  end.

(** The book is well formed: one entry per key, and each entry leads to
    an object of the store whose name is the key. *)
Definition wf (w : World) : Prop :=
  NoDup (Dict.keys (data w))
  /\ forall k a,
      In (k, a) (data w) ->
      a < List.length (heap w) /\ Name.value (Record_.name (deref w a)) = k.

(** The calls that the class [Record] offers. *)
Inductive method : Type :=
| call_add_phone (phone : string)
| call_remove_phone (phone : string)
| call_edit_phone (old_phone new_phone : string)
| call_add_email (email : string)
| call_remove_email (email : string)
| call_edit_email (old_email new_email : string)
| call_add_birthday (birthday : string).

Definition run_method (m : method) : M Record_.t unit :=
  match m with
  | call_add_phone p => Record_.add_phone p
  | call_remove_phone p => Record_.remove_phone p
  | call_edit_phone o n => Record_.edit_phone o n
  | call_add_email e => Record_.add_email e
  | call_remove_email e => Record_.remove_email e
  | call_edit_email o n => Record_.edit_email o n
  | call_add_birthday b => Record_.add_birthday b
  end.

(** The states that a program reaches from the empty book: it creates
    records, calls their methods, and calls [add_record] and [delete] on
    the book. *)
Inductive reachable : World -> Prop :=
| reach_empty : reachable empty_world
| reach_new_record : forall w n,
    reachable w -> reachable (snd (new_record n w))
| reach_call : forall w a m,
    reachable w -> a < List.length (heap w) ->
    reachable (snd (call a (run_method m) w))
| reach_add_record : forall w a,
    reachable w -> a < List.length (heap w) ->
    reachable (snd (AddressBook.add_record a w))
| reach_delete : forall w n,
    reachable w -> reachable (snd (AddressBook.delete n w)).

(** The year on four digits. *)
Definition pad4 (n : Z) : string :=
  String (Datetime.digit (n / 1000 mod 10))
    (String (Datetime.digit (n / 100 mod 10)) (Datetime.pad2 n)).

(** What [str] gives for the year [y]: the number itself, which has four
    digits exactly from the year 1000 on. *)
Definition year_check (y : Z) : bool :=
  match str_int y with
  | EmptyString => false
  | String c _ =>
      negb (Char.eqb "0" c) && string_forall is_digit (str_int y)
      && (Datetime.int_group (str_int y) =? y)%Z
  end
  && (if (1000 <=? y)%Z then String.eqb (str_int y) (pad4 y)
      else (String.length (str_int y) <? 4)%nat).

(** The text is the number [n] written with two of the digits
    ['0'..'9']. *)
Definition two_digit_text (t : string) (n : Z) : bool :=
  (String.length t =? 2)%nat && string_forall is_digit t
  && (Datetime.int_group t =? n)%Z.

(** The text is the number [n] written with the digits ['0'..'9'] and
    no zero in front. *)
Definition number_text (t : string) (n : Z) : bool :=
  match t with
  | EmptyString => false
  | String c _ =>
      negb (Char.eqb "0" c) && string_forall is_digit t
      && (Datetime.int_group t =? n)%Z
  end.

(** The text gives the day [d] and the month [m] on two digits each and
    the year [y] as a number, separated by dots. *)
Definition date_text (t : string) (y m d : Z) : bool :=
  match cut "." t with
  | Some (dd, t') =>
      match cut "." t' with
      | Some (mm, yy) =>
          two_digit_text dd d && two_digit_text mm m && number_text yy y
      | None => false
      end
  | None => false
  end.


(** The test that [get_upcoming_birthdays] applies to a record, when no
    step of it raises. *)
Definition in_window (w : World) (today : Datetime.t) (days : Z)
  (record : addr) : bool :=
  match Record_.birthday (deref w record) with
  | Some b =>
      match Datetime.replace_year (Birthday.value b) (Datetime.year today),
            Datetime.timedelta_days days with
      | Ok next_birthday, Ok delta =>
          match Datetime.add_days today delta with
          | Ok limit =>
              Datetime.le today next_birthday && Datetime.le next_birthday limit
          | Raise _ => false
          end
      | _, _ => false
      end
  | None => false
  end.

(** No character of the text is [@]. *)
Definition no_at (s : string) : bool :=
  string_forall (fun x => negb (Char.eqb "@" x)) s.

(** A non-empty text without [@]. *)
Definition email_part (s : string) : bool := negb (is_empty s) && no_at s.

(** A birthday as [Birthday] makes them: a date of the calendar, at
    midnight. *)
Definition valid_birthday (b : Birthday.t) : bool :=
  let dt := Birthday.value b in
  calendar_date (Datetime.year dt) (Datetime.month dt) (Datetime.day dt)
  && (Datetime.hour dt =? 0)%Z && (Datetime.minute dt =? 0)%Z
  && (Datetime.second dt =? 0)%Z && (Datetime.microsecond dt =? 0)%Z.

(** The day [d] of the month [m] comes before the day [td] of the month
    [tm] in a year. *)
Definition earlier_in_the_year (m d tm td : Z) : bool :=
  (m <? tm)%Z || ((m =? tm)%Z && (d <? td)%Z).

(** The fields of a record are as their classes make them: phones of ten
    digits, emails in the shape of [Email], a birthday that is a date of
    the calendar. *)
Definition valid_record (r : Record_.t) : Prop :=
  (forall p, In p (Record_.phones r) -> ten_digits (Phone.value p) = true)
  /\ (forall e, In e (Record_.emails r) -> Email._validate (Email.value e) = true)
  /\ (forall b, Record_.birthday r = Some b -> valid_birthday b = true).

Definition valid_fields (w : World) : Prop :=
  forall r, In r (heap w) -> valid_record r.

(** A word: a non-empty text without white space. *)
Definition is_word (s : string) : bool :=
  negb (is_empty s) && string_forall (fun c => negb (is_space c)) s.

(** The call returned, or raised a [ValueError]. *)
Definition only_value_error {A : Type} (r : result A) : Prop :=
  match r with
  | Ok _ => True
  | Raise (ValueError _) => True
  | Raise _ => False
  end.

(** The store with the object at [a] replaced by [r]. *)
Definition with_object (a : addr) (r : Record_.t) (w : World) : World :=
  mkWorld (heap_set a r (heap w)) (data w).

(** ** Values for the examples *)

(** The digits 1 to 9 and 0 of the Arabic-Indic script (U+0661 to U+0669
    and U+0660), the number 1990 and the digits 3 and 5 in the same
    script. *)
Definition arabic_indic_1234567890 : string :=
  of_codes [1633; 1634; 1635; 1636; 1637; 1638; 1639; 1640; 1641; 1632]%N.

Definition arabic_indic_1990 : string := of_codes [1633; 1641; 1641; 1632]%N.

Definition arabic_indic_3 : string := of_codes [1635]%N.

Definition arabic_indic_5 : string := of_codes [1637]%N.

(** A value for the parameter [lower_wide] where an example needs one;
    the examples call [lower] on ASCII words only. *)
Definition keep_case (s : string) : char * string :=
  match s with
  | String c s' => (c, s')
  | EmptyString => (" "%char, s)
  end.

(** * Properties *)

Unset Implicit Arguments.

(** ** Equality of characters and of strings *)

Lemma char_eqb_eq (a b : char) : Char.eqb a b = true <-> a = b.
Proof. apply N.eqb_eq. Qed.

Lemma char_eqb_neq (a b : char) : Char.eqb a b = false <-> a <> b.
Proof. apply N.eqb_neq. Qed.

Lemma char_eqb_refl (a : char) : Char.eqb a a = true.
Proof. apply N.eqb_refl. Qed.

Lemma char_eqb_spec (a b : char) : reflect (a = b) (Char.eqb a b).
Proof. apply N.eqb_spec. Qed.

Lemma string_eqb_refl (s : string) : String.eqb s s = true.
Proof.
  induction s as [|c s IH]; simpl; [reflexivity|].
  rewrite char_eqb_refl, IH. reflexivity.
Qed.

Lemma string_eqb_eq (s1 s2 : string) : String.eqb s1 s2 = true <-> s1 = s2.
Proof.
  revert s2. induction s1 as [|c1 s1 IH]; intros [|c2 s2]; simpl;
    try (split; [discriminate | discriminate]); [tauto|].
  rewrite andb_true_iff, char_eqb_eq, IH. split.
  - intros [-> ->]. reflexivity.
  - intros H. injection H as -> ->. auto.
Qed.

Lemma string_eqb_neq (s1 s2 : string) : String.eqb s1 s2 = false <-> s1 <> s2.
Proof.
  rewrite <- string_eqb_eq. destruct (String.eqb s1 s2); split; intros H;
    try discriminate; try reflexivity; try (intros K; discriminate K).
  exfalso. apply H. reflexivity.
Qed.

Lemma string_eqb_spec (s1 s2 : string) : reflect (s1 = s2) (String.eqb s1 s2).
Proof.
  destruct (String.eqb s1 s2) eqn:E; constructor.
  - apply string_eqb_eq. exact E.
  - apply string_eqb_neq. exact E.
Qed.

(** ** Regular expressions *)

Lemma append_nil_inv (s1 s2 : string) :
  (s1 ++ s2)%string = EmptyString -> s1 = EmptyString /\ s2 = EmptyString.
Proof.
  destruct s1; simpl; intros H; [auto | discriminate].
Qed.

Lemma append_cons_inv (s1 s2 : string) c s :
  (s1 ++ s2)%string = String c s ->
  (s1 = EmptyString /\ s2 = String c s)
  \/ (exists s1', s1 = String c s1' /\ s = (s1' ++ s2)%string).
Proof.
  destruct s1 as [|c1 s1]; simpl; intros H.
  - left; auto.
  - right. injection H as -> <-. eauto.
Qed.

Lemma nullable_lang r : Re.nullable r = true <-> Re.lang r EmptyString.
Proof.
  split.
  - induction r; simpl; intros H; try discriminate.
    + constructor.
    + apply andb_true_iff in H as [H1 H2].
      change EmptyString with (EmptyString ++ EmptyString)%string.
      constructor; auto.
    + apply orb_true_iff in H as [H | H];
        [apply Re.lang_alt_l | apply Re.lang_alt_r]; auto.
    + constructor.
  - intros H. remember EmptyString as s eqn:E.
    induction H; simpl; auto; try discriminate.
    + apply append_nil_inv in E as [-> ->]. rewrite IHlang1, IHlang2; auto.
    + rewrite IHlang; auto.
    + rewrite IHlang, orb_true_r; auto.
Qed.

Lemma lang_deriv r s0 :
  Re.lang r s0 -> forall c s, s0 = String c s -> Re.lang (Re.deriv c r) s.
Proof.
  induction 1; intros c0 s0 E; simpl; try discriminate.
  - injection E as -> <-. rewrite H. constructor.
  - apply append_cons_inv in E as [[-> ->] | (s1' & -> & ->)].
    + apply nullable_lang in H. rewrite H.
      apply Re.lang_alt_r. eapply IHlang2; eauto.
    + destruct (Re.nullable r1).
      * apply Re.lang_alt_l. constructor; auto.
      * constructor; auto.
  - apply Re.lang_alt_l; auto.
  - apply Re.lang_alt_r; auto.
  - apply append_cons_inv in E as [[-> ->] | (s1' & -> & ->)].
    + apply (IHlang2 c0 s0 eq_refl).
    + constructor; auto.
Qed.

Lemma deriv_lang r : forall c s, Re.lang (Re.deriv c r) s -> Re.lang r (String c s).
Proof.
  induction r; intros c s H; simpl in H.
  - inversion H.
  - inversion H.
  - destruct (p c) eqn:E; inversion H; subst. constructor; auto.
  - assert (K : forall s, Re.lang (Re.Cat (Re.deriv c r1) r2) s ->
                          Re.lang (Re.Cat r1 r2) (String c s)).
    { intros s' H'. inversion H'; subst.
      change (String c (s1 ++ s2)%string) with (String c s1 ++ s2)%string.
      constructor; auto. }
    destruct (Re.nullable r1) eqn:E; auto.
    inversion H; subst; auto.
    change (String c s) with (EmptyString ++ String c s)%string.
    constructor; auto. apply nullable_lang; auto.
  - inversion H; subst; [apply Re.lang_alt_l | apply Re.lang_alt_r]; auto.
  - inversion H; subst.
    change (String c (s1 ++ s2)%string) with (String c s1 ++ s2)%string.
    constructor; auto.
Qed.

(** The matcher decides membership in the language. *)
Lemma fullmatch_lang : forall s r, Re.fullmatch r s = true <-> Re.lang r s.
Proof.
  induction s as [|c s IH]; intros r; simpl.
  - apply nullable_lang.
  - rewrite IH. split.
    + apply deriv_lang.
    + intros H. eapply lang_deriv; eauto.
Qed.

Lemma lang_repeat_class (p : char -> bool) :
  forall n s,
    Re.lang (Re.Repeat n (Re.Class p)) s
    <-> String.length s = n /\ string_forall p s = true.
Proof.
  induction n as [|n IH]; intros s; simpl.
  - split.
    + intros H; inversion H; subst; auto.
    + intros [H _]. destruct s; [constructor | discriminate].
  - split.
    + intros H. inversion H; subst.
      match goal with
      | K : Re.lang (Re.Class p) _ |- _ => inversion K; subst
      end.
      match goal with
      | K : Re.lang (Re.Repeat n _) _ |- _ => apply IH in K as [K1 K2]
      end.
      simpl. rewrite K1, K2, andb_true_r. auto.
    + intros [H1 H2]. destruct s as [|c s]; [discriminate|].
      simpl in H1, H2. apply andb_true_iff in H2 as [H2 H3].
      change (String c s) with (String c EmptyString ++ s)%string.
      constructor; [constructor; auto|].
      apply IH. split; [lia | auto].
Qed.

(** ** Decimal digits *)

Lemma decimal_in_bounds (zeros : list N) (c : char) (v : Z) :
  decimal_in zeros c = Some v -> (0 <= v <= 9)%Z.
Proof.
  induction zeros as [|z zeros IH]; simpl; [discriminate|].
  destruct ((z <=? c)%N && (c <? z + 10)%N) eqn:E; [|exact IH].
  apply andb_true_iff in E as [E1 E2].
  apply N.leb_le in E1. apply N.ltb_lt in E2.
  intros H. injection H as <-. lia.
Qed.

(** A decimal digit has a value from 0 to 9. *)
Lemma decimal_bounds (c : char) (v : Z) : decimal c = Some v -> (0 <= v <= 9)%Z.
Proof. apply decimal_in_bounds. Qed.

Lemma decimal_in_above (zeros : list N) (c : char) :
  Forall (fun z => (c < z)%N) zeros -> decimal_in zeros c = None.
Proof.
  induction 1 as [|z zeros H _ IH]; simpl; [reflexivity|].
  destruct (N.leb_spec z c); [lia | exact IH].
Qed.

(** ['0'..'9'] are decimal digits, with their values. *)
Lemma decimal_of_digit (c : char) :
  is_digit c = true -> decimal c = Some (Z.of_N c - 48)%Z.
Proof.
  unfold is_digit. intros H. apply andb_true_iff in H as [H1 H2].
  apply N.leb_le in H1, H2.
  unfold decimal, decimal_zeros. cbn [decimal_in].
  destruct (N.leb_spec 48 c); [|lia].
  destruct (N.ltb_spec c (48 + 10)); [|lia].
  cbn [andb]. f_equal. lia.
Qed.

Lemma is_digit_decimal (c : char) : is_digit c = true -> is_decimal c = true.
Proof.
  intros H. unfold is_decimal. rewrite (decimal_of_digit c H). reflexivity.
Qed.

(** Among the ASCII characters the decimal digits are ['0'..'9']. *)
Lemma is_decimal_ascii (c : char) :
  (c < 128)%N -> is_decimal c = is_digit c.
Proof.
  intros H. destruct (is_digit c) eqn:D; [apply is_digit_decimal; exact D|].
  unfold is_decimal, decimal, decimal_zeros.
  change (decimal_in (48%N :: ?l) c)
    with (if (48 <=? c)%N && (c <? 48 + 10)%N then Some (Z.of_N (c - 48))
          else decimal_in l c).
  unfold is_digit in D.
  replace ((48 <=? c)%N && (c <? 48 + 10)%N) with false.
  2:{ symmetry. apply andb_false_iff. apply andb_false_iff in D.
      destruct D as [D | D]; [left; exact D | right].
      apply N.leb_gt in D. apply N.ltb_ge. lia. }
  rewrite decimal_in_above; [reflexivity|].
  repeat (constructor; [lia|]). constructor.
Qed.

Lemma is_digit_cases (c : char) :
  is_digit c = true ->
  In c ["0"; "1"; "2"; "3"; "4"; "5"; "6"; "7"; "8"; "9"]%char.
Proof.
  unfold is_digit. intros H. apply andb_true_iff in H as [H1 H2].
  apply N.leb_le in H1, H2.
  assert (C : (c = 48 \/ c = 49 \/ c = 50 \/ c = 51 \/ c = 52 \/ c = 53
               \/ c = 54 \/ c = 55 \/ c = 56 \/ c = 57)%N) by lia.
  simpl. repeat (destruct C as [C | C]; [subst c; auto 12|]).
  subst c; auto 12.
Qed.

(** ** Phone *)

Lemma Phone_validate_ten_digits v : Phone._validate v = ten_digits v.
Proof.
  unfold Phone._validate, ten_digits, Phone.pattern.
  apply eq_true_iff_eq.
  rewrite fullmatch_lang, lang_repeat_class, andb_true_iff, Nat.eqb_eq.
  reflexivity.
Qed.

Lemma Phone_init_spec (value : string) :
  Phone.init value =
  if ten_digits value then Ok (Phone.mk value)
  else Raise (ValueError "Invalid phone number format. It should be 10 digits.").
Proof.
  unfold Phone.init. rewrite Phone_validate_ten_digits. reflexivity.
Qed.

(** C2.  For every string [value], [Phone(value)] yields a [Phone]
    carrying [value] when [value] is exactly ten decimal digits, and
    raises the validation error (a [ValueError]) for every other
    string.  A string is any sequence of code points, and a decimal
    digit is what Unicode classes as one, as [\d] does: ['0'..'9'] and
    the digits of the other scripts. *)
Theorem Phone_init_exactly_ten_digits :
  forall value : string,
    Phone.init value =
    if ten_digits value then Ok (Phone.mk value)
    else Raise (ValueError "Invalid phone number format. It should be 10 digits.").
Proof. exact Phone_init_spec. Qed.

(** Among the ASCII strings the phones are the strings of ten of
    ['0'..'9']; ten digits of another script make a phone as well. *)
Lemma ten_digits_ascii (v : string) :
  string_forall (fun c => (c <? 128)%N) v = true ->
  ten_digits v = (String.length v =? 10)%nat && string_forall is_digit v.
Proof.
  intros H. unfold ten_digits. f_equal.
  induction v as [|c v IH]; [reflexivity|].
  simpl in H. apply andb_true_iff in H as [Hc Hv].
  apply N.ltb_lt in Hc. simpl.
  rewrite (is_decimal_ascii c Hc), (IH Hv). reflexivity.
Qed.

Lemma Phone_init_other_scripts :
  Phone.init arabic_indic_1234567890 = Ok (Phone.mk arabic_indic_1234567890)
  /\ string_forall is_digit arabic_indic_1234567890 = false.
Proof. split; reflexivity. Qed.

(** ** Birthday *)

Section BirthdayShape.

#[local] Arguments Char.eqb : simpl never.
#[local] Arguments is_digit : simpl never.
#[local] Arguments is_decimal : simpl never.
#[local] Arguments Datetime.between : simpl never.

(** The tests of the format on a dot. *)
Ltac tests_on_dot :=
  repeat match goal with
         | |- context [is_digit "."] => change (is_digit ".") with false
         | |- context [is_decimal "."] => change (is_decimal ".") with false
         | |- context [Datetime.between ?x ?y "."] =>
             let v := eval vm_compute in (Datetime.between x y ".") in
             change (Datetime.between x y ".") with v
         | |- context [Char.eqb ?x "."] =>
             let v := eval vm_compute in (Char.eqb x ".") in
             change (Char.eqb x ".") with v
         end.

Ltac settle :=
  simpl; tests_on_dot; simpl;
  repeat (first
    [ reflexivity
    | match goal with
      | E : true = false |- _ => discriminate E
      | E : false = true |- _ => discriminate E
      | E : ?t = _ |- context [?t] => rewrite E; simpl
      | |- context [if ?b then _ else _] => destruct b; simpl
      | |- context [match Datetime.re_match ?i ?r with _ => _ end] =>
          destruct (Datetime.re_match i r) as [[? ?]|]; simpl
      | |- context [match cut ?c ?r with _ => _ end] =>
          destruct (cut c r) as [[? ?]|]; simpl
      end ]).

Ltac dot_or_not c :=
  let E := fresh "E" in
  destruct (Char.eqb "." c) eqn:E;
  [ apply char_eqb_eq in E; subst c | ].

Lemma re_match_day items s :
  Datetime.re_match (Datetime.Group Datetime.dir_d :: Datetime.Lit "." :: items) s =
  match cut "." s with
  | Some (d, rest) =>
      if day_text d then
        match Datetime.re_match items rest with
        | Some (found, remains) => Some ((Datetime.dir_d, d) :: found, remains)
        | None => None
        end
      else None
  | None => None
  end.
Proof.
  destruct s as [|a s]; [reflexivity|].
  dot_or_not a; [settle|].
  destruct s as [|b s]; [settle|].
  dot_or_not b; [settle|].
  destruct s as [|x s]; [settle|].
  dot_or_not x; [settle|].
  settle.
Qed.

Lemma re_match_month items s :
  Datetime.re_match (Datetime.Group Datetime.dir_m :: Datetime.Lit "." :: items) s =
  match cut "." s with
  | Some (d, rest) =>
      if month_text d then
        match Datetime.re_match items rest with
        | Some (found, remains) => Some ((Datetime.dir_m, d) :: found, remains)
        | None => None
        end
      else None
  | None => None
  end.
Proof.
  destruct s as [|a s]; [reflexivity|].
  dot_or_not a; [settle|].
  destruct s as [|b s]; [settle|].
  dot_or_not b; [settle|].
  destruct s as [|x s]; [settle|].
  dot_or_not x; settle.
Qed.

Lemma re_match_year s :
  Datetime.re_match [Datetime.Group Datetime.dir_Y] s =
  match s with
  | String y1 (String y2 (String y3 (String y4 rest))) =>
      if is_decimal y1 && is_decimal y2 && is_decimal y3 && is_decimal y4
      then Some ([(Datetime.dir_Y,
                   String y1 (String y2 (String y3 (String y4 EmptyString))))],
                 rest)
      else None
  | _ => None
  end.
Proof.
  destruct s as [|y1 [|y2 [|y3 [|y4 rest]]]]; simpl;
    repeat match goal with
           | |- context [is_decimal ?c] => destruct (is_decimal c); simpl
           end;
    reflexivity.
Qed.

Lemma year_text_four y1 y2 y3 y4 rest :
  year_text (String y1 (String y2 (String y3 (String y4 rest)))) =
  is_decimal y1 && is_decimal y2 && is_decimal y3 && is_decimal y4
  && is_empty rest.
Proof.
  unfold year_text. destruct rest as [|c rest]; simpl.
  - rewrite !andb_true_r, !andb_assoc. reflexivity.
  - rewrite !andb_false_r. reflexivity.
Qed.

Lemma year_text_short y :
  (String.length y < 4)%nat -> year_text y = false.
Proof.
  unfold year_text. intros H.
  destruct (Nat.eqb_spec (String.length y) 4); [lia | reflexivity].
Qed.

#[local] Arguments Datetime.new : simpl never.
#[local] Arguments Datetime.int_group : simpl never.

Lemma Birthday_init_shape (v : string) :
  Birthday.init v =
  match D_M_YYYY v with
  | Some (d, m, y) =>
      match Datetime.new (Datetime.int_group y) (Datetime.int_group m)
              (Datetime.int_group d) 0 0 0 0 with
      | Ok dt => Ok (Birthday.mk dt)
      | Raise _ => Raise (ValueError "Invalid date format. Use DD.MM.YYYY")
      end
  | None => Raise (ValueError "Invalid date format. Use DD.MM.YYYY")
  end.
Proof.
  unfold Birthday.init, Datetime.strptime_dmY, D_M_YYYY, Datetime.format_dmY.
  rewrite re_match_day.
  destruct (cut "." v) as [[d v']|]; [|reflexivity].
  destruct (day_text d); [|reflexivity].
  rewrite re_match_month.
  destruct (cut "." v') as [[m y]|]; [|reflexivity].
  destruct (month_text m); [|reflexivity].
  rewrite re_match_year.
  destruct y as [|y1 [|y2 [|y3 [|y4 rest]]]];
    try (rewrite year_text_short by (simpl; lia); reflexivity).
  rewrite year_text_four.
  destruct (is_decimal y1 && is_decimal y2 && is_decimal y3 && is_decimal y4);
    [|reflexivity].
  destruct rest as [|c rest]; [|reflexivity].
  simpl.
  destruct (Datetime.new _ _ _ 0 0 0 0) as [dt | e] eqn:E; [reflexivity|].
  unfold Datetime.new in E.
  repeat match type of E with
         | (if ?b then _ else _) = _ => destruct b
         end;
    inversion E; reflexivity.
Qed.

End BirthdayShape.

Lemma new_calendar (y m d : Z) :
  Datetime.new y m d 0 0 0 0 =
  if calendar_date y m d then Ok (Datetime.mk y m d 0 0 0 0)
  else
    if negb (Datetime.in_range 1 y 9999)
    then Raise (ValueError ("year " ++ str_int y ++ " is out of range"))
    else if negb (Datetime.in_range 1 m 12) then Raise (ValueError "month must be in 1..12")
    else Raise (ValueError "day is out of range for month").
Proof.
  unfold Datetime.new, calendar_date, Datetime.MINYEAR, Datetime.MAXYEAR.
  destruct (Datetime.in_range 1 y 9999); simpl; [|reflexivity].
  destruct (Datetime.in_range 1 m 12); simpl; [|reflexivity].
  destruct (Datetime.in_range 1 d (Datetime._days_in_month y m)); reflexivity.
Qed.

Ltac digit_cases c H :=
  apply is_digit_cases in H; simpl in H;
  repeat (destruct H as [H | H]); try contradiction; subst c.

Lemma digit_not_dot (c : char) : is_digit c = true -> Char.eqb "." c = false.
Proof. intros H. digit_cases c H; reflexivity. Qed.

Lemma day_text_digits (a b : char) :
  is_digit a = true -> is_digit b = true ->
  day_text (String a (String b EmptyString)) =
  Datetime.in_range 1 (Datetime.int_group (String a (String b EmptyString))) 31.
Proof.
  intros Ha Hb. digit_cases a Ha; digit_cases b Hb; reflexivity.
Qed.

Lemma month_text_digits (a b : char) :
  is_digit a = true -> is_digit b = true ->
  month_text (String a (String b EmptyString)) =
  Datetime.in_range 1 (Datetime.int_group (String a (String b EmptyString))) 12.
Proof.
  intros Ha Hb. digit_cases a Ha; digit_cases b Hb; reflexivity.
Qed.

Lemma days_in_month_le_31 (y m : Z) : (Datetime._days_in_month y m <= 31)%Z.
Proof.
  unfold Datetime._days_in_month.
  destruct ((m =? 2)%Z && Datetime._is_leap y); [lia|].
  unfold Datetime._DAYS_IN_MONTH.
  destruct m as [|p|p]; try lia.
  do 4 (destruct p as [p|p|]; try lia).
Qed.

Lemma Birthday_init_calendar (v : string) :
  Birthday.init v =
  match D_M_YYYY v with
  | Some (d, m, y) =>
      if calendar_date (Datetime.int_group y) (Datetime.int_group m)
           (Datetime.int_group d)
      then Ok (Birthday.mk
                 (Datetime.mk (Datetime.int_group y) (Datetime.int_group m)
                    (Datetime.int_group d) 0 0 0 0))
      else Raise (ValueError "Invalid date format. Use DD.MM.YYYY")
  | None => Raise (ValueError "Invalid date format. Use DD.MM.YYYY")
  end.
Proof.
  rewrite Birthday_init_shape.
  destruct (D_M_YYYY v) as [[[d m] y]|]; [|reflexivity].
  rewrite new_calendar.
  destruct (calendar_date _ _ _); [reflexivity|].
  repeat match goal with
         | |- context [if negb ?b then _ else _] => destruct (negb b)
         end; reflexivity.
Qed.

Lemma in_range_day_false (y m d : Z) :
  Datetime.in_range 1 d 31 = false ->
  Datetime.in_range 1 d (Datetime._days_in_month y m) = false.
Proof.
  pose proof (days_in_month_le_31 y m) as L.
  unfold Datetime.in_range. intros H.
  apply andb_false_iff in H. apply andb_false_iff.
  destruct H as [H | H]; [left; exact H | right].
  apply Z.leb_gt in H. apply Z.leb_gt. lia.
Qed.

(** A value in the strict shape is accepted exactly when it is a date of
    the calendar. *)
Lemma Birthday_init_strict (v : string) :
  strict_DD_MM_YYYY v = true ->
  Birthday.init v =
  if calendar_date (strict_year v) (strict_month v) (strict_day v)
  then Ok (Birthday.mk
             (Datetime.mk (strict_year v) (strict_month v) (strict_day v) 0 0 0 0))
  else Raise (ValueError "Invalid date format. Use DD.MM.YYYY").
Proof.
  intros H. unfold strict_DD_MM_YYYY in H.
  destruct v as [|d1 [|d2 [|p1 [|m1 [|m2 [|p2 [|y1 [|y2 [|y3 [|y4 [|? ?]]]]]]]]]]];
    try discriminate H.
  do 9 (apply andb_true_iff in H; destruct H as [H ?]).
  repeat match goal with
         | E : Char.eqb "." ?c = true |- _ => apply char_eqb_eq in E; subst c
         end.
  rewrite Birthday_init_calendar.
  unfold D_M_YYYY, strict_year, strict_month, strict_day.
  unfold substring; cbn [cut take skip].
  rewrite (digit_not_dot d1), (digit_not_dot d2) by assumption.
  change (Char.eqb "." ".") with true. cbv iota beta.
  rewrite day_text_digits by assumption.
  cbn [cut].
  rewrite (digit_not_dot m1), (digit_not_dot m2) by assumption.
  change (Char.eqb "." ".") with true. cbv iota beta.
  rewrite month_text_digits by assumption.
  set (d := Datetime.int_group (String d1 (String d2 EmptyString))).
  set (m := Datetime.int_group (String m1 (String m2 EmptyString))).
  set (y := Datetime.int_group _).
  assert (Y : year_text (String y1 (String y2 (String y3 (String y4 EmptyString))))
              = true).
  { unfold year_text. simpl.
    repeat match goal with
           | E : is_digit _ = true |- _ =>
               rewrite (is_digit_decimal _ E); clear E
           end.
    reflexivity. }
  rewrite Y, andb_true_r.
  destruct (Datetime.in_range 1 d 31) eqn:D31.
  - destruct (Datetime.in_range 1 m 12) eqn:M12; [reflexivity|].
    unfold calendar_date. rewrite M12, andb_false_r. reflexivity.
  - unfold calendar_date. rewrite (in_range_day_false y m d D31), andb_false_r.
    reflexivity.
Qed.

(** C3, as stated, fails: a value that is not in the strict shape is
    accepted. *)
Lemma Birthday_init_accepts_loose_value :
  strict_DD_MM_YYYY "1.2.2020" = false
  /\ Birthday.init "1.2.2020" = Ok (Birthday.mk (Datetime.mk 2020 2 1 0 0 0 0)).
Proof. split; reflexivity. Qed.

(** C3, amended.  [Birthday(value)] succeeds exactly when [value] reads
    [D.M.YYYY] - the day written [1]..[9] (a blank or a zero may come
    first), [1] or [2] followed by a decimal digit, [30] or [31]; the
    month written [1]..[9] (a zero may come first) or [10]..[12]; the
    year with four decimal digits - and the three numbers are a date of
    the calendar in the years 1 to 9999; the birthday is then that date.
    The characters written here are those of ASCII, while "a decimal
    digit" is one of any script, read by its value: the year of
    [15.06.] followed by 1990 in Arabic-Indic digits is 1990, and [1]
    followed by the Arabic-Indic 5 is the day 15, but an Arabic-Indic 3
    alone is no day.  Every other string fails with the validation
    error (a [ValueError]).  For the values in the strict shape
    [DD.MM.YYYY], with the digits ['0'..'9'], success is exactly being a
    date of the calendar; ["29.02.2021"] fails and ["29.02.2020"]
    succeeds. *)
Theorem Birthday_init_D_M_YYYY :
  (forall value : string,
      Birthday.init value =
      match D_M_YYYY value with
      | Some (d, m, y) =>
          if calendar_date (Datetime.int_group y) (Datetime.int_group m)
               (Datetime.int_group d)
          then Ok (Birthday.mk
                     (Datetime.mk (Datetime.int_group y) (Datetime.int_group m)
                        (Datetime.int_group d) 0 0 0 0))
          else Raise (ValueError "Invalid date format. Use DD.MM.YYYY")
      | None => Raise (ValueError "Invalid date format. Use DD.MM.YYYY")
      end)
  /\ (forall value : string,
         strict_DD_MM_YYYY value = true ->
         Birthday.init value =
         if calendar_date (strict_year value) (strict_month value) (strict_day value)
         then Ok (Birthday.mk
                    (Datetime.mk (strict_year value) (strict_month value)
                       (strict_day value) 0 0 0 0))
         else Raise (ValueError "Invalid date format. Use DD.MM.YYYY"))
  /\ Birthday.init "29.02.2021"
     = Raise (ValueError "Invalid date format. Use DD.MM.YYYY")
  /\ Birthday.init "29.02.2020"
     = Ok (Birthday.mk (Datetime.mk 2020 2 29 0 0 0 0))
  /\ Birthday.init ("15.06." ++ arabic_indic_1990)
     = Ok (Birthday.mk (Datetime.mk 1990 6 15 0 0 0 0))
  /\ Birthday.init ("1" ++ arabic_indic_5 ++ ".06.1990")
     = Ok (Birthday.mk (Datetime.mk 1990 6 15 0 0 0 0))
  /\ Birthday.init (arabic_indic_3 ++ ".1.2020")
     = Raise (ValueError "Invalid date format. Use DD.MM.YYYY").
Proof.
  split; [exact Birthday_init_calendar|].
  split; [exact Birthday_init_strict|].
  repeat split.
Qed.

Lemma Birthday_init_D_M_YYYY_witness :
  strict_DD_MM_YYYY "15.06.1990" = true
  /\ Birthday.init "15.06.1990" = Ok (Birthday.mk (Datetime.mk 1990 6 15 0 0 0 0)).
Proof.
  split.
  - reflexivity.
  - exact (proj1 (proj2 Birthday_init_D_M_YYYY) "15.06.1990" eq_refl).
Defined.

(** A birthday made by [Birthday] is a date of the calendar at
    midnight. *)
Lemma Birthday_init_midnight (v : string) (b : Birthday.t) :
  Birthday.init v = Ok b ->
  exists y m d,
    Birthday.value b = Datetime.mk y m d 0 0 0 0 /\ calendar_date y m d = true.
Proof.
  rewrite Birthday_init_calendar.
  destruct (D_M_YYYY v) as [[[d m] y]|]; [|discriminate].
  destruct (calendar_date _ _ _) eqn:C; [|discriminate].
  intros H. injection H as <-.
  exists (Datetime.int_group y), (Datetime.int_group m), (Datetime.int_group d).
  split; [reflexivity | exact C].
Qed.

(** ** What the day and month texts denote *)

Lemma between_digit (c : char) :
  (Datetime.between "0" "1" c = true \/ Datetime.between "0" "2" c = true
   \/ Datetime.between "1" "2" c = true \/ Datetime.between "1" "9" c = true) ->
  is_digit c = true.
Proof.
  unfold Datetime.between, is_digit. intros H.
  apply andb_true_iff. rewrite !N.leb_le.
  repeat (destruct H as [H | H]);
    apply andb_true_iff in H as [H1 H2]; apply N.leb_le in H1, H2; lia.
Qed.

Ltac enumerate_digits :=
  repeat match goal with
         | H : Datetime.between _ _ ?c = true |- _ =>
             let D := fresh "D" in
             assert (D : is_digit c = true) by (apply between_digit; auto);
             apply is_digit_cases in D; simpl in D;
             decompose [or] D; clear D; try contradiction; subst c;
             try discriminate H; clear H
         | H : is_digit ?c = true |- _ =>
             is_var c;
             apply is_digit_cases in H; simpl in H;
             decompose [or] H; clear H; try contradiction; subst c
         | H : Char.eqb _ ?c = true |- _ =>
             is_var c; apply char_eqb_eq in H; subst c
         end.

(** A day text denotes a number from 1 to 31. *)
Lemma day_text_range (t : string) :
  day_text t = true -> Datetime.in_range 1 (Datetime.int_group t) 31 = true.
Proof.
  destruct t as [|a [|b [|c t]]]; unfold day_text; intros H;
    try discriminate H.
  - enumerate_digits; reflexivity.
  - repeat (apply orb_true_iff in H; destruct H as [H | H]);
      apply andb_true_iff in H; destruct H as [Ha Hb];
      enumerate_digits; try reflexivity;
      unfold is_decimal in Hb; destruct (decimal b) as [v|] eqn:Db;
      try discriminate Hb; pose proof (decimal_bounds b v Db) as Bv;
      unfold Datetime.int_group; cbn [Datetime.int_digits]; rewrite Db;
      [ change (decimal "1") with (Some 1%Z)
      | change (decimal "2") with (Some 2%Z) ];
      cbv iota beta; unfold Datetime.in_range;
      apply andb_true_iff; split; apply Z.leb_le; lia.
Qed.

(** A month text denotes a number from 1 to 12. *)
Lemma month_text_range (t : string) :
  month_text t = true -> Datetime.in_range 1 (Datetime.int_group t) 12 = true.
Proof.
  destruct t as [|a [|b [|c t]]]; unfold month_text; intros H;
    try discriminate H.
  - enumerate_digits; reflexivity.
  - repeat (apply orb_true_iff in H; destruct H as [H | H]);
      apply andb_true_iff in H; destruct H as [Ha Hb];
      enumerate_digits; reflexivity.
Qed.

(** ** Rendering *)

Lemma digit_cases (k : Z) :
  (0 <= k < 10)%Z ->
  is_digit (Datetime.digit k) = true
  /\ decimal (Datetime.digit k) = Some k
  /\ Char.eqb "." (Datetime.digit k) = false.
Proof.
  intros H.
  assert (C : (k = 0 \/ k = 1 \/ k = 2 \/ k = 3 \/ k = 4 \/ k = 5 \/ k = 6
               \/ k = 7 \/ k = 8 \/ k = 9)%Z) by lia.
  repeat (destruct C as [-> | C]); try subst k; repeat split; reflexivity.
Qed.

Lemma digit_mod (n : Z) :
  is_digit (Datetime.digit (n mod 10)) = true
  /\ decimal (Datetime.digit (n mod 10)) = Some (n mod 10)%Z
  /\ Char.eqb "." (Datetime.digit (n mod 10)) = false.
Proof. apply digit_cases. apply Z.mod_pos_bound. lia. Qed.

Lemma length_append (s1 s2 : string) :
  String.length (s1 ++ s2)%string = String.length s1 + String.length s2.
Proof.
  induction s1 as [|c s1 IH]; simpl; [reflexivity | rewrite IH; reflexivity].
Qed.

Lemma strict_length (v : string) :
  strict_DD_MM_YYYY v = true -> String.length v = 10.
Proof.
  unfold strict_DD_MM_YYYY.
  destruct v as [|d1 [|d2 [|p1 [|m1 [|m2 [|p2 [|y1 [|y2 [|y3 [|y4 [|? ?]]]]]]]]]]];
    try discriminate. reflexivity.
Qed.

(** Day and month on two digits and the year on four make the strict
    shape. *)
Lemma padded_strict (y m d : Z) :
  strict_DD_MM_YYYY (Datetime.pad2 d ++ "." ++ Datetime.pad2 m ++ "." ++ pad4 y)
  = true.
Proof.
  unfold pad4, Datetime.pad2.
  cbn [append]. unfold strict_DD_MM_YYYY.
  repeat match goal with
         | |- context [is_digit (Datetime.digit (?n mod 10))] =>
             rewrite (proj1 (digit_mod n))
         end.
  reflexivity.
Qed.

Lemma int_group_pad2 (n : Z) :
  (0 <= n < 100)%Z -> Datetime.int_group (Datetime.pad2 n) = n.
Proof.
  intros H. unfold Datetime.int_group, Datetime.pad2, Datetime.int_digits.
  destruct (digit_mod (n / 10)) as (_ & V1 & _).
  destruct (digit_mod n) as (_ & V2 & _).
  rewrite V1, V2.
  rewrite (Z.mod_small (n / 10) 10) by (split; [apply Z.div_pos; lia
                                              | apply Z.div_lt_upper_bound; lia]).
  pose proof (Z.div_mod n 10). lia.
Qed.

Lemma int_group_pad4 (n : Z) :
  (0 <= n < 10000)%Z -> Datetime.int_group (pad4 n) = n.
Proof.
  intros H.
  unfold Datetime.int_group, pad4, Datetime.pad2, Datetime.int_digits.
  destruct (digit_mod (n / 1000)) as (_ & V1 & _).
  destruct (digit_mod (n / 100)) as (_ & V2 & _).
  destruct (digit_mod (n / 10)) as (_ & V3 & _).
  destruct (digit_mod n) as (_ & V4 & _).
  rewrite V1, V2, V3, V4.
  pose proof (Z.div_mod n 10). pose proof (Z.div_mod (n / 10) 10).
  pose proof (Z.div_mod (n / 100) 10).
  assert (E1 : (n / 10 / 10 = n / 100)%Z).
  { rewrite Z.div_div by lia. reflexivity. }
  assert (E2 : (n / 100 / 10 = n / 1000)%Z).
  { rewrite Z.div_div by lia. reflexivity. }
  assert (S : (n / 1000 mod 10 = n / 1000)%Z).
  { apply Z.mod_small. split; [apply Z.div_pos; lia
                              | apply Z.div_lt_upper_bound; lia]. }
  lia.
Qed.

Lemma two_digit_text_pad2 (n : Z) :
  (0 <= n < 100)%Z -> two_digit_text (Datetime.pad2 n) n = true.
Proof.
  intros H. unfold two_digit_text. rewrite (int_group_pad2 n H), Z.eqb_refl.
  unfold Datetime.pad2. cbn [String.length string_forall Nat.eqb].
  rewrite (proj1 (digit_mod (n / 10))), (proj1 (digit_mod n)). reflexivity.
Qed.

(** The first dot after a number on two digits is the one that follows
    it. *)
Lemma cut_pad2 (n : Z) (rest : string) :
  cut "." (Datetime.pad2 n ++ "." ++ rest) = Some (Datetime.pad2 n, rest).
Proof.
  unfold Datetime.pad2. cbn [append cut].
  rewrite (proj2 (proj2 (digit_mod (n / 10)))), (proj2 (proj2 (digit_mod n))).
  reflexivity.
Qed.

Lemma year_check_all :
  forallb (fun k => year_check (Z.of_nat k)) (seq 1 (Z.to_nat 9999)) = true.
Proof. vm_compute. reflexivity. Qed.

(** The years of [datetime], as [str] writes them. *)
Lemma year_check_ok (y : Z) : (1 <= y <= 9999)%Z -> year_check y = true.
Proof.
  intros H. pose proof year_check_all as A.
  rewrite forallb_forall in A.
  specialize (A (Z.to_nat y)). rewrite Z2Nat.id in A by lia.
  apply A. apply in_seq. lia.
Qed.

Lemma str_int_number_text (y : Z) :
  (1 <= y <= 9999)%Z -> number_text (str_int y) y = true.
Proof.
  intros H. pose proof (year_check_ok y H) as C. unfold year_check in C.
  apply andb_true_iff in C as [C _]. unfold number_text. exact C.
Qed.

Lemma str_int_pad4 (y : Z) : (1000 <= y <= 9999)%Z -> str_int y = pad4 y.
Proof.
  intros H. assert (H' : (1 <= y <= 9999)%Z) by lia.
  pose proof (year_check_ok y H') as C. unfold year_check in C.
  apply andb_true_iff in C as [_ C].
  destruct (Z.leb_spec 1000 y); [|lia].
  apply string_eqb_eq. exact C.
Qed.

Lemma str_int_short (y : Z) :
  (1 <= y < 1000)%Z -> String.length (str_int y) < 4.
Proof.
  intros H. assert (H' : (1 <= y <= 9999)%Z) by lia.
  pose proof (year_check_ok y H') as C. unfold year_check in C.
  apply andb_true_iff in C as [_ C].
  destruct (Z.leb_spec 1000 y); [lia|].
  apply Nat.ltb_lt. exact C.
Qed.

Lemma calendar_date_bounds (y m d : Z) :
  calendar_date y m d = true ->
  (1 <= y <= 9999 /\ 1 <= m <= 12 /\ 1 <= d <= 31)%Z.
Proof.
  intros C. unfold calendar_date, Datetime.in_range in C.
  pose proof (days_in_month_le_31 y m).
  repeat (apply andb_true_iff in C; destruct C as [C ?]).
  repeat match goal with
         | E : (_ <=? _)%Z = true |- _ => apply Z.leb_le in E
         end.
  lia.
Qed.

(** What [strftime] prints for a date of the calendar gives its day,
    month and year. *)
Lemma strftime_dmY_date_text (dt : Datetime.t) :
  calendar_date (Datetime.year dt) (Datetime.month dt) (Datetime.day dt) = true ->
  date_text (Datetime.strftime_dmY dt)
    (Datetime.year dt) (Datetime.month dt) (Datetime.day dt) = true.
Proof.
  intros C. apply calendar_date_bounds in C as (Hy & Hm & Hd).
  unfold date_text, Datetime.strftime_dmY.
  rewrite cut_pad2, cut_pad2.
  rewrite two_digit_text_pad2, two_digit_text_pad2 by lia.
  rewrite str_int_number_text by lia. reflexivity.
Qed.

(** From the year 1000 on the text of [strftime] is in the strict shape;
    before, it is shorter. *)
Lemma strftime_dmY_strict (dt : Datetime.t) :
  (1 <= Datetime.year dt <= 9999)%Z ->
  strict_DD_MM_YYYY (Datetime.strftime_dmY dt) = (1000 <=? Datetime.year dt)%Z.
Proof.
  intros H. unfold Datetime.strftime_dmY.
  destruct (Z.leb_spec 1000 (Datetime.year dt)) as [L | L].
  - rewrite str_int_pad4 by lia. apply padded_strict.
  - destruct (strict_DD_MM_YYYY _) eqn:S; [|reflexivity].
    apply strict_length in S.
    rewrite !length_append in S.
    assert (K : String.length (str_int (Datetime.year dt)) < 4)
      by (apply str_int_short; lia).
    unfold Datetime.pad2 in S. simpl in S. lia.
Qed.

(** A date of the calendar from the year 1000 on, written by [strftime],
    is read back by [Birthday] as the same date: the text is
    [DD.MM.YYYY]. *)
Lemma strftime_dmY_reads_back (y m d : Z) :
  calendar_date y m d = true ->
  (1000 <= y)%Z ->
  Birthday.init (Datetime.strftime_dmY (Datetime.mk y m d 0 0 0 0))
  = Ok (Birthday.mk (Datetime.mk y m d 0 0 0 0)).
Proof.
  intros C L.
  pose proof (calendar_date_bounds y m d C) as R.
  unfold Datetime.strftime_dmY.
  cbn [Datetime.day Datetime.month Datetime.year].
  rewrite str_int_pad4 by lia.
  rewrite Birthday_init_strict by apply padded_strict.
  assert (Ed : strict_day (Datetime.pad2 d ++ "." ++ Datetime.pad2 m ++ "."
                           ++ pad4 y) = d).
  { unfold strict_day, pad4, Datetime.pad2.
    unfold substring; cbn [take skip append].
    apply (int_group_pad2 d). lia. }
  assert (Em : strict_month (Datetime.pad2 d ++ "." ++ Datetime.pad2 m ++ "."
                             ++ pad4 y) = m).
  { unfold strict_month, pad4, Datetime.pad2.
    unfold substring; cbn [take skip append].
    apply (int_group_pad2 m). lia. }
  assert (Ey : strict_year (Datetime.pad2 d ++ "." ++ Datetime.pad2 m ++ "."
                            ++ pad4 y) = y).
  { unfold strict_year, pad4, Datetime.pad2.
    unfold substring; cbn [take skip append].
    apply (int_group_pad4 y). lia. }
  rewrite Ed, Em, Ey, C. reflexivity.
Qed.

(** Before the year 1000 the text of [strftime] has a year of fewer than
    four digits, which [Birthday] does not read. *)
Lemma strftime_dmY_not_read_back (dt : Datetime.t) :
  (1 <= Datetime.year dt < 1000)%Z ->
  Birthday.init (Datetime.strftime_dmY dt)
  = Raise (ValueError "Invalid date format. Use DD.MM.YYYY").
Proof.
  intros H. rewrite Birthday_init_calendar.
  unfold D_M_YYYY, Datetime.strftime_dmY.
  rewrite cut_pad2.
  destruct (day_text _); [|reflexivity].
  rewrite cut_pad2.
  rewrite (year_text_short (str_int (Datetime.year dt)))
    by (apply str_int_short; exact H).
  rewrite andb_false_r. reflexivity.
Qed.

(** ** Record *)

Lemma find_has_value {A : Type} (value : A -> string) (v : string) (l : list A) :
  match List.find (fun x => String.eqb (value x) v) l with
  | Some x => has_value value v l = true /\ value x = v
  | None => has_value value v l = false
  end.
Proof.
  induction l as [|y l IH]; simpl; [reflexivity|].
  destruct (String.eqb (value y) v) eqn:E; simpl.
  - split; [reflexivity | apply string_eqb_eq; exact E].
  - exact IH.
Qed.

(** Removing the object that [find] returned removes the first item that
    carries the value. *)
Lemma list_remove_found {A : Type} (value : A -> string) (v : string) :
  forall (l : list A) x,
    List.find (fun y => String.eqb (value y) v) l = Some x ->
    list_remove (fun a b => String.eqb (value a) (value b)) x l
    = Ok (without_first value v l).
Proof.
  induction l as [|y l IH]; simpl; intros x F; [discriminate|].
  destruct (String.eqb (value y) v) eqn:E.
  - injection F as <-. rewrite string_eqb_refl. reflexivity.
  - assert (V : value x = v).
    { pose proof (find_has_value value v l) as K. rewrite F in K. apply K. }
    rewrite V, E, (IH x F). reflexivity.
Qed.

Lemma without_first_absent {A : Type} (value : A -> string) (v : string) :
  forall l : list A, has_value value v l = false -> without_first value v l = l.
Proof.
  induction l as [|y l IH]; simpl; intros H; [reflexivity|].
  apply orb_false_iff in H as [H1 H2]. rewrite H1, (IH H2). reflexivity.
Qed.

(** "The first": the items before the one removed do not carry the
    value, and nothing else changes. *)
Lemma without_first_split {A : Type} (value : A -> string) (v : string) :
  forall (l1 : list A) x l2,
    has_value value v l1 = false -> value x = v ->
    without_first value v (l1 ++ x :: l2) = l1 ++ l2.
Proof.
  induction l1 as [|y l1 IH]; simpl; intros x l2 H V.
  - rewrite V, string_eqb_refl. reflexivity.
  - apply orb_false_iff in H as [H1 H2]. rewrite H1, (IH x l2 H2 V). reflexivity.
Qed.

Lemma remove_phone_eq (value : string) (self : Record_.t) :
  Record_.remove_phone value self =
  (Ok tt,
   if has_value Phone.value value (Record_.phones self)
   then Record_.set_phones
          (without_first Phone.value value (Record_.phones self)) self
   else self).
Proof.
  unfold Record_.remove_phone, bind, get, Record_.find_phone.
  pose proof (find_has_value Phone.value value (Record_.phones self)) as K.
  destruct (find _ (Record_.phones self)) as [p|] eqn:F.
  - destruct K as [K _]. rewrite K.
    unfold lift, Record_.phone_is.
    rewrite (list_remove_found Phone.value value _ _ F). reflexivity.
  - rewrite K. reflexivity.
Qed.

(** C6.  [remove_phone(value)] always returns normally; it removes the
    first phone whose value is [value] - the phones before it and after it
    stay, in order -, and leaves a record without such a phone as it is, so
    that calling it twice with an absent value changes nothing either
    time. *)
Theorem remove_phone_removes_first :
  forall (self : Record_.t) (value : string),
    (forall l1 p l2,
        Record_.phones self = l1 ++ p :: l2 ->
        has_value Phone.value value l1 = false ->
        Phone.value p = value ->
        Record_.remove_phone value self
        = (Ok tt, Record_.set_phones (l1 ++ l2) self))
    /\ (has_value Phone.value value (Record_.phones self) = false ->
        Record_.remove_phone value self = (Ok tt, self)
        /\ (Record_.remove_phone value ;;; Record_.remove_phone value) self
           = (Ok tt, self)).
Proof.
  intros self value. split.
  - intros l1 p l2 E H V. rewrite remove_phone_eq, E.
    rewrite (without_first_split Phone.value value l1 p l2 H V).
    replace (has_value Phone.value value (l1 ++ p :: l2)) with true; [reflexivity|].
    unfold has_value. rewrite existsb_app. simpl.
    rewrite V, string_eqb_refl, orb_true_r. reflexivity.
  - intros H.
    assert (R : Record_.remove_phone value self = (Ok tt, self)).
    { rewrite remove_phone_eq, H. reflexivity. }
    split; [exact R|]. unfold bind. rewrite R. exact R.
Qed.

Lemma remove_phone_removes_first_witness :
  Record_.remove_phone "1234567890"
    (Record_.mk (Name.mk "John")
       [Phone.mk "0987654321"; Phone.mk "1234567890"; Phone.mk "1234567890"]
       [] None)
  = (Ok tt,
     Record_.mk (Name.mk "John")
       [Phone.mk "0987654321"; Phone.mk "1234567890"] [] None)
  /\ (Record_.remove_phone "5555555555" ;;; Record_.remove_phone "5555555555")
       (Record_.mk (Name.mk "John") [Phone.mk "0987654321"] [] None)
     = (Ok tt, Record_.mk (Name.mk "John") [Phone.mk "0987654321"] [] None).
Proof.
  split.
  - exact (proj1 (remove_phone_removes_first
                    (Record_.mk (Name.mk "John")
                       [Phone.mk "0987654321"; Phone.mk "1234567890";
                        Phone.mk "1234567890"] [] None)
                    "1234567890")
             [Phone.mk "0987654321"] (Phone.mk "1234567890")
             [Phone.mk "1234567890"] eq_refl eq_refl eq_refl).
  - exact (proj2 (proj2 (remove_phone_removes_first
                           (Record_.mk (Name.mk "John")
                              [Phone.mk "0987654321"] [] None)
                           "5555555555")
                    eq_refl)).
Defined.


(** ** The store and the dictionary *)

Lemma heap_set_length (a : addr) (r : Record_.t) :
  forall h, List.length (heap_set a r h) = List.length h.
Proof.
  revert a. induction a as [|a IH]; intros [|x h]; simpl; auto.
Qed.

Lemma nth_heap_set_same (r d : Record_.t) :
  forall a h, a < List.length h -> nth a (heap_set a r h) d = r.
Proof.
  induction a as [|a IH]; intros [|x h] H; simpl in *; try lia; auto.
  apply IH. lia.
Qed.

Lemma nth_heap_set_other (r d : Record_.t) :
  forall a b h, a <> b -> nth b (heap_set a r h) d = nth b h d.
Proof.
  induction a as [|a IH]; intros [|b] [|x h] H; simpl; auto; try congruence.
Qed.

Lemma dict_get_in {V : Type} (k : string) (v : V) :
  forall d, Dict.get k d = Some v -> In (k, v) d.
Proof.
  induction d as [|[k' v'] d IH]; simpl; intros H; [discriminate|].
  destruct (string_eqb_spec k k') as [->|N].
  - injection H as ->. left; reflexivity.
  - right; auto.
Qed.

Lemma dict_get_none {V : Type} (k : string) :
  forall d : Dict.t V, Dict.get k d = None <-> ~ In k (Dict.keys d).
Proof.
  induction d as [|[k' v'] d IH]; simpl.
  - split; auto.
  - destruct (string_eqb_spec k k') as [->|N].
    + split; [discriminate | intros H; exfalso; apply H; left; reflexivity].
    + rewrite IH. split.
      * intros H [E | E]; [congruence | auto].
      * intros H E. apply H. right; exact E.
Qed.

(** With one entry per key, the entry found is the only one for the key. *)
Lemma dict_get_split {V : Type} (k : string) (v : V) :
  forall d,
    NoDup (Dict.keys d) -> Dict.get k d = Some v ->
    exists d1 d2,
      d = d1 ++ (k, v) :: d2
      /\ ~ In k (Dict.keys d1) /\ ~ In k (Dict.keys d2).
Proof.
  induction d as [|[k' v'] d IH]; simpl; intros ND H; [discriminate|].
  inversion ND as [|? ? Hk ND']; subst.
  destruct (string_eqb_spec k k') as [->|N].
  - injection H as ->. exists [], d. simpl. auto.
  - destruct (IH ND' H) as (d1 & d2 & -> & H1 & H2).
    exists ((k', v') :: d1), d2. simpl. repeat split; auto.
    intros [E | E]; [congruence | auto].
Qed.

Lemma dict_set_absent {V : Type} (k : string) (v : V) :
  forall d, Dict.get k d = None -> Dict.set k v d = d ++ [(k, v)].
Proof.
  induction d as [|[k' v'] d IH]; simpl; intros H; [reflexivity|].
  destruct (String.eqb k k'); [discriminate|]. rewrite (IH H). reflexivity.
Qed.

Lemma dict_set_present {V : Type} (k : string) (v : V) :
  forall d, Dict.mem k d = true ->
            Dict.keys (Dict.set k v d) = Dict.keys d
            /\ Dict.get k (Dict.set k v d) = Some v.
Proof.
  unfold Dict.mem.
  induction d as [|[k' v'] d IH]; simpl; intros H; [discriminate|].
  destruct (string_eqb_spec k k') as [->|N]; simpl.
  - rewrite string_eqb_refl. auto.
  - apply string_eqb_neq in N. rewrite N.
    destruct (IH H) as [E1 E2]. rewrite E1. auto.
Qed.

Lemma dict_set_in {V : Type} (k : string) (v : V) :
  forall d k' v',
    In (k', v') (Dict.set k v d) -> (k', v') = (k, v) \/ In (k', v') d.
Proof.
  induction d as [|[k0 v0] d IH]; simpl; intros k' v' H.
  - destruct H as [H | []]. left; congruence.
  - destruct (String.eqb k k0); simpl in H.
    + destruct H as [H | H]; [left; congruence | right; right; exact H].
    + destruct H as [H | H]; [right; left; exact H|].
      destruct (IH _ _ H); auto.
Qed.

Lemma dict_set_keys_nodup {V : Type} (k : string) (v : V) :
  forall d, NoDup (Dict.keys d) -> NoDup (Dict.keys (Dict.set k v d)).
Proof.
  intros d ND.
  destruct (Dict.get k d) as [v0|] eqn:G.
  - assert (M : Dict.mem k d = true) by (unfold Dict.mem; rewrite G; reflexivity).
    destruct (dict_set_present k v d M) as [E _]. rewrite E. exact ND.
  - rewrite (dict_set_absent k v d G). unfold Dict.keys. rewrite map_app. simpl.
    apply NoDup_app.
    + exact ND.
    + constructor; [intros [] | constructor].
    + intros x Hx [<- | []]. apply dict_get_none in G. exact (G Hx).
Qed.

Lemma dict_del_in {V : Type} (k : string) :
  forall (d : Dict.t V) k' v', In (k', v') (Dict.del k d) -> In (k', v') d.
Proof.
  induction d as [|[k0 v0] d IH]; simpl; intros k' v' H; [exact H|].
  destruct (String.eqb k k0); [right; exact H|].
  destruct H as [H | H]; [left; exact H | right; apply IH; exact H].
Qed.

Lemma dict_del_keys_nodup {V : Type} (k : string) :
  forall d : Dict.t V, NoDup (Dict.keys d) -> NoDup (Dict.keys (Dict.del k d)).
Proof.
  induction d as [|[k0 v0] d IH]; simpl; intros ND; [exact ND|].
  inversion ND as [|? ? Hk ND']; subst.
  destruct (String.eqb k k0); [exact ND'|].
  simpl. constructor; [|apply IH; exact ND'].
  intros H. apply Hk. apply in_map_iff in H as ([k1 v1] & E & H). simpl in E.
  subst k1. apply in_map_iff. exists (k0, v1). split; [reflexivity|].
  apply dict_del_in with (k := k). exact H.
Qed.

(** ** The invariant of the book *)

(** No method of [Record] touches the name. *)
Lemma run_method_name (m : method) (r : Record_.t) :
  Record_.name (snd (run_method m r)) = Record_.name r.
Proof.
  destruct m; simpl;
    unfold Record_.add_phone, Record_.remove_phone, Record_.edit_phone,
      Record_.add_email, Record_.remove_email, Record_.edit_email,
      Record_.add_birthday, Record_.add_phone, Record_.add_email,
      bind, lift, get, put;
    repeat match goal with
           | |- context [match ?x with _ => _ end] => destruct x; simpl
           end;
    reflexivity.
Qed.

Lemma deref_call_same {A : Type} (a : addr) (m : M Record_.t A) (w : World) :
  a < List.length (heap w) ->
  deref (snd (call a m w)) a = snd (m (deref w a)).
Proof.
  intros H. unfold call. destruct (m (deref w a)) as [res r'] eqn:E. simpl.
  unfold deref at 1. simpl. apply nth_heap_set_same. exact H.
Qed.

Lemma deref_call_other {A : Type} (a b : addr) (m : M Record_.t A) (w : World) :
  a <> b -> deref (snd (call a m w)) b = deref w b.
Proof.
  intros H. unfold call. destruct (m (deref w a)) as [res r']. simpl.
  unfold deref. simpl. apply nth_heap_set_other. exact H.
Qed.

Lemma data_call {A : Type} (a : addr) (m : M Record_.t A) (w : World) :
  data (snd (call a m w)) = data w
  /\ List.length (heap (snd (call a m w))) = List.length (heap w).
Proof.
  unfold call. destruct (m (deref w a)) as [res r']. simpl.
  split; [reflexivity | apply heap_set_length].
Qed.

Lemma wf_empty : wf empty_world.
Proof.
  split; simpl; [constructor | intros k a []].
Qed.

Lemma wf_new_record (n : string) (w : World) : wf w -> wf (snd (new_record n w)).
Proof.
  intros [ND H]. split; simpl; [exact ND|].
  intros k a Hin. destruct (H k a Hin) as [L E].
  rewrite length_app. simpl. split; [lia|].
  unfold deref in *. simpl. rewrite app_nth1 by exact L. exact E.
Qed.

Lemma wf_call {A : Type} (a : addr) (m : M Record_.t A) (w : World) :
  (forall r, Record_.name (snd (m r)) = Record_.name r) ->
  wf w -> wf (snd (call a m w)).
Proof.
  intros Hm [ND H].
  destruct (data_call a m w) as [Ed El].
  split; [rewrite Ed; exact ND|].
  intros k b Hin. rewrite Ed in Hin. destruct (H k b Hin) as [L E].
  rewrite El. split; [exact L|].
  destruct (Nat.eq_dec a b) as [<-|N].
  - rewrite deref_call_same by exact L. rewrite Hm. exact E.
  - rewrite deref_call_other by exact N. exact E.
Qed.

Lemma wf_add_record (a : addr) (w : World) :
  a < List.length (heap w) -> wf w -> wf (snd (AddressBook.add_record a w)).
Proof.
  intros L [ND H]. split; simpl.
  - apply dict_set_keys_nodup. exact ND.
  - intros k b Hin. apply dict_set_in in Hin as [E | Hin].
    + injection E as -> ->. split; [exact L | reflexivity].
    + exact (H k b Hin).
Qed.

Lemma wf_delete (n : string) (w : World) :
  wf w -> wf (snd (AddressBook.delete n w)).
Proof.
  intros [ND H]. unfold AddressBook.delete.
  destruct (Dict.mem n (data w)); simpl; [|split; assumption].
  split; simpl.
  - apply dict_del_keys_nodup. exact ND.
  - intros k b Hin. apply dict_del_in in Hin. exact (H k b Hin).
Qed.

Lemma reachable_wf (w : World) : reachable w -> wf w.
Proof.
  induction 1.
  - exact wf_empty.
  - apply wf_new_record; assumption.
  - apply wf_call; [apply run_method_name | assumption].
  - apply wf_add_record; assumption.
  - apply wf_delete; assumption.
Qed.

(** C10.  In every book reached from the empty one - by creating records,
    calling their methods, [add_record] and [delete] - each key is the
    name of the record it leads to and no key occurs twice; [add_record]
    with a record whose name is already a key keeps the keys as they are,
    in their order, and makes that key lead to the new record. *)
Theorem keys_are_names :
  forall w : World,
    reachable w ->
    (forall k a, In (k, a) (data w) ->
                 Name.value (Record_.name (deref w a)) = k)
    /\ NoDup (Dict.keys (data w))
    /\ (forall record,
           record < List.length (heap w) ->
           Dict.mem (Name.value (Record_.name (deref w record))) (data w) = true ->
           let w' := snd (AddressBook.add_record record w) in
           Dict.keys (data w') = Dict.keys (data w)
           /\ List.length (data w') = List.length (data w)
           /\ Dict.get (Name.value (Record_.name (deref w record))) (data w')
              = Some record).
Proof.
  intros w R. destruct (reachable_wf w R) as [ND H].
  split; [intros k a Hin; apply (H k a Hin)|].
  split; [exact ND|].
  intros record L Hmem. simpl.
  destruct (dict_set_present _ record (data w) Hmem) as [E1 E2].
  split; [exact E1|]. split; [|exact E2].
  apply (f_equal (@List.length string)) in E1.
  unfold Dict.keys in E1. rewrite !length_map in E1. exact E1.
Qed.

(** Two records named Ann: the second [add_record] replaces the first. *)
Lemma keys_are_names_witness :
  let w :=
    snd (AddressBook.add_record 0
           (snd (new_record "Ann" (snd (new_record "Ann" empty_world))))) in
  data w = [("Ann", 0)]
  /\ data (snd (AddressBook.add_record 1 w)) = [("Ann", 1)]
  /\ Dict.keys (data (snd (AddressBook.add_record 1 w))) = Dict.keys (data w).
Proof.
  split; [reflexivity|]. split; [reflexivity|].
  assert (R : reachable
                (snd (AddressBook.add_record 0
                        (snd (new_record "Ann"
                                (snd (new_record "Ann" empty_world))))))).
  { apply reach_add_record; [|simpl; lia].
    apply reach_new_record. apply reach_new_record. apply reach_empty. }
  exact (proj1 (proj2 (proj2 (keys_are_names _ R)) 1
                  (le_n 2) eq_refl)).
Defined.

(** ** Handlers *)

(** C7.  From the empty book, [add John 1234567890] prints "Contact
    added.", then [add John 0987654321] prints "Contact updated." and the
    contact has both phones, the second after the first, and [phone John]
    prints the two numbers joined by a comma and a blank.  The same holds
    of the three handlers called one after the other. *)
Theorem add_twice_then_show_phone :
  forall (int : string -> result Z)
         (lower_wide : string -> char * string) (t1 t2 t3 : Datetime.t),
    let w2 :=
      mkWorld
        [Record_.mk (Name.mk "John")
           [Phone.mk "1234567890"; Phone.mk "0987654321"] [] None]
        [("John", 0)] in
    main int lower_wide [(t1, "add John 1234567890");
              (t2, "add John 0987654321");
              (t3, "phone John")]
    = (["Welcome to the assistant bot!";
        "Contact added.";
        "Contact updated.";
        "John's phones: 1234567890, 0987654321"], Running, w2)
    /\ (r1 <- add_contact ["John"; "1234567890"] ;;
        r2 <- add_contact ["John"; "0987654321"] ;;
        r3 <- show_phone ["John"] ;;
        ret [r1; r2; r3]) empty_world
       = (Ok ["Contact added."; "Contact updated.";
              "John's phones: 1234567890, 0987654321"], w2).
Proof. intros int lower_wide t1 t2 t3. split; reflexivity. Qed.

(** C5, as stated, fails: [add] without arguments does not crash, it
    reports a message. *)
Lemma add_contact_without_arguments_reports :
  crashes (add_contact [] empty_world) = false
  /\ add_contact [] empty_world
     = (Ok "not enough values to unpack (expected at least 2, got 0)", empty_world).
Proof. split; reflexivity. Qed.

(** C5, amended.  No handler checks the number of its arguments.  Called
    without arguments, the handlers that read [args[0]] ([show_phone],
    [show_email], [show_birthday]) crash with an [IndexError].  Called
    with too few arguments, the handlers that unpack [args]
    ([add_contact], [add_email], [change_phone], [change_email],
    [add_birthday]) do not crash: the unpacking raises a [ValueError],
    which the decorator turns into the message returned, "not enough
    values to unpack", and the book is unchanged. *)
Theorem too_few_arguments :
  forall (w : World) (a b : string),
    (show_phone [] w = (Raise (IndexError "list index out of range"), w)
     /\ show_email [] w = (Raise (IndexError "list index out of range"), w)
     /\ show_birthday [] w = (Raise (IndexError "list index out of range"), w))
    /\ (add_contact [] w
        = (Ok "not enough values to unpack (expected at least 2, got 0)", w)
        /\ add_contact [a] w
           = (Ok "not enough values to unpack (expected at least 2, got 1)", w))
    /\ (add_email [] w
        = (Ok "not enough values to unpack (expected at least 2, got 0)", w)
        /\ add_email [a] w
           = (Ok "not enough values to unpack (expected at least 2, got 1)", w))
    /\ (change_phone [] w
        = (Ok "not enough values to unpack (expected 3, got 0)", w)
        /\ change_phone [a] w
           = (Ok "not enough values to unpack (expected 3, got 1)", w)
        /\ change_phone [a; b] w
           = (Ok "not enough values to unpack (expected 3, got 2)", w))
    /\ (change_email [] w
        = (Ok "not enough values to unpack (expected 3, got 0)", w)
        /\ change_email [a] w
           = (Ok "not enough values to unpack (expected 3, got 1)", w)
        /\ change_email [a; b] w
           = (Ok "not enough values to unpack (expected 3, got 2)", w))
    /\ (add_birthday [] w
        = (Ok "not enough values to unpack (expected 2, got 0)", w)
        /\ add_birthday [a] w
           = (Ok "not enough values to unpack (expected 2, got 1)", w)).
Proof. intros w a b. repeat split. Qed.

(** The same at the prompt: [phone] alone ends the program, [add] alone
    prints the message and the loop goes on. *)
Lemma too_few_arguments_at_the_prompt :
  forall (int : string -> result Z)
         (lower_wide : string -> char * string) (today : Datetime.t) (w : World),
    step int lower_wide today "phone" w
    = ([], Crashed (IndexError "list index out of range"), w)
    /\ step int lower_wide today "add" w
       = (["not enough values to unpack (expected at least 2, got 0)"],
          Running, w).
Proof. intros int lower_wide today w. split; reflexivity. Qed.

(** ** The state after [add] *)

Lemma add_contact_state (name phone : string) (rest : list string) (w : World) :
  snd (add_contact (name :: phone :: rest) w) =
  match Dict.get name (data w) with
  | Some a =>
      if is_empty phone then w
      else snd (call a (Record_.add_phone phone) w)
  | None =>
      let w1 :=
        snd (AddressBook.add_record (List.length (heap w))
               (snd (new_record name w))) in
      if is_empty phone then w1
      else snd (call (List.length (heap w)) (Record_.add_phone phone) w1)
  end.
Proof.
  unfold add_contact, input_error, add_contact_func.
  unfold bind at 1. unfold AddressBook.find at 1.
  destruct (Dict.get name (data w)) as [a|].
  - unfold bind, ret, when.
    destruct (is_empty phone); simpl; [reflexivity|].
    destruct (call a (Record_.add_phone phone) w) as [[u|[]] w']; reflexivity.
  - unfold bind at 1. unfold bind at 1. unfold new_record at 1.
    unfold bind at 1. unfold AddressBook.add_record at 1.
    unfold ret at 1. unfold bind at 1. unfold when.
    destruct (is_empty phone); simpl; [reflexivity|].
    match goal with
    | |- context [call ?a ?m ?w1] => destruct (call a m w1) as [[u|[]] w']
    end; reflexivity.
Qed.

Lemma add_phone_name (phone : string) (r : Record_.t) :
  Record_.name (snd (Record_.add_phone phone r)) = Record_.name r.
Proof. exact (run_method_name (call_add_phone phone) r). Qed.

Lemma dict_get_set_same {V : Type} (k : string) (v : V) :
  forall d, Dict.get k (Dict.set k v d) = Some v.
Proof.
  induction d as [|[k' v'] d IH]; simpl.
  - rewrite string_eqb_refl. reflexivity.
  - destruct (String.eqb k k') eqn:E; simpl.
    + rewrite string_eqb_refl. reflexivity.
    + rewrite E. exact IH.
Qed.

Lemma ten_digits_not_empty (v : string) : ten_digits v = true -> is_empty v = false.
Proof.
  destruct v; [discriminate | reflexivity].
Qed.

(** After [add], the book is well formed, the name is a key, and a valid
    phone is among the phones of the record. *)
Lemma add_contact_entry (name phone : string) (rest : list string) (w : World) :
  wf w ->
  let w' := snd (add_contact (name :: phone :: rest) w) in
  wf w'
  /\ exists a,
      Dict.get name (data w') = Some a
      /\ (ten_digits phone = true ->
          In phone (map Phone.value (Record_.phones (deref w' a)))).
Proof.
  intros W. cbv zeta. rewrite add_contact_state.
  assert (P : forall a w1,
             wf w1 -> Dict.get name (data w1) = Some a ->
             let w' := if is_empty phone then w1
                       else snd (call a (Record_.add_phone phone) w1) in
             wf w'
             /\ exists a0,
                 Dict.get name (data w') = Some a0
                 /\ (ten_digits phone = true ->
                     In phone (map Phone.value (Record_.phones (deref w' a0))))).
  { intros a w1 W1 G. cbv zeta.
    destruct (is_empty phone) eqn:E.
    - split; [exact W1|]. exists a. split; [exact G|].
      intros T. rewrite (ten_digits_not_empty _ T) in E. discriminate.
    - split; [apply wf_call; [apply add_phone_name | exact W1]|].
      exists a. destruct (data_call a (Record_.add_phone phone) w1) as [Ed El].
      split; [rewrite Ed; exact G|].
      intros T. destruct W1 as [_ H1].
      destruct (H1 name a (dict_get_in _ _ _ G)) as [L _].
      rewrite deref_call_same by exact L.
      unfold Record_.add_phone, bind, lift, get, put.
      rewrite Phone_init_spec, T. simpl.
      rewrite map_app. apply in_or_app. right. left. reflexivity. }
  destruct (Dict.get name (data w)) as [a|] eqn:G.
  - apply P; assumption.
  - cbv zeta. apply P.
    + apply wf_add_record; [|apply wf_new_record; exact W].
      simpl. rewrite length_app. simpl. lia.
    + simpl. unfold deref. simpl. rewrite nth_middle. simpl.
      apply dict_get_set_same.
Qed.

(** ** Every state at the prompt is well formed *)

Lemma snd_input_error (func : list string -> M World string) args w :
  snd (input_error func args w) = snd (func args w).
Proof.
  unfold input_error. destruct (func args w) as [[text|[]] w']; reflexivity.
Qed.

Lemma state_of_find_call (name : string) (m : M Record_.t unit)
  (s1 s2 : string) (w : World) :
  snd ((found <- AddressBook.find name ;;
        match found with
        | Some record => call record m ;;; ret s1
        | None => ret s2
        end) w)
  = match Dict.get name (data w) with
    | Some a => snd (call a m w)
    | None => w
    end.
Proof.
  unfold bind at 1. unfold AddressBook.find.
  destruct (Dict.get name (data w)) as [a|]; [|reflexivity].
  unfold bind, ret. destruct (call a m w) as [[u|e] w']; reflexivity.
Qed.

Lemma wf_find_call (name : string) (m : method) (s1 s2 : string) (w : World) :
  wf w ->
  wf (snd ((found <- AddressBook.find name ;;
            match found with
            | Some record => call record (run_method m) ;;; ret s1
            | None => ret s2
            end) w)).
Proof.
  intros W. rewrite state_of_find_call.
  destruct (Dict.get name (data w)) as [a|]; [|exact W].
  apply wf_call; [apply run_method_name | exact W].
Qed.

Lemma state_of_find_read (name : string) (k : addr -> M World string)
  (s2 : string) (w : World) :
  (forall a w0, snd (k a w0) = w0) ->
  snd ((found <- AddressBook.find name ;;
        match found with
        | Some record => k record
        | None => ret s2
        end) w) = w.
Proof.
  intros K. unfold bind at 1. unfold AddressBook.find.
  destruct (Dict.get name (data w)) as [a|]; [apply K | reflexivity].
Qed.

Lemma wf_add_contact args w : wf w -> wf (snd (add_contact args w)).
Proof.
  intros W. destruct args as [|name [|phone rest]];
    try (unfold add_contact; rewrite snd_input_error; exact W).
  apply (add_contact_entry name phone rest w W).
Qed.

Lemma wf_change_phone args w : wf w -> wf (snd (change_phone args w)).
Proof.
  intros W. unfold change_phone. rewrite snd_input_error.
  destruct args as [|name [|o [|n [|x rest]]]]; try exact W.
  apply (wf_find_call name (call_edit_phone o n)). exact W.
Qed.

Lemma wf_change_email args w : wf w -> wf (snd (change_email args w)).
Proof.
  intros W. unfold change_email. rewrite snd_input_error.
  destruct args as [|name [|o [|n [|x rest]]]]; try exact W.
  apply (wf_find_call name (call_edit_email o n)). exact W.
Qed.

Lemma wf_add_email args w : wf w -> wf (snd (add_email args w)).
Proof.
  intros W. unfold add_email. rewrite snd_input_error.
  destruct args as [|name [|email rest]]; try exact W.
  apply (wf_find_call name (call_add_email email)). exact W.
Qed.

Lemma wf_add_birthday args w : wf w -> wf (snd (add_birthday args w)).
Proof.
  intros W. unfold add_birthday. rewrite snd_input_error.
  destruct args as [|name [|b [|x rest]]]; try exact W.
  apply (wf_find_call name (call_add_birthday b)). exact W.
Qed.

Lemma state_show_phone args w : snd (show_phone args w) = w.
Proof.
  unfold show_phone. rewrite snd_input_error.
  destruct args as [|name rest]; [reflexivity|].
  apply state_of_find_read. reflexivity.
Qed.

Lemma state_show_email args w : snd (show_email args w) = w.
Proof.
  unfold show_email. rewrite snd_input_error.
  destruct args as [|name rest]; [reflexivity|].
  apply state_of_find_read. reflexivity.
Qed.

Lemma state_show_birthday args w : snd (show_birthday args w) = w.
Proof.
  unfold show_birthday. rewrite snd_input_error.
  destruct args as [|name rest]; [reflexivity|].
  apply state_of_find_read. intros a w0. unfold bind, get.
  destruct (Record_.birthday (deref w0 a)); reflexivity.
Qed.

Lemma state_list_contacts args w : snd (list_contacts args w) = w.
Proof.
  unfold list_contacts. rewrite snd_input_error.
  unfold list_contacts_func, bind, get. destruct (data w); reflexivity.
Qed.

(** The query reads the book and leaves it as it is, also when it
    raises. *)
Lemma state_upcoming_loop today days :
  forall values upcoming w,
    snd (AddressBook.upcoming_loop today days values upcoming w) = w.
Proof.
  induction values as [|r values IH]; intros upcoming w; [reflexivity|].
  simpl. unfold bind at 1. unfold get.
  destruct (Record_.birthday (deref w r)) as [b|]; [|apply IH].
  unfold bind at 1. unfold lift at 1.
  destruct (Datetime.replace_year _ _) as [next|e]; [|reflexivity].
  destruct (Datetime.le today next); [|apply IH].
  unfold bind at 1. unfold lift at 1.
  destruct (Datetime.timedelta_days days) as [delta|e]; [|reflexivity].
  unfold bind at 1. unfold lift at 1.
  destruct (Datetime.add_days today delta) as [limit|e]; [|reflexivity].
  destruct (Datetime.le next limit); apply IH.
Qed.

Lemma state_get_upcoming_birthdays today days w :
  snd (AddressBook.get_upcoming_birthdays today days w) = w.
Proof.
  unfold AddressBook.get_upcoming_birthdays, bind, get.
  apply state_upcoming_loop.
Qed.

Lemma state_birthday_lines :
  forall l w, snd (mapM birthday_line l w) = w.
Proof.
  induction l as [|a l IH]; intros w; [reflexivity|].
  simpl. unfold bind at 1. unfold birthday_line at 1. unfold bind at 1, get at 1.
  destruct (Record_.birthday (deref w a)); [|reflexivity].
  unfold ret at 1. unfold bind at 1.
  specialize (IH w). destruct (mapM birthday_line l w) as [[bs|e] w'];
    simpl in IH; subst w'; reflexivity.
Qed.

Lemma state_birthdays int today args w : snd (birthdays int today args w) = w.
Proof.
  unfold birthdays. rewrite snd_input_error. unfold birthdays_func.
  unfold bind at 1.
  assert (D : forall k : Z -> M World string,
             (forall d, snd (k d w) = w) ->
             snd (match (match args with
                         | [] => ret 7%Z
                         | a :: _ => lift (int a)
                         end) w with
                  | (Ok a, s') => k a s'
                  | (Raise e, s') => (Raise e, s')
                  end) = w).
  { intros k K. destruct args as [|a rest]; [apply K|].
    unfold lift. destruct (int a); [apply K | reflexivity]. }
  apply D. intros d. unfold bind at 1.
  pose proof (state_get_upcoming_birthdays today d w) as U.
  destruct (AddressBook.get_upcoming_birthdays today d w) as [[l|e] w'];
    simpl in U; subst w'; [|reflexivity].
  destruct l as [|a l]; [reflexivity|].
  unfold bind.
  pose proof (state_birthday_lines (a :: l) w) as L.
  destruct (mapM birthday_line (a :: l) w) as [[ls|e] w'];
    simpl in L; subst w'; reflexivity.
Qed.

Lemma snd_print_result (m : M World string) (w : World) :
  snd (print_result m w) = snd (m w).
Proof.
  unfold print_result. destruct (m w) as [[text|e] w']; reflexivity.
Qed.

Lemma wf_step int lower_wide today user_input w :
  wf w -> wf (snd (step int lower_wide today user_input w)).
Proof.
  intros W. unfold step.
  destruct (is_empty (strip user_input)); [exact W|].
  destruct (parse_input lower_wide user_input) as [[command args]|e]; [|exact W].
  repeat match goal with
         | |- context [if ?b then _ else _] => destruct b
         end;
    try exact W; rewrite snd_print_result;
    first [ apply wf_add_contact; exact W
          | apply wf_change_phone; exact W
          | apply wf_change_email; exact W
          | apply wf_add_email; exact W
          | apply wf_add_birthday; exact W
          | rewrite state_show_phone; exact W
          | rewrite state_show_email; exact W
          | rewrite state_show_birthday; exact W
          | rewrite state_list_contacts; exact W
          | rewrite state_birthdays; exact W ].
Qed.

Lemma wf_main_loop int lower_wide :
  forall inputs w, wf w -> wf (snd (main_loop int lower_wide inputs w)).
Proof.
  induction inputs as [|[today line] inputs IH]; intros w W; [exact W|].
  simpl. pose proof (wf_step int lower_wide today line w W) as S.
  destruct (step int lower_wide today line w) as [[out st] w1]. simpl in S.
  destruct st; try exact S.
  specialize (IH w1 S).
  destruct (main_loop int lower_wide inputs w1) as [[out' st'] w2]. exact IH.
Qed.

(** Whatever is typed, the book of the program stays well formed. *)
Lemma wf_main int lower_wide inputs : wf (snd (main int lower_wide inputs)).
Proof.
  unfold main. pose proof (wf_main_loop int lower_wide inputs empty_world wf_empty) as W.
  destruct (main_loop int lower_wide inputs empty_world) as [[out st] w]. exact W.
Qed.

(** ** Upcoming birthdays *)

Lemma cmp_tuple_refl_prefix (x : Z) (a b : list Z) :
  Datetime.cmp_tuple (x :: a) (x :: b) = Datetime.cmp_tuple a b.
Proof. simpl. rewrite Z.compare_refl. reflexivity. Qed.

(** Once the clock is past midnight, a birthday that falls today is
    before [today]: the test [today <= next_birthday] fails. *)
Lemma today_after_midnight (today next_birthday : Datetime.t) :
  Datetime.year next_birthday = Datetime.year today ->
  Datetime.month next_birthday = Datetime.month today ->
  Datetime.day next_birthday = Datetime.day today ->
  Datetime.hour next_birthday = 0%Z ->
  Datetime.minute next_birthday = 0%Z ->
  Datetime.second next_birthday = 0%Z ->
  Datetime.microsecond next_birthday = 0%Z ->
  (0 <= Datetime.hour today)%Z -> (0 <= Datetime.minute today)%Z ->
  (0 <= Datetime.second today)%Z -> (0 <= Datetime.microsecond today)%Z ->
  (0 < Datetime.hour today + Datetime.minute today + Datetime.second today
       + Datetime.microsecond today)%Z ->
  Datetime.le today next_birthday = false.
Proof.
  intros Ey Em Ed Eh Emi Es Eus Hh Hmi Hs Hus Hpos.
  unfold Datetime.le, Datetime.cmp, Datetime.fields.
  rewrite Ey, Em, Ed, Eh, Emi, Es, Eus.
  rewrite !cmp_tuple_refl_prefix. simpl.
  destruct (Z.compare_spec (Datetime.hour today) 0); try reflexivity; try lia.
  destruct (Z.compare_spec (Datetime.minute today) 0); try reflexivity; try lia.
  destruct (Z.compare_spec (Datetime.second today) 0); try reflexivity; try lia.
  destruct (Z.compare_spec (Datetime.microsecond today) 0); try reflexivity; lia.
Qed.

Lemma upcoming_loop_filter today days w :
  forall values upcoming l w',
    AddressBook.upcoming_loop today days values upcoming w = (Ok l, w') ->
    l = upcoming ++ filter (in_window w today days) values.
Proof.
  induction values as [|r values IH]; intros upcoming l w' H.
  - simpl in H. injection H as <- _. rewrite app_nil_r. reflexivity.
  - simpl in H. unfold bind at 1 in H. unfold get in H.
    simpl. unfold in_window at 1.
    destruct (Record_.birthday (deref w r)) as [b|]; [|apply (IH _ _ _ H)].
    unfold bind at 1 in H. unfold lift at 1 in H.
    destruct (Datetime.replace_year _ _) as [next|e]; [|discriminate H].
    destruct (Datetime.le today next).
    + unfold bind at 1 in H. unfold lift at 1 in H.
      destruct (Datetime.timedelta_days days) as [delta|e]; [|discriminate H].
      unfold bind at 1 in H. unfold lift at 1 in H.
      destruct (Datetime.add_days today delta) as [limit|e]; [|discriminate H].
      destruct (Datetime.le next limit); simpl.
      * rewrite (IH _ _ _ H), <- app_assoc. reflexivity.
      * apply (IH _ _ _ H).
    + assert (F : match Datetime.timedelta_days days with
                  | Ok delta =>
                      match Datetime.add_days today delta with
                      | Ok limit => false && Datetime.le next limit
                      | Raise _ => false
                      end
                  | Raise _ => false
                  end = false).
      { destruct (Datetime.timedelta_days days) as [delta|e]; [|reflexivity].
        destruct (Datetime.add_days today delta); reflexivity. }
      rewrite F. apply (IH _ _ _ H).
Qed.

(** When the query returns, it returns the records that pass the test,
    in the order of the book. *)
Lemma get_upcoming_birthdays_filter today days w l w' :
  AddressBook.get_upcoming_birthdays today days w = (Ok l, w') ->
  l = filter (in_window w today days) (Dict.values (data w)).
Proof.
  unfold AddressBook.get_upcoming_birthdays, bind, get. intros H.
  apply (upcoming_loop_filter today days w _ [] l w' H).
Qed.

Lemma replace_year_fields (dt next : Datetime.t) (y : Z) :
  Datetime.replace_year dt y = Ok next ->
  next = Datetime.mk y (Datetime.month dt) (Datetime.day dt) (Datetime.hour dt)
           (Datetime.minute dt) (Datetime.second dt) (Datetime.microsecond dt).
Proof.
  unfold Datetime.replace_year, Datetime.new. intros H.
  repeat match type of H with
         | (if ?b then _ else _) = _ => destruct b; [discriminate H|]
         end.
  injection H as <-. reflexivity.
Qed.

(** The departure from C1 is systematic: at any time after midnight, a
    record whose birthday falls today is not returned, whatever the
    window. *)
Lemma birthday_today_never_returned today days w l w' record b :
  (0 <= Datetime.hour today)%Z -> (0 <= Datetime.minute today)%Z ->
  (0 <= Datetime.second today)%Z -> (0 <= Datetime.microsecond today)%Z ->
  (0 < Datetime.hour today + Datetime.minute today + Datetime.second today
       + Datetime.microsecond today)%Z ->
  Record_.birthday (deref w record) = Some b ->
  Datetime.month (Birthday.value b) = Datetime.month today ->
  Datetime.day (Birthday.value b) = Datetime.day today ->
  Datetime.hour (Birthday.value b) = 0%Z ->
  Datetime.minute (Birthday.value b) = 0%Z ->
  Datetime.second (Birthday.value b) = 0%Z ->
  Datetime.microsecond (Birthday.value b) = 0%Z ->
  AddressBook.get_upcoming_birthdays today days w = (Ok l, w') ->
  ~ In record l.
Proof.
  intros Hh Hmi Hs Hus Hpos Hb Em Ed Eh Emi Es Eus H Hin.
  rewrite (get_upcoming_birthdays_filter today days w l w' H) in Hin.
  apply filter_In in Hin as [_ T].
  unfold in_window in T. rewrite Hb in T.
  destruct (Datetime.replace_year _ _) as [next|e] eqn:R; [|discriminate T].
  apply replace_year_fields in R.
  assert (L : Datetime.le today next = false).
  { apply today_after_midnight; subst next; simpl; auto. }
  rewrite L in T.
  destruct (Datetime.timedelta_days days); [|discriminate T].
  destruct (Datetime.add_days today _); discriminate T.
Qed.

(** C1, on the input where the code departs from it.  John's birthday is
    3 November; on 3 November 2026 at noon, with a window of 7 days, the
    birthday of this year falls on the first day of the window
    (the days from 3 to 10 November), yet [get_upcoming_birthdays]
    returns no record; it returns John only on the stroke of midnight.
    The book is the one that [add] and [add-birthday] leave at the
    prompt. *)
Theorem birthday_today_is_left_out :
  let w :=
    mkWorld
      [Record_.mk (Name.mk "John") [Phone.mk "1234567890"] []
         (Some (Birthday.mk (Datetime.mk 1990 11 3 0 0 0 0)))]
      [("John", 0)] in
  let noon := Datetime.mk 2026 11 3 12 0 0 0 in
  let midnight := Datetime.mk 2026 11 3 0 0 0 0 in
  (forall (int : string -> result Z)
         (lower_wide : string -> char * string) (t1 t2 : Datetime.t),
      main int lower_wide [(t1, "add John 1234567890");
                (t2, "add-birthday John 03.11.1990")]
      = (["Welcome to the assistant bot!"; "Contact added.";
          "Birthday added for contact John."], Running, w))
  /\ Datetime.replace_year (Datetime.mk 1990 11 3 0 0 0 0) (Datetime.year noon)
     = Ok (Datetime.mk 2026 11 3 0 0 0 0)
  /\ (Datetime.toordinal noon <=? Datetime.toordinal (Datetime.mk 2026 11 3 0 0 0 0))%Z
     && (Datetime.toordinal (Datetime.mk 2026 11 3 0 0 0 0)
         <=? Datetime.toordinal noon + 7)%Z = true
  /\ AddressBook.get_upcoming_birthdays noon 7 w = (Ok [], w)
  /\ AddressBook.get_upcoming_birthdays midnight 7 w = (Ok [0], w).
Proof. repeat split. Qed.

(** 29 February does not exist in a year that is not a leap year. *)
Lemma replace_year_feb29 (dt : Datetime.t) (y : Z) :
  Datetime.month dt = 2%Z -> Datetime.day dt = 29%Z ->
  Datetime._is_leap y = false ->
  exists msg, Datetime.replace_year dt y = Raise (ValueError msg).
Proof.
  intros Hm Hd Hy. unfold Datetime.replace_year, Datetime.new.
  rewrite Hm, Hd.
  destruct (negb (Datetime.in_range Datetime.MINYEAR y Datetime.MAXYEAR));
    [eauto|].
  unfold Datetime._days_in_month. rewrite Hy. simpl. eauto.
Qed.

Lemma upcoming_loop_feb29 (today : Datetime.t) (days : Z) (w : World)
  (record : addr) (b : Birthday.t) :
  Record_.birthday (deref w record) = Some b ->
  Datetime.month (Birthday.value b) = 2%Z ->
  Datetime.day (Birthday.value b) = 29%Z ->
  Datetime._is_leap (Datetime.year today) = false ->
  forall values upcoming,
    In record values ->
    exists e, AddressBook.upcoming_loop today days values upcoming w = (Raise e, w).
Proof.
  intros Hb Hm Hd Hy.
  induction values as [|r values IH]; intros upcoming Hin; [contradiction|].
  simpl. unfold bind at 1. unfold get.
  destruct Hin as [-> | Hin].
  - rewrite Hb.
    destruct (replace_year_feb29 (Birthday.value b) (Datetime.year today) Hm Hd Hy)
      as [msg E].
    unfold bind, lift. rewrite E. eauto.
  - destruct (Record_.birthday (deref w r)) as [b'|]; [|apply IH; exact Hin].
    unfold bind at 1. unfold lift at 1.
    destruct (Datetime.replace_year _ _) as [next|e]; [|eauto].
    destruct (Datetime.le today next); [|apply IH; exact Hin].
    unfold bind at 1. unfold lift at 1.
    destruct (Datetime.timedelta_days days) as [delta|e]; [|eauto].
    unfold bind at 1. unfold lift at 1.
    destruct (Datetime.add_days today delta) as [limit|e]; [|eauto].
    destruct (Datetime.le next limit); apply IH; exact Hin.
Qed.

(** C9.  When the book holds a record whose birthday is 29 February and
    the current year is not a leap year, [get_upcoming_birthdays] raises
    instead of returning a list, whatever the window and the other
    records. *)
Theorem get_upcoming_birthdays_feb29_raises :
  forall (w : World) (today : Datetime.t) (days : Z) (record : addr)
         (b : Birthday.t),
    In record (Dict.values (data w)) ->
    Record_.birthday (deref w record) = Some b ->
    Datetime.month (Birthday.value b) = 2%Z ->
    Datetime.day (Birthday.value b) = 29%Z ->
    Datetime._is_leap (Datetime.year today) = false ->
    exists e, AddressBook.get_upcoming_birthdays today days w = (Raise e, w).
Proof.
  intros w today days record b Hin Hb Hm Hd Hy.
  unfold AddressBook.get_upcoming_birthdays, bind, get.
  eapply upcoming_loop_feb29; eauto.
Qed.

(** Such a book is reached at the prompt, and there the query raises. *)
Lemma get_upcoming_birthdays_feb29_raises_witness :
  let w :=
    mkWorld
      [Record_.mk (Name.mk "Ann") [Phone.mk "1234567890"] []
         (Some (Birthday.mk (Datetime.mk 2020 2 29 0 0 0 0)))]
      [("Ann", 0)] in
  (forall (int : string -> result Z)
         (lower_wide : string -> char * string) (t1 t2 : Datetime.t),
      main int lower_wide [(t1, "add Ann 1234567890");
                (t2, "add-birthday Ann 29.02.2020")]
      = (["Welcome to the assistant bot!"; "Contact added.";
          "Birthday added for contact Ann."], Running, w))
  /\ exists e,
      AddressBook.get_upcoming_birthdays (Datetime.mk 2026 11 3 12 0 0 0) 7 w
      = (Raise e, w).
Proof.
  split.
  - intros int lower_wide t1 t2. reflexivity.
  - exact (get_upcoming_birthdays_feb29_raises
             (mkWorld
                [Record_.mk (Name.mk "Ann") [Phone.mk "1234567890"] []
                   (Some (Birthday.mk (Datetime.mk 2020 2 29 0 0 0 0)))]
                [("Ann", 0)])
             (Datetime.mk 2026 11 3 12 0 0 0) 7 0
             (Birthday.mk (Datetime.mk 2020 2 29 0 0 0 0))
             (or_introl eq_refl) eq_refl eq_refl eq_refl eq_refl).
Defined.

(** At the prompt the decorator turns that [ValueError] into the line
    printed. *)
Lemma birthdays_feb29_at_the_prompt :
  forall (int : string -> result Z)
         (lower_wide : string -> char * string),
    step int lower_wide (Datetime.mk 2026 11 3 12 0 0 0) "birthdays"
      (mkWorld
         [Record_.mk (Name.mk "Ann") [Phone.mk "1234567890"] []
            (Some (Birthday.mk (Datetime.mk 2020 2 29 0 0 0 0)))]
         [("Ann", 0)])
    = (["day is out of range for month"], Running,
       mkWorld
         [Record_.mk (Name.mk "Ann") [Phone.mk "1234567890"] []
            (Some (Birthday.mk (Datetime.mk 2020 2 29 0 0 0 0)))]
         [("Ann", 0)]).
Proof. intros int lower_wide. reflexivity. Qed.

(** ** The model of [datetime] on some dates *)

Example toordinal_2026_11_03 :
  Datetime.toordinal (Datetime.mk 2026 11 3 12 0 0 0) = 739923%Z.
Proof. reflexivity. Qed.

Example add_days_to_the_last_day :
  Datetime.add_days (Datetime.mk 2026 11 3 12 0 0 0) 2912136
  = Ok (Datetime.mk 9999 12 31 12 0 0 0)
  /\ Datetime.add_days (Datetime.mk 2026 11 3 12 0 0 0) 2912137
     = Raise (OverflowError "date value out of range").
Proof. split; reflexivity. Qed.

Example add_days_to_the_first_day :
  Datetime.add_days (Datetime.mk 2026 11 3 12 0 0 0) (-739922)
  = Ok (Datetime.mk 1 1 1 12 0 0 0)
  /\ Datetime.add_days (Datetime.mk 2026 11 3 12 0 0 0) (-739923)
     = Raise (OverflowError "date value out of range").
Proof. split; reflexivity. Qed.

Example add_days_over_a_leap_day :
  Datetime.add_days (Datetime.mk 2024 2 28 0 0 0 0) 2
  = Ok (Datetime.mk 2024 3 1 0 0 0 0).
Proof. reflexivity. Qed.

Example timedelta_days_too_large :
  Datetime.timedelta_days (-1000000000)
  = Raise (OverflowError "days=-1000000000; must have magnitude <= 999999999").
Proof. reflexivity. Qed.

Example strptime_examples :
  Datetime.strptime_dmY "31.04.2021" = Raise (ValueError "day is out of range for month")
  /\ Datetime.strptime_dmY "01.01.0000" = Raise (ValueError "year 0 is out of range")
  /\ Datetime.strptime_dmY "1.2.20201" = Raise (ValueError "unconverted data remains: 1")
  /\ Datetime.strptime_dmY " 1.2.2020" = Ok (Datetime.mk 2020 2 1 0 0 0 0)
  /\ Datetime.strptime_dmY "10.1.2020" = Ok (Datetime.mk 2020 1 10 0 0 0 0).
Proof. repeat split. Qed.

Example phone_examples :
  Phone.init "1234567890" = Ok (Phone.mk "1234567890")
  /\ Phone._validate "123456789" = false
  /\ Phone._validate "12345678901" = false
  /\ Phone._validate "12345 7890" = false.
Proof. repeat split. Qed.

Example email_examples :
  Email._validate "john.doe@example.org" = true
  /\ Email._validate "a@b@c.d" = false
  /\ Email._validate "john@example" = false
  /\ Email._validate "@example.org" = false.
Proof. repeat split. Qed.

Example parse_input_example :
  forall lower_wide : string -> char * string,
    parse_input lower_wide "  ADD   John 1234567890 "
    = Ok ("add", ["John"; "1234567890"]).
Proof. reflexivity. Qed.

Example prompt_examples :
  forall (int : string -> result Z)
         (lower_wide : string -> char * string) (t : Datetime.t),
    main int lower_wide [(t, "hello"); (t, "   "); (t, "email John j@x.org");
              (t, "phone Ghost"); (t, "birthdays"); (t, "EXIT"); (t, "hello")]
    = (["Welcome to the assistant bot!";
        "How can I help you?";
        "No command entered. Please enter a command.";
        "Invalid command.";
        "Contact Ghost not found.";
        "No upcoming birthdays within the next week.";
        "Good bye!"], Exited, empty_world).
Proof. intros. reflexivity. Qed.

(** ** Email *)

Lemma lang_star_class (p : char -> bool) (s : string) :
  Re.lang (Re.Star (Re.Class p)) s <-> string_forall p s = true.
Proof.
  split.
  - intros H. remember (Re.Star (Re.Class p)) as r eqn:E.
    induction H; try discriminate E; [reflexivity|].
    injection E as ->. inversion H; subst. simpl.
    match goal with K : p _ = true |- _ => rewrite K end.
    rewrite IHlang2 by reflexivity. reflexivity.
  - induction s as [|c s IH]; simpl; intros H.
    + constructor.
    + apply andb_true_iff in H as [H1 H2].
      change (String c s) with (String c EmptyString ++ s)%string.
      constructor; [constructor; exact H1 | apply IH; exact H2].
Qed.

Lemma lang_plus_class (p : char -> bool) (s : string) :
  Re.lang (Re.Plus (Re.Class p)) s
  <-> is_empty s = false /\ string_forall p s = true.
Proof.
  unfold Re.Plus. split.
  - intros H. inversion H; subst.
    match goal with K : Re.lang (Re.Class p) _ |- _ => inversion K; subst end.
    match goal with K : Re.lang (Re.Star _) _ |- _ =>
      apply lang_star_class in K; simpl; rewrite K end.
    match goal with K : p _ = true |- _ => rewrite K end. auto.
  - intros [H1 H2]. destruct s as [|c s]; [discriminate H1|].
    simpl in H2. apply andb_true_iff in H2 as [H2 H3].
    change (String c s) with (String c EmptyString ++ s)%string.
    constructor; [constructor; exact H2 | apply lang_star_class; exact H3].
Qed.

Lemma email_part_lang (s : string) :
  Re.lang (Re.Plus (Re.NotChr "@")) s <-> email_part s = true.
Proof.
  unfold Re.NotChr. rewrite lang_plus_class. unfold email_part, no_at.
  rewrite andb_true_iff, negb_true_iff. reflexivity.
Qed.

Lemma lang_chr (c : char) (s : string) :
  Re.lang (Re.Chr c) s <-> s = String c EmptyString.
Proof.
  unfold Re.Chr. split.
  - intros H. inversion H; subst.
    match goal with K : Char.eqb _ _ = true |- _ => apply char_eqb_eq in K end.
    subst. reflexivity.
  - intros ->. constructor. apply char_eqb_refl.
Qed.

Lemma Email_validate_shape (value : string) :
  Email._validate value = true
  <-> exists local domain tld,
      value = (local ++ "@" ++ domain ++ "." ++ tld)%string
      /\ email_part local = true /\ email_part domain = true
      /\ email_part tld = true.
Proof.
  unfold Email._validate, Email.pattern. rewrite fullmatch_lang. split.
  - intros H.
    inversion H as [| |r1 r2 a s2 Ha H2| | | |]; subst.
    inversion H2 as [| |r1 r2 at_ s3 Hat H3| | | |]; subst.
    inversion H3 as [| |r1 r2 b s4 Hb H4| | | |]; subst.
    inversion H4 as [| |r1 r2 dot c Hdot Hc| | | |]; subst.
    apply lang_chr in Hat, Hdot. subst.
    exists a, b, c. repeat split; try (apply email_part_lang; assumption).
  - intros (a & b & c & -> & Ha & Hb & Hc).
    constructor; [apply email_part_lang; exact Ha|].
    change ("@" ++ b ++ "." ++ c)%string
      with (String "@" EmptyString ++ (b ++ String "." EmptyString ++ c))%string.
    constructor; [apply lang_chr; reflexivity|].
    constructor; [apply email_part_lang; exact Hb|].
    constructor; [apply lang_chr; reflexivity | apply email_part_lang; exact Hc].
Qed.

(** X1.  [Email(value)] succeeds exactly when [value] is a non-empty text
    without [@], an [@], a non-empty text without [@], a dot and a
    non-empty text without [@] (so exactly one [@], and a dot after it
    that is neither next to it nor last); every other string raises the
    [ValueError] "Invalid email format.". *)
Theorem Email_init_shape :
  forall value : string,
    (Email.init value = Ok (Email.mk value)
     <-> exists local domain tld,
         value = (local ++ "@" ++ domain ++ "." ++ tld)%string
         /\ email_part local = true /\ email_part domain = true
         /\ email_part tld = true)
    /\ (Email.init value = Ok (Email.mk value)
        \/ Email.init value = Raise (ValueError "Invalid email format.")).
Proof.
  intros value. rewrite <- Email_validate_shape. unfold Email.init.
  destruct (Email._validate value); split; auto; split; auto; discriminate.
Qed.

Lemma Email_init_shape_witness :
  Email.init "john.doe@mail.example.org"
  = Ok (Email.mk "john.doe@mail.example.org").
Proof.
  apply (proj2 (proj1 (Email_init_shape "john.doe@mail.example.org"))).
  exists "john.doe", "mail.example", "org". repeat split.
Defined.

(** ** More on the methods of Record *)

Lemma add_phone_eq (phone : string) (self : Record_.t) :
  Record_.add_phone phone self =
  if ten_digits phone
  then (Ok tt, Record_.set_phones (Record_.phones self ++ [Phone.mk phone]) self)
  else (Raise (ValueError "Invalid phone number format. It should be 10 digits."),
        self).
Proof.
  unfold Record_.add_phone, bind, lift, get, put. rewrite Phone_init_spec.
  destruct (ten_digits phone); reflexivity.
Qed.

Lemma remove_phone_state (value : string) (self : Record_.t) :
  Record_.remove_phone value self =
  (Ok tt,
   if has_value Phone.value value (Record_.phones self)
   then Record_.set_phones
          (without_first Phone.value value (Record_.phones self)) self
   else self).
Proof. exact (remove_phone_eq value self). Qed.

Lemma has_value_app {A : Type} (value : A -> string) (v : string) (l1 l2 : list A) :
  has_value value v (l1 ++ l2) = has_value value v l1 || has_value value v l2.
Proof. unfold has_value. apply existsb_app. Qed.

Lemma has_value_last {A : Type} (value : A -> string) (l : list A) (x : A) :
  has_value value (value x) (l ++ [x]) = true.
Proof.
  rewrite has_value_app. simpl. rewrite string_eqb_refl, !orb_true_r. reflexivity.
Qed.

Lemma without_first_last {A : Type} (value : A -> string) (v : string) :
  forall (l : list A) (x : A),
    has_value value v l = false -> value x = v ->
    without_first value v (l ++ [x]) = l.
Proof.
  intros l x H V.
  rewrite (without_first_split value v l x [] H V). apply app_nil_r.
Qed.

(** X2.  A valid phone that [add_phone] appended is found by
    [find_phone]; [remove_phone] of the same value right after undoes the
    call when the record did not have the value before; when it had, the
    older phone is the one removed and the new one stays at the end. *)
Theorem add_phone_then_remove_phone :
  forall (self : Record_.t) (phone : string),
    ten_digits phone = true ->
    (exists p,
        Record_.find_phone phone (snd (Record_.add_phone phone self)) = Some p
        /\ Phone.value p = phone)
    /\ (has_value Phone.value phone (Record_.phones self) = false ->
        (Record_.add_phone phone ;;; Record_.remove_phone phone) self
        = (Ok tt, self))
    /\ (forall l1 p l2,
           Record_.phones self = l1 ++ p :: l2 ->
           has_value Phone.value phone l1 = false ->
           Phone.value p = phone ->
           (Record_.add_phone phone ;;; Record_.remove_phone phone) self
           = (Ok tt, Record_.set_phones (l1 ++ l2 ++ [Phone.mk phone]) self)).
Proof.
  intros self phone T.
  assert (A : Record_.add_phone phone self
              = (Ok tt, Record_.set_phones
                          (Record_.phones self ++ [Phone.mk phone]) self)).
  { rewrite add_phone_eq, T. reflexivity. }
  assert (L : has_value Phone.value phone
                (Record_.phones self ++ [Phone.mk phone]) = true).
  { exact (has_value_last Phone.value (Record_.phones self) (Phone.mk phone)). }
  split; [|split].
  - rewrite A. simpl. unfold Record_.find_phone. simpl.
    pose proof (find_has_value Phone.value phone
                  (Record_.phones self ++ [Phone.mk phone])) as K.
    destruct (find _ _) as [p|].
    + exists p. split; [reflexivity | apply K].
    + rewrite L in K. discriminate K.
  - intros H. unfold bind. rewrite A, remove_phone_state. simpl.
    rewrite L.
    rewrite without_first_last by (auto; reflexivity).
    destruct self; reflexivity.
  - intros l1 p l2 E H V. unfold bind. rewrite A, remove_phone_state. simpl.
    rewrite L.
    rewrite E, <- app_assoc. simpl.
    rewrite (without_first_split Phone.value phone l1 p (l2 ++ [Phone.mk phone]) H V).
    reflexivity.
Qed.

Lemma add_phone_then_remove_phone_witness :
  (Record_.add_phone "1234567890" ;;; Record_.remove_phone "1234567890")
    (Record_.mk (Name.mk "John") [Phone.mk "0987654321"] [] None)
  = (Ok tt, Record_.mk (Name.mk "John") [Phone.mk "0987654321"] [] None)
  /\ (Record_.add_phone "1234567890" ;;; Record_.remove_phone "1234567890")
       (Record_.mk (Name.mk "John")
          [Phone.mk "1234567890"; Phone.mk "0987654321"] [] None)
     = (Ok tt,
        Record_.mk (Name.mk "John")
          [Phone.mk "0987654321"; Phone.mk "1234567890"] [] None).
Proof.
  split.
  - exact (proj1 (proj2 (add_phone_then_remove_phone
                           (Record_.mk (Name.mk "John") [Phone.mk "0987654321"]
                              [] None)
                           "1234567890" eq_refl)) eq_refl).
  - exact (proj2 (proj2 (add_phone_then_remove_phone
                           (Record_.mk (Name.mk "John")
                              [Phone.mk "1234567890"; Phone.mk "0987654321"]
                              [] None)
                           "1234567890" eq_refl))
             [] (Phone.mk "1234567890") [Phone.mk "0987654321"]
             eq_refl eq_refl eq_refl).
Defined.

Lemma edit_phone_state (old new : string) (self : Record_.t) :
  Record_.edit_phone old new self =
  if has_value Phone.value old (Record_.phones self) then
    if ten_digits new
    then (Ok tt,
          Record_.set_phones
            (without_first Phone.value old (Record_.phones self) ++ [Phone.mk new])
            self)
    else (Raise (ValueError "Invalid phone number format. It should be 10 digits."),
          Record_.set_phones
            (without_first Phone.value old (Record_.phones self)) self)
  else (Ok tt, self).
Proof.
  unfold Record_.edit_phone, bind, get, Record_.find_phone.
  pose proof (find_has_value Phone.value old (Record_.phones self)) as K.
  destruct (find _ (Record_.phones self)) as [p|] eqn:F.
  - destruct K as [K _]. rewrite K. unfold lift, Record_.phone_is.
    rewrite (list_remove_found Phone.value old _ _ F).
    unfold put. rewrite add_phone_eq.
    destruct (ten_digits new); reflexivity.
  - rewrite K. reflexivity.
Qed.

Lemma edit_email_state (old new : string) (self : Record_.t) :
  Record_.edit_email old new self =
  if has_value Email.value old (Record_.emails self) then
    if Email._validate new
    then (Ok tt,
          Record_.set_emails
            (without_first Email.value old (Record_.emails self) ++ [Email.mk new])
            self)
    else (Raise (ValueError "Invalid email format."),
          Record_.set_emails
            (without_first Email.value old (Record_.emails self)) self)
  else (Ok tt, self).
Proof.
  unfold Record_.edit_email, bind, get, Record_.find_email.
  pose proof (find_has_value Email.value old (Record_.emails self)) as K.
  destruct (find _ (Record_.emails self)) as [p|] eqn:F.
  - destruct K as [K _]. rewrite K. unfold lift, Record_.email_is.
    rewrite (list_remove_found Email.value old _ _ F).
    unfold put, Record_.add_email, bind, lift, get, put, Email.init.
    destruct (Email._validate new); reflexivity.
  - rewrite K. reflexivity.
Qed.

(** X3.  An edit does not keep the place of the item: when the first
    phone with the value [old] stands between [l1] and [l2] and [new] is
    valid, [edit_phone(old, new)] leaves [l1], [l2] and then the new
    phone, last; the number of phones is the same.  So editing a phone
    into itself moves it to the end.  [edit_email] does the same on the
    emails. *)
Theorem edit_moves_to_the_end :
  forall (self : Record_.t) (old new : string),
    (forall l1 p l2,
        Record_.phones self = l1 ++ p :: l2 ->
        has_value Phone.value old l1 = false ->
        Phone.value p = old ->
        ten_digits new = true ->
        Record_.edit_phone old new self
        = (Ok tt, Record_.set_phones (l1 ++ l2 ++ [Phone.mk new]) self)
        /\ List.length (l1 ++ l2 ++ [Phone.mk new])
           = List.length (Record_.phones self))
    /\ (forall l1 e l2,
           Record_.emails self = l1 ++ e :: l2 ->
           has_value Email.value old l1 = false ->
           Email.value e = old ->
           Email._validate new = true ->
           Record_.edit_email old new self
           = (Ok tt, Record_.set_emails (l1 ++ l2 ++ [Email.mk new]) self)
           /\ List.length (l1 ++ l2 ++ [Email.mk new])
              = List.length (Record_.emails self)).
Proof.
  intros self old new. split.
  - intros l1 p l2 E H V T. split.
    + rewrite edit_phone_state, T, E.
      rewrite (without_first_split Phone.value old l1 p l2 H V).
      rewrite has_value_app. simpl. rewrite V, string_eqb_refl.
      rewrite orb_true_r, <- app_assoc. reflexivity.
    + rewrite E, !length_app. simpl. lia.
  - intros l1 e l2 E H V T. split.
    + rewrite edit_email_state, T, E.
      rewrite (without_first_split Email.value old l1 e l2 H V).
      rewrite has_value_app. simpl. rewrite V, string_eqb_refl.
      rewrite orb_true_r, <- app_assoc. reflexivity.
    + rewrite E, !length_app. simpl. lia.
Qed.

Lemma edit_moves_to_the_end_witness :
  Record_.edit_phone "1234567890" "1234567890"
    (Record_.mk (Name.mk "John")
       [Phone.mk "1234567890"; Phone.mk "0987654321"] [] None)
  = (Ok tt,
     Record_.mk (Name.mk "John")
       [Phone.mk "0987654321"; Phone.mk "1234567890"] [] None)
  /\ Record_.edit_email "a@b.c" "d@e.f"
       (Record_.mk (Name.mk "John") []
          [Email.mk "a@b.c"; Email.mk "x@y.z"] None)
     = (Ok tt,
        Record_.mk (Name.mk "John") []
          [Email.mk "x@y.z"; Email.mk "d@e.f"] None).
Proof.
  split.
  - exact (proj1 (proj1 (edit_moves_to_the_end
                           (Record_.mk (Name.mk "John")
                              [Phone.mk "1234567890"; Phone.mk "0987654321"]
                              [] None)
                           "1234567890" "1234567890")
                    [] (Phone.mk "1234567890") [Phone.mk "0987654321"]
                    eq_refl eq_refl eq_refl eq_refl)).
  - exact (proj1 (proj2 (edit_moves_to_the_end
                           (Record_.mk (Name.mk "John") []
                              [Email.mk "a@b.c"; Email.mk "x@y.z"] None)
                           "a@b.c" "d@e.f")
                    [] (Email.mk "a@b.c") [Email.mk "x@y.z"]
                    eq_refl eq_refl eq_refl eq_refl)).
Defined.

Lemma remove_email_state (value : string) (self : Record_.t) :
  Record_.remove_email value self =
  (Ok tt,
   if has_value Email.value value (Record_.emails self)
   then Record_.set_emails
          (without_first Email.value value (Record_.emails self)) self
   else self).
Proof.
  unfold Record_.remove_email, bind, get, Record_.find_email.
  pose proof (find_has_value Email.value value (Record_.emails self)) as K.
  destruct (find _ (Record_.emails self)) as [p|] eqn:F.
  - destruct K as [K _]. rewrite K. unfold lift, Record_.email_is.
    rewrite (list_remove_found Email.value value _ _ F). reflexivity.
  - rewrite K. reflexivity.
Qed.

(** X4.  [remove_email(value)] always returns normally; it removes the
    first email whose value is [value], the emails before and after it
    staying in order, and leaves a record without such an email as it
    is. *)
Theorem remove_email_removes_first :
  forall (self : Record_.t) (value : string),
    (forall l1 e l2,
        Record_.emails self = l1 ++ e :: l2 ->
        has_value Email.value value l1 = false ->
        Email.value e = value ->
        Record_.remove_email value self
        = (Ok tt, Record_.set_emails (l1 ++ l2) self))
    /\ (has_value Email.value value (Record_.emails self) = false ->
        Record_.remove_email value self = (Ok tt, self)).
Proof.
  intros self value. split.
  - intros l1 e l2 E H V. rewrite remove_email_state, E.
    rewrite (without_first_split Email.value value l1 e l2 H V).
    rewrite has_value_app. simpl. rewrite V, string_eqb_refl, orb_true_r.
    reflexivity.
  - intros H. rewrite remove_email_state, H. reflexivity.
Qed.

Lemma remove_email_removes_first_witness :
  Record_.remove_email "a@b.c"
    (Record_.mk (Name.mk "John") []
       [Email.mk "x@y.z"; Email.mk "a@b.c"; Email.mk "a@b.c"] None)
  = (Ok tt,
     Record_.mk (Name.mk "John") [] [Email.mk "x@y.z"; Email.mk "a@b.c"] None)
  /\ Record_.remove_email "q@r.s"
       (Record_.mk (Name.mk "John") [] [Email.mk "x@y.z"] None)
     = (Ok tt, Record_.mk (Name.mk "John") [] [Email.mk "x@y.z"] None).
Proof.
  split.
  - exact (proj1 (remove_email_removes_first
                    (Record_.mk (Name.mk "John") []
                       [Email.mk "x@y.z"; Email.mk "a@b.c"; Email.mk "a@b.c"]
                       None)
                    "a@b.c")
             [Email.mk "x@y.z"] (Email.mk "a@b.c") [Email.mk "a@b.c"]
             eq_refl eq_refl eq_refl).
  - exact (proj2 (remove_email_removes_first
                    (Record_.mk (Name.mk "John") [] [Email.mk "x@y.z"] None)
                    "q@r.s")
             eq_refl).
Defined.

(** X5.  [add_birthday] sets the one birthday of the record and touches
    nothing else; a second valid date replaces the first, and an invalid
    one raises the validation error and leaves the first in place. *)
Theorem add_birthday_overwrites :
  forall (self : Record_.t) (first second : string) (b1 : Birthday.t),
    Birthday.init first = Ok b1 ->
    Record_.add_birthday first self
    = (Ok tt, Record_.mk (Record_.name self) (Record_.phones self)
                (Record_.emails self) (Some b1))
    /\ (Record_.add_birthday first ;;; Record_.add_birthday second) self
       = match Birthday.init second with
         | Ok b2 =>
             (Ok tt, Record_.mk (Record_.name self) (Record_.phones self)
                       (Record_.emails self) (Some b2))
         | Raise e =>
             (Raise e, Record_.mk (Record_.name self) (Record_.phones self)
                         (Record_.emails self) (Some b1))
         end.
Proof.
  intros self first second b1 H.
  unfold Record_.add_birthday, bind, lift, get, put. rewrite H.
  split; [reflexivity|].
  destruct (Birthday.init second); reflexivity.
Qed.

Lemma add_birthday_overwrites_witness :
  (Record_.add_birthday "15.06.1990" ;;; Record_.add_birthday "31.06.1990")
    (Record_.init "John")
  = (Raise (ValueError "Invalid date format. Use DD.MM.YYYY"),
     Record_.mk (Name.mk "John") [] []
       (Some (Birthday.mk (Datetime.mk 1990 6 15 0 0 0 0)))).
Proof.
  exact (proj2 (add_birthday_overwrites (Record_.init "John")
                  "15.06.1990" "31.06.1990"
                  (Birthday.mk (Datetime.mk 1990 6 15 0 0 0 0)) eq_refl)).
Defined.

(** ** More on the address book *)

Lemma dict_get_set_other {V : Type} (k k' : string) (v : V) :
  k' <> k -> forall d, Dict.get k' (Dict.set k v d) = Dict.get k' d.
Proof.
  intros N. induction d as [|[k0 v0] d IH]; simpl.
  - apply string_eqb_neq in N. rewrite N. reflexivity.
  - destruct (string_eqb_spec k k0) as [->|N0]; simpl.
    + apply string_eqb_neq in N. rewrite N. reflexivity.
    + destruct (String.eqb k' k0); [reflexivity | exact IH].
Qed.

Lemma dict_get_del_other {V : Type} (k k' : string) :
  k' <> k -> forall d : Dict.t V, Dict.get k' (Dict.del k d) = Dict.get k' d.
Proof.
  intros N. induction d as [|[k0 v0] d IH]; simpl; [reflexivity|].
  destruct (string_eqb_spec k k0) as [->|N0]; simpl.
  - apply string_eqb_neq in N. rewrite N. reflexivity.
  - destruct (String.eqb k' k0); [reflexivity | exact IH].
Qed.

Lemma dict_del_split {V : Type} (k : string) (v : V) :
  forall d1 d2,
    ~ In k (Dict.keys d1) -> Dict.del k (d1 ++ (k, v) :: d2) = d1 ++ d2.
Proof.
  induction d1 as [|[k0 v0] d1 IH]; simpl; intros d2 H.
  - rewrite string_eqb_refl. reflexivity.
  - destruct (string_eqb_spec k k0) as [->|N].
    + exfalso. apply H. left; reflexivity.
    + rewrite IH; [reflexivity|]. intros K. apply H. right; exact K.
Qed.

Lemma dict_mem_get {V : Type} (k : string) (d : Dict.t V) :
  Dict.mem k d = false <-> Dict.get k d = None.
Proof.
  unfold Dict.mem. destruct (Dict.get k d); split; congruence.
Qed.

(** X6.  After [add_record(record)], [find] of the record's name returns
    the record and [find] of any other name returns what it returned
    before; the objects are untouched; a name that was not a key is added
    after the entries present. *)
Theorem add_record_then_find :
  forall (w : World) (record : addr),
    let key := Name.value (Record_.name (deref w record)) in
    let w' := snd (AddressBook.add_record record w) in
    AddressBook.find key w' = (Ok (Some record), w')
    /\ heap w' = heap w
    /\ (forall other, other <> key ->
                      fst (AddressBook.find other w')
                      = fst (AddressBook.find other w))
    /\ (Dict.mem key (data w) = false -> data w' = data w ++ [(key, record)]).
Proof.
  intros w record key w'. unfold AddressBook.find. simpl.
  split; [rewrite dict_get_set_same; reflexivity|].
  split; [reflexivity|]. split.
  - intros other N. rewrite (dict_get_set_other _ _ record N). reflexivity.
  - intros H. apply dict_set_absent. apply dict_mem_get. exact H.
Qed.

Lemma add_record_then_find_witness :
  let w := snd (new_record "Bob"
                  (snd (AddressBook.add_record 0
                          (snd (new_record "Ann" empty_world))))) in
  fst (AddressBook.find "Ann" (snd (AddressBook.add_record 1 w))) = Ok (Some 0)
  /\ data (snd (AddressBook.add_record 1 w)) = [("Ann", 0); ("Bob", 1)].
Proof.
  split.
  - exact (proj1 (proj2 (proj2
             (add_record_then_find
                (snd (new_record "Bob"
                        (snd (AddressBook.add_record 0
                                (snd (new_record "Ann" empty_world))))))
                1))) "Ann" ltac:(discriminate)).
  - exact (proj2 (proj2 (proj2
             (add_record_then_find
                (snd (new_record "Bob"
                        (snd (AddressBook.add_record 0
                                (snd (new_record "Ann" empty_world))))))
                1))) eq_refl).
Defined.

(** X7.  [delete(name)] never raises and leaves the objects and the
    entries of the other names as they are, in their order; a name that is
    not a key leaves the book unchanged; in a book with one entry per key,
    [find(name)] returns nothing after it, and deleting a name right after
    adding a record under it as a new key gives the book back. *)
Theorem delete_then_find :
  forall (w : World) (name : string),
    let w' := snd (AddressBook.delete name w) in
    fst (AddressBook.delete name w) = Ok tt
    /\ heap w' = heap w
    /\ (forall other, other <> name ->
                      fst (AddressBook.find other w')
                      = fst (AddressBook.find other w))
    /\ (Dict.mem name (data w) = false -> w' = w)
    /\ (forall d1 a d2,
           data w = d1 ++ (name, a) :: d2 -> ~ In name (Dict.keys d1) ->
           data w' = d1 ++ d2)
    /\ (NoDup (Dict.keys (data w)) ->
        fst (AddressBook.find name w') = Ok None)
    /\ (forall record,
           Name.value (Record_.name (deref w record)) = name ->
           Dict.mem name (data w) = false ->
           snd (AddressBook.delete name (snd (AddressBook.add_record record w)))
           = w).
Proof.
  intros w name w'. subst w'. unfold AddressBook.delete, AddressBook.find.
  split; [destruct (Dict.mem name (data w)); reflexivity|].
  split; [destruct (Dict.mem name (data w)); reflexivity|].
  split.
  { intros other N. destruct (Dict.mem name (data w)); simpl; [|reflexivity].
    rewrite (dict_get_del_other name other N). reflexivity. }
  split.
  { intros H. rewrite H. reflexivity. }
  split.
  { intros d1 a d2 E H.
    assert (M : Dict.mem name (data w) = true).
    { unfold Dict.mem. destruct (Dict.get name (data w)) eqn:G; [reflexivity|].
      apply dict_get_none in G. exfalso. apply G. rewrite E.
      unfold Dict.keys. rewrite map_app. apply in_or_app. right. left.
      reflexivity. }
    rewrite M. simpl. rewrite E. apply dict_del_split. exact H. }
  split.
  { intros ND. destruct (Dict.mem name (data w)) eqn:M; simpl.
    - unfold Dict.mem in M. destruct (Dict.get name (data w)) as [a|] eqn:G;
        [|discriminate M].
      destruct (dict_get_split name a (data w) ND G) as (d1 & d2 & E & N1 & N2).
      rewrite E, (dict_del_split name a d1 d2 N1).
      assert (K : Dict.get name (d1 ++ d2) = None).
      { apply dict_get_none. unfold Dict.keys. rewrite map_app.
        intros K. apply in_app_or in K as [K | K]; auto. }
      rewrite K. reflexivity.
    - apply dict_mem_get in M. rewrite M. reflexivity. }
  intros record E M. simpl. rewrite E.
  apply dict_mem_get in M.
  rewrite (dict_set_absent name record (data w) M).
  assert (M' : Dict.mem name (data w ++ [(name, record)]) = true).
  { unfold Dict.mem.
    destruct (Dict.get name (data w ++ [(name, record)])) eqn:G; [reflexivity|].
    apply dict_get_none in G. exfalso. apply G. unfold Dict.keys.
    rewrite map_app. apply in_or_app. right. left. reflexivity. }
  rewrite M'. rewrite dict_del_split by (apply dict_get_none; exact M).
  rewrite app_nil_r. destruct w; reflexivity.
Qed.

Lemma delete_then_find_witness :
  let w := mkWorld [Record_.init "Ann"; Record_.init "Bob"; Record_.init "Cy"]
             [("Ann", 0); ("Bob", 1); ("Cy", 2)] in
  data (snd (AddressBook.delete "Bob" w)) = [("Ann", 0); ("Cy", 2)]
  /\ fst (AddressBook.find "Bob" (snd (AddressBook.delete "Bob" w))) = Ok None
  /\ fst (AddressBook.find "Cy" (snd (AddressBook.delete "Bob" w))) = Ok (Some 2)
  /\ snd (AddressBook.delete "Dan" w) = w.
Proof.
  pose (w := mkWorld [Record_.init "Ann"; Record_.init "Bob"; Record_.init "Cy"]
               [("Ann", 0); ("Bob", 1); ("Cy", 2)]).
  pose proof (delete_then_find w "Bob") as (_ & _ & H3 & _ & H5 & H6 & _).
  pose proof (delete_then_find w "Dan") as (_ & _ & _ & H4 & _).
  split; [exact (H5 [("Ann", 0)] 1 [("Cy", 2)] eq_refl
                   ltac:(simpl; intros [E | []]; discriminate E))|].
  split.
  - apply H6. repeat constructor; simpl; intuition discriminate.
  - split; [exact (H3 "Cy" ltac:(discriminate)) | exact (H4 eq_refl)].
Defined.

(** ** More on upcoming birthdays *)

(** X8.  [get_upcoming_birthdays] never changes the book, also when it
    raises; when it returns, the list is made of the records of the book
    that pass the test of the window, each once per entry and in the order
    of the book. *)
Theorem upcoming_birthdays_are_filtered :
  forall (w : World) (today : Datetime.t) (days : Z),
    snd (AddressBook.get_upcoming_birthdays today days w) = w
    /\ forall l,
        fst (AddressBook.get_upcoming_birthdays today days w) = Ok l ->
        l = filter (in_window w today days) (Dict.values (data w)).
Proof.
  intros w today days. split; [apply state_get_upcoming_birthdays|].
  intros l H.
  destruct (AddressBook.get_upcoming_birthdays today days w) as [r w'] eqn:E.
  simpl in H. subst r.
  exact (get_upcoming_birthdays_filter today days w l w' E).
Qed.

Lemma upcoming_birthdays_are_filtered_witness :
  let w :=
    mkWorld
      [Record_.mk (Name.mk "Ann") [] []
         (Some (Birthday.mk (Datetime.mk 1990 11 5 0 0 0 0)));
       Record_.mk (Name.mk "Bob") [] [] None;
       Record_.mk (Name.mk "Cy") [] []
         (Some (Birthday.mk (Datetime.mk 1985 11 10 0 0 0 0)));
       Record_.mk (Name.mk "Dan") [] []
         (Some (Birthday.mk (Datetime.mk 2001 11 11 0 0 0 0)))]
      [("Cy", 2); ("Dan", 3); ("Bob", 1); ("Ann", 0)] in
  filter (in_window w (Datetime.mk 2026 11 3 12 0 0 0) 7) (Dict.values (data w))
  = [2; 0].
Proof.
  intros w. symmetry.
  exact (proj2 (upcoming_birthdays_are_filtered w
                  (Datetime.mk 2026 11 3 12 0 0 0) 7) [2; 0] eq_refl).
Defined.

Lemma le_earlier_in_the_year (today next : Datetime.t) :
  Datetime.year next = Datetime.year today ->
  earlier_in_the_year (Datetime.month next) (Datetime.day next)
    (Datetime.month today) (Datetime.day today) = true ->
  Datetime.le today next = false.
Proof.
  intros Ey H. unfold Datetime.le, Datetime.cmp, Datetime.fields.
  rewrite Ey, cmp_tuple_refl_prefix. simpl.
  unfold earlier_in_the_year in H.
  apply orb_true_iff in H as [H | H].
  - apply Z.ltb_lt in H.
    destruct (Z.compare_spec (Datetime.month today) (Datetime.month next));
      try reflexivity; lia.
  - apply andb_true_iff in H as [H1 H2].
    apply Z.eqb_eq in H1. apply Z.ltb_lt in H2.
    rewrite H1, Z.compare_refl.
    destruct (Z.compare_spec (Datetime.day today) (Datetime.day next));
      try reflexivity; lia.
Qed.

(** X9.  No roll-over to the next year: a record whose birthday, by
    month and day, comes before today's date in the year is never
    returned, however long the window (so a birthday in January is not
    announced in December). *)
Theorem passed_birthday_never_returned :
  forall (w : World) (today : Datetime.t) (days : Z) (l : list addr)
         (record : addr) (b : Birthday.t),
    fst (AddressBook.get_upcoming_birthdays today days w) = Ok l ->
    Record_.birthday (deref w record) = Some b ->
    earlier_in_the_year
      (Datetime.month (Birthday.value b)) (Datetime.day (Birthday.value b))
      (Datetime.month today) (Datetime.day today) = true ->
    ~ In record l.
Proof.
  intros w today days l record b H Hb He Hin.
  destruct (AddressBook.get_upcoming_birthdays today days w) as [r w'] eqn:E.
  simpl in H. subst r.
  rewrite (get_upcoming_birthdays_filter today days w l w' E) in Hin.
  apply filter_In in Hin as [_ T].
  unfold in_window in T. rewrite Hb in T.
  destruct (Datetime.replace_year _ _) as [next|e] eqn:R; [|discriminate T].
  apply replace_year_fields in R.
  assert (L : Datetime.le today next = false).
  { apply le_earlier_in_the_year; subst next; simpl; auto. }
  rewrite L in T.
  destruct (Datetime.timedelta_days days); [|discriminate T].
  destruct (Datetime.add_days today _); discriminate T.
Qed.

Lemma passed_birthday_never_returned_witness :
  let w :=
    mkWorld
      [Record_.mk (Name.mk "Ann") [] []
         (Some (Birthday.mk (Datetime.mk 1990 1 2 0 0 0 0)));
       Record_.mk (Name.mk "Bob") [] []
         (Some (Birthday.mk (Datetime.mk 1990 12 31 0 0 0 0)))]
      [("Ann", 0); ("Bob", 1)] in
  fst (AddressBook.get_upcoming_birthdays (Datetime.mk 2026 12 30 9 0 0 0) 7 w)
  = Ok [1]
  /\ ~ In 0 [1].
Proof.
  intros w. split; [reflexivity|].
  exact (passed_birthday_never_returned w (Datetime.mk 2026 12 30 9 0 0 0) 7 [1]
           0 (Birthday.mk (Datetime.mk 1990 1 2 0 0 0 0))
           eq_refl eq_refl eq_refl).
Defined.

Lemma upcoming_loop_no_birthdays today days w :
  forall values upcoming,
    (forall a, In a values -> Record_.birthday (deref w a) = None) ->
    AddressBook.upcoming_loop today days values upcoming w = (Ok upcoming, w).
Proof.
  induction values as [|r values IH]; intros upcoming H; [reflexivity|].
  simpl. unfold bind at 1. unfold get.
  rewrite (H r (or_introl eq_refl)). apply IH.
  intros a Ha. apply H. right; exact Ha.
Qed.

(** X10.  In a book where no record has a birthday,
    [get_upcoming_birthdays] returns the empty list for every clock and
    every window, without raising, and the handler [birthdays] answers
    "No upcoming birthdays within the next week.", whatever number of
    days it is given. *)
Theorem no_birthdays_no_upcoming :
  forall (w : World) (today : Datetime.t),
    (forall a, In a (Dict.values (data w)) ->
               Record_.birthday (deref w a) = None) ->
    (forall days,
        AddressBook.get_upcoming_birthdays today days w = (Ok [], w))
    /\ (forall (int : string -> result Z) (arg : string) (rest : list string)
               (days : Z),
           birthdays int today [] w
           = (Ok "No upcoming birthdays within the next week.", w)
           /\ (int arg = Ok days ->
               birthdays int today (arg :: rest) w
               = (Ok "No upcoming birthdays within the next week.", w))).
Proof.
  intros w today H.
  assert (G : forall days,
             AddressBook.get_upcoming_birthdays today days w = (Ok [], w)).
  { intros days. unfold AddressBook.get_upcoming_birthdays, bind, get.
    apply upcoming_loop_no_birthdays. exact H. }
  split; [exact G|].
  intros int arg rest days. split.
  - unfold birthdays, input_error, birthdays_func, bind, ret.
    rewrite G. reflexivity.
  - intros I. unfold birthdays, input_error, birthdays_func, bind, lift.
    rewrite I, G. reflexivity.
Qed.

Lemma no_birthdays_no_upcoming_witness :
  birthdays (fun _ => Ok 30%Z) (Datetime.mk 2026 11 3 12 0 0 0) ["30"]
    (mkWorld [Record_.mk (Name.mk "John") [Phone.mk "1234567890"] [] None]
       [("John", 0)])
  = (Ok "No upcoming birthdays within the next week.",
     mkWorld [Record_.mk (Name.mk "John") [Phone.mk "1234567890"] [] None]
       [("John", 0)]).
Proof.
  refine (proj2 (proj2 (no_birthdays_no_upcoming
                          (mkWorld [Record_.mk (Name.mk "John")
                                      [Phone.mk "1234567890"] [] None]
                             [("John", 0)])
                          (Datetime.mk 2026 11 3 12 0 0 0) _)
                   (fun _ => Ok 30%Z) "30" [] 30%Z) eq_refl).
  intros a [<- | []]. reflexivity.
Defined.

Lemma replace_year_of_valid (b : Birthday.t) (y : Z) :
  valid_birthday b = true ->
  Datetime.in_range 1 y 9999 = true ->
  (exists next, Datetime.replace_year (Birthday.value b) y = Ok next)
  \/ (Datetime.replace_year (Birthday.value b) y
      = Raise (ValueError "day is out of range for month")
      /\ Datetime.month (Birthday.value b) = 2%Z
      /\ Datetime.day (Birthday.value b) = 29%Z
      /\ Datetime._is_leap y = false).
Proof.
  unfold valid_birthday, calendar_date. intros V Y.
  repeat (apply andb_true_iff in V; destruct V as [V ?]).
  repeat match goal with
         | E : (_ =? _)%Z = true |- _ => apply Z.eqb_eq in E
         end.
  unfold Datetime.replace_year, Datetime.new, Datetime.MINYEAR, Datetime.MAXYEAR.
  rewrite Y.
  match goal with E : Datetime.in_range 1 (Datetime.month _) 12 = true |- _ =>
    rewrite E end.
  simpl negb. cbv iota.
  destruct (Datetime.in_range 1 (Datetime.day (Birthday.value b))
              (Datetime._days_in_month y (Datetime.month (Birthday.value b))))
    eqn:D; simpl negb; cbv iota.
  - left.
    repeat match goal with E : _ = 0%Z |- _ => rewrite E; clear E end.
    simpl. eauto.
  - right. split; [reflexivity|].
    match goal with
    | E : Datetime.in_range 1 (Datetime.day _) (Datetime._days_in_month _ _) = true
      |- _ => rename E into D0
    end.
    unfold Datetime.in_range, Datetime._days_in_month in D, D0.
    apply andb_true_iff in D0 as [D1 D2]. rewrite D1 in D. simpl in D.
    apply Z.leb_le in D2. apply Z.leb_gt in D.
    destruct (Z.eqb_spec (Datetime.month (Birthday.value b)) 2) as [M|M];
      simpl in D, D2.
    + rewrite M in *. simpl in D, D2.
      destruct (Datetime._is_leap y);
        destruct (Datetime._is_leap (Datetime.year (Birthday.value b)));
        simpl in D, D2; repeat split; lia.
    + lia.
Qed.

Lemma upcoming_loop_value_error today days w :
  Datetime.in_range 1 (Datetime.year today) 9999 = true ->
  forall values upcoming msg w',
    (forall a b, In a values -> Record_.birthday (deref w a) = Some b ->
                 valid_birthday b = true) ->
    AddressBook.upcoming_loop today days values upcoming w
    = (Raise (ValueError msg), w') ->
    msg = "day is out of range for month"
    /\ Datetime._is_leap (Datetime.year today) = false
    /\ exists record b,
        In record values
        /\ Record_.birthday (deref w record) = Some b
        /\ Datetime.month (Birthday.value b) = 2%Z
        /\ Datetime.day (Birthday.value b) = 29%Z.
Proof.
  intros Y. induction values as [|r values IH]; intros upcoming msg w' V H.
  - discriminate H.
  - assert (K : forall up,
               AddressBook.upcoming_loop today days values up w
               = (Raise (ValueError msg), w') ->
               msg = "day is out of range for month"
               /\ Datetime._is_leap (Datetime.year today) = false
               /\ exists record b,
                   In record (r :: values)
                   /\ Record_.birthday (deref w record) = Some b
                   /\ Datetime.month (Birthday.value b) = 2%Z
                   /\ Datetime.day (Birthday.value b) = 29%Z).
    { intros up Hup.
      destruct (IH up msg w' (fun a b Ha => V a b (or_intror Ha)) Hup)
        as (E1 & E2 & record & b & Hin & Hb & Hm & Hd).
      split; [exact E1|]. split; [exact E2|].
      exists record, b. repeat split; auto. right; exact Hin. }
    simpl in H. unfold bind at 1 in H. unfold get in H.
    destruct (Record_.birthday (deref w r)) as [b|] eqn:Hb; [|apply (K _ H)].
    unfold bind at 1 in H. unfold lift at 1 in H.
    destruct (replace_year_of_valid b (Datetime.year today)
                (V r b (or_introl eq_refl) Hb) Y)
      as [[next R] | (R & Hm & Hd & Hl)]; rewrite R in H.
    + destruct (Datetime.le today next); [|apply (K _ H)].
      unfold bind at 1 in H. unfold lift at 1 in H.
      unfold Datetime.timedelta_days in H.
      destruct (negb _); [discriminate H|].
      destruct (_ >? _)%Z; [discriminate H|].
      unfold bind at 1 in H. unfold lift at 1 in H.
      unfold Datetime.add_days in H.
      destruct (_ && _); [|discriminate H].
      destruct (Datetime._ord2ymd _) as [[y m] d].
      destruct (Datetime.le next _); apply (K _ H).
    + injection H as <- _.
      split; [reflexivity|]. split; [exact Hl|].
      exists r, b. repeat split; auto. left; reflexivity.
Qed.

(** X11.  The converse of the failure on 29 February: in a book whose
    birthdays are dates of the calendar, with the current year between 1
    and 9999, [get_upcoming_birthdays] raises a [ValueError] only when the
    year is not a leap year and some record of the book has its birthday
    on 29 February; the text is then "day is out of range for month". *)
Theorem value_error_only_on_feb29 :
  forall (w : World) (today : Datetime.t) (days : Z) (msg : string) (w' : World),
    Datetime.in_range 1 (Datetime.year today) 9999 = true ->
    (forall a b, In a (Dict.values (data w)) ->
                 Record_.birthday (deref w a) = Some b ->
                 valid_birthday b = true) ->
    AddressBook.get_upcoming_birthdays today days w
    = (Raise (ValueError msg), w') ->
    msg = "day is out of range for month"
    /\ Datetime._is_leap (Datetime.year today) = false
    /\ exists record b,
        In record (Dict.values (data w))
        /\ Record_.birthday (deref w record) = Some b
        /\ Datetime.month (Birthday.value b) = 2%Z
        /\ Datetime.day (Birthday.value b) = 29%Z.
Proof.
  intros w today days msg w' Y V H.
  unfold AddressBook.get_upcoming_birthdays, bind, get in H.
  exact (upcoming_loop_value_error today days w Y _ [] msg w' V H).
Qed.

Lemma value_error_only_on_feb29_witness :
  let w :=
    mkWorld
      [Record_.mk (Name.mk "Ann") [] []
         (Some (Birthday.mk (Datetime.mk 2020 2 29 0 0 0 0)))]
      [("Ann", 0)] in
  Datetime._is_leap 2026 = false
  /\ exists record b,
      In record (Dict.values (data w))
      /\ Record_.birthday (deref w record) = Some b
      /\ Datetime.month (Birthday.value b) = 2%Z
      /\ Datetime.day (Birthday.value b) = 29%Z.
Proof.
  intros w.
  refine (proj2 (value_error_only_on_feb29 w (Datetime.mk 2026 11 3 12 0 0 0) 7
                   "day is out of range for month" w eq_refl _ eq_refl)).
  intros a b [<- | []] H. injection H as <-. reflexivity.
Defined.

(** X12.  A birthday that [Birthday] accepts is a date of the calendar at
    midnight.  The text that [strftime] prints for it gives its day and
    its month on two digits and its year as a number.  From the year 1000
    on, that text is in the strict shape [DD.MM.YYYY] and [Birthday]
    reads it back as the same birthday; for an earlier year the text has
    fewer than four digits of year, is not in the strict shape, and
    [Birthday] refuses it. *)
Theorem Birthday_init_is_a_date :
  forall (value : string) (b : Birthday.t),
    Birthday.init value = Ok b ->
    let dt := Birthday.value b in
    let text := Datetime.strftime_dmY dt in
    valid_birthday b = true
    /\ date_text text (Datetime.year dt) (Datetime.month dt) (Datetime.day dt)
       = true
    /\ ((1000 <= Datetime.year dt)%Z ->
        strict_DD_MM_YYYY text = true /\ Birthday.init text = Ok b)
    /\ ((Datetime.year dt < 1000)%Z ->
        strict_DD_MM_YYYY text = false
        /\ Birthday.init text
           = Raise (ValueError "Invalid date format. Use DD.MM.YYYY")).
Proof.
  intros value b H.
  destruct (Birthday_init_midnight value b H) as (y & m & d & E & C).
  destruct b as [dt]. simpl in E. subst dt. cbv zeta.
  cbn [Birthday.value].
  pose proof (calendar_date_bounds y m d C) as (Hy & Hm & Hd).
  split; [unfold valid_birthday; simpl; rewrite C; reflexivity|].
  split; [apply strftime_dmY_date_text; exact C|].
  split.
  - intros L. cbn [Datetime.year] in L. split.
    + rewrite strftime_dmY_strict by exact Hy.
      cbn [Datetime.year]. apply Z.leb_le. exact L.
    + apply strftime_dmY_reads_back; assumption.
  - intros L. cbn [Datetime.year] in L. split.
    + rewrite strftime_dmY_strict by exact Hy.
      cbn [Datetime.year]. apply Z.leb_gt. exact L.
    + apply strftime_dmY_not_read_back. cbn [Datetime.year]. lia.
Qed.

Lemma Birthday_init_is_a_date_witness :
  Birthday.init "01.01.0999" = Ok (Birthday.mk (Datetime.mk 999 1 1 0 0 0 0))
  /\ Datetime.strftime_dmY (Datetime.mk 999 1 1 0 0 0 0) = "01.01.999"
  /\ strict_DD_MM_YYYY "01.01.999" = false
  /\ Birthday.init "01.01.999"
     = Raise (ValueError "Invalid date format. Use DD.MM.YYYY").
Proof.
  split; [reflexivity|]. split; [reflexivity|].
  apply (proj2 (proj2 (proj2 (Birthday_init_is_a_date "01.01.0999"
                                (Birthday.mk (Datetime.mk 999 1 1 0 0 0 0))
                                eq_refl)))).
  reflexivity.
Defined.

(** ** What holds of every state at the prompt *)

Lemma reachable_find_call (name : string) (m : method) (s1 s2 : string)
  (w : World) :
  reachable w ->
  reachable (snd ((found <- AddressBook.find name ;;
                   match found with
                   | Some record => call record (run_method m) ;;; ret s1
                   | None => ret s2
                   end) w)).
Proof.
  intros R. rewrite state_of_find_call.
  destruct (Dict.get name (data w)) as [a|] eqn:G; [|exact R].
  apply reach_call; [exact R|].
  destruct (reachable_wf w R) as [_ H].
  apply (H name a). apply dict_get_in. exact G.
Qed.

Lemma reachable_add_contact args w :
  reachable w -> reachable (snd (add_contact args w)).
Proof.
  intros R. destruct args as [|name [|phone rest]];
    try (unfold add_contact; rewrite snd_input_error; exact R).
  rewrite add_contact_state.
  destruct (Dict.get name (data w)) as [a|] eqn:G.
  - destruct (is_empty phone); [exact R|].
    apply (@reach_call w a (call_add_phone phone)); [exact R|].
    destruct (reachable_wf w R) as [_ H].
    apply (H name a). apply dict_get_in. exact G.
  - cbv zeta.
    assert (R1 : reachable
                   (snd (AddressBook.add_record (List.length (heap w))
                           (snd (new_record name w))))).
    { apply reach_add_record; [apply reach_new_record; exact R|].
      simpl. rewrite length_app. simpl. lia. }
    destruct (is_empty phone); [exact R1|].
    apply (@reach_call _ (List.length (heap w)) (call_add_phone phone));
      [exact R1|].
    simpl. rewrite length_app. simpl. lia.
Qed.

Lemma reachable_step int lower_wide today user_input w :
  reachable w -> reachable (snd (step int lower_wide today user_input w)).
Proof.
  intros R. unfold step.
  destruct (is_empty (strip user_input)); [exact R|].
  destruct (parse_input lower_wide user_input) as [[command args]|e]; [|exact R].
  repeat match goal with
         | |- context [if ?b then _ else _] => destruct b
         end;
    try exact R; rewrite snd_print_result.
  - apply reachable_add_contact; exact R.
  - unfold change_phone. rewrite snd_input_error.
    destruct args as [|name [|o [|n [|x rest]]]]; try exact R.
    apply (reachable_find_call name (call_edit_phone o n)). exact R.
  - rewrite state_show_phone; exact R.
  - unfold add_email. rewrite snd_input_error.
    destruct args as [|name [|email rest]]; try exact R.
    apply (reachable_find_call name (call_add_email email)). exact R.
  - unfold change_email. rewrite snd_input_error.
    destruct args as [|name [|o [|n [|x rest]]]]; try exact R.
    apply (reachable_find_call name (call_edit_email o n)). exact R.
  - rewrite state_show_email; exact R.
  - rewrite state_list_contacts; exact R.
  - unfold add_birthday. rewrite snd_input_error.
    destruct args as [|name [|b [|x rest]]]; try exact R.
    apply (reachable_find_call name (call_add_birthday b)). exact R.
  - rewrite state_show_birthday; exact R.
  - rewrite state_birthdays; exact R.
Qed.

Lemma reachable_main_loop int lower_wide :
  forall inputs w, reachable w -> reachable (snd (main_loop int lower_wide inputs w)).
Proof.
  induction inputs as [|[today line] inputs IH]; intros w R; [exact R|].
  simpl. pose proof (reachable_step int lower_wide today line w R) as S.
  destruct (step int lower_wide today line w) as [[out st] w1]. simpl in S.
  destruct st; try exact S.
  specialize (IH w1 S).
  destruct (main_loop int lower_wide inputs w1) as [[out' st'] w2]. exact IH.
Qed.

Lemma reachable_main int lower_wide inputs : reachable (snd (main int lower_wide inputs)).
Proof.
  unfold main.
  pose proof (reachable_main_loop int lower_wide inputs empty_world reach_empty) as R.
  destruct (main_loop int lower_wide inputs empty_world) as [[out st] w]. exact R.
Qed.

(** X13.  Whatever is typed at the prompt, and whatever [int] and
    [lower] do on it, the
    book stays well formed: no name occurs twice among the keys, and each
    key leads to a record of the store whose name is the key. *)
Theorem book_well_formed_at_the_prompt :
  forall (int : string -> result Z)
         (lower_wide : string -> char * string)
         (inputs : list (Datetime.t * string)),
    let w := snd (main int lower_wide inputs) in
    NoDup (Dict.keys (data w))
    /\ forall name record,
        In (name, record) (data w) ->
        record < List.length (heap w)
        /\ Name.value (Record_.name (deref w record)) = name.
Proof.
  intros int lower_wide inputs. exact (reachable_wf _ (reachable_main int lower_wide inputs)).
Qed.

Lemma without_first_In {A : Type} (value : A -> string) (v : string) (x : A) :
  forall l, In x (without_first value v l) -> In x l.
Proof.
  induction l as [|y l IH]; simpl; intros H; [exact H|].
  destruct (String.eqb (value y) v); [right; exact H|].
  destruct H as [H | H]; [left; exact H | right; apply IH; exact H].
Qed.

Lemma valid_record_init (n : string) : valid_record (Record_.init n).
Proof.
  repeat split; simpl; intros; try contradiction; discriminate.
Qed.

Lemma run_method_valid (m : method) (r : Record_.t) :
  valid_record r -> valid_record (snd (run_method m r)).
Proof.
  intros (P & E & B). destruct m; simpl.
  - rewrite add_phone_eq. destruct (ten_digits phone) eqn:T; simpl;
      [|repeat split; assumption].
    repeat split; simpl; try assumption.
    intros p Hp. apply in_app_or in Hp as [Hp | [<- | []]]; [apply P; exact Hp|].
    exact T.
  - rewrite remove_phone_state. simpl.
    destruct (has_value _ _ _); [|repeat split; assumption].
    repeat split; simpl; try assumption.
    intros p Hp. apply P. apply without_first_In in Hp. exact Hp.
  - rewrite edit_phone_state.
    destruct (has_value _ _ _); [|repeat split; assumption].
    destruct (ten_digits new_phone) eqn:T; simpl;
      repeat split; simpl; try assumption; intros p Hp.
    + apply in_app_or in Hp as [Hp | [<- | []]]; [|exact T].
      apply P. apply without_first_In in Hp. exact Hp.
    + apply P. apply without_first_In in Hp. exact Hp.
  - unfold Record_.add_email, bind, lift, get, put, Email.init.
    destruct (Email._validate email) eqn:T; simpl;
      [|repeat split; assumption].
    repeat split; simpl; try assumption.
    intros e He. apply in_app_or in He as [He | [<- | []]]; [apply E; exact He|].
    exact T.
  - rewrite remove_email_state. simpl.
    destruct (has_value _ _ _); [|repeat split; assumption].
    repeat split; simpl; try assumption.
    intros e He. apply E. apply without_first_In in He. exact He.
  - rewrite edit_email_state.
    destruct (has_value _ _ _); [|repeat split; assumption].
    destruct (Email._validate new_email) eqn:T; simpl;
      repeat split; simpl; try assumption; intros e He.
    + apply in_app_or in He as [He | [<- | []]]; [|exact T].
      apply E. apply without_first_In in He. exact He.
    + apply E. apply without_first_In in He. exact He.
  - unfold Record_.add_birthday, bind, lift, get, put.
    destruct (Birthday.init birthday) as [b|e] eqn:I; simpl;
      [|repeat split; assumption].
    repeat split; simpl; try assumption.
    intros b0 Hb. injection Hb as <-.
    destruct (Birthday_init_midnight birthday b I) as (y & mo & d & Eb & C).
    unfold valid_birthday. rewrite Eb. simpl. rewrite C. reflexivity.
Qed.

Lemma in_heap_set (a : addr) (r x : Record_.t) :
  forall h, In x (heap_set a r h) -> x = r \/ In x h.
Proof.
  revert a. induction a as [|a IH]; intros [|y h] H; simpl in *; auto.
  - destruct H as [H | H]; auto.
  - destruct H as [H | H]; auto. destruct (IH h H); auto.
Qed.

Lemma reachable_valid_fields (w : World) : reachable w -> valid_fields w.
Proof.
  induction 1 as [|w n R IH|w a m R IH L|w a R IH L|w n R IH].
  - intros r [].
  - intros r Hr. simpl in Hr. apply in_app_or in Hr as [Hr | [<- | []]].
    + apply IH; exact Hr.
    + apply valid_record_init.
  - intros r Hr. unfold call in Hr.
    destruct (run_method m (deref w a)) as [res r'] eqn:E. simpl in Hr.
    apply in_heap_set in Hr as [-> | Hr]; [|apply IH; exact Hr].
    change r' with (snd (res, r')). rewrite <- E.
    apply run_method_valid. apply IH. unfold deref. apply nth_In. exact L.
  - intros r Hr. apply IH. exact Hr.
  - intros r Hr. apply IH. unfold AddressBook.delete in Hr.
    destruct (Dict.mem n (data w)); exact Hr.
Qed.

(** X14.  Whatever is typed at the prompt - any strings of code points -
    every record of the program holds valid fields only: each phone is
    ten decimal digits, of whatever scripts, each email has the shape
    that [Email] checks, and a birthday is a date of the calendar at
    midnight.  An edit that fails can remove a value, but never leaves an
    invalid one. *)
Theorem fields_valid_at_the_prompt :
  forall (int : string -> result Z)
         (lower_wide : string -> char * string)
         (inputs : list (Datetime.t * string))
         (r : Record_.t),
    In r (heap (snd (main int lower_wide inputs))) ->
    (forall p, In p (Record_.phones r) -> ten_digits (Phone.value p) = true)
    /\ (forall e, In e (Record_.emails r) ->
                  Email._validate (Email.value e) = true)
    /\ (forall b, Record_.birthday r = Some b -> valid_birthday b = true).
Proof.
  intros int lower_wide inputs r Hr.
  exact (reachable_valid_fields _ (reachable_main int lower_wide inputs) r Hr).
Qed.

Lemma fields_valid_at_the_prompt_witness :
  let r := Record_.mk (Name.mk "John") [Phone.mk arabic_indic_1234567890] []
             None in
  let inputs :=
    [(Datetime.mk 2026 11 3 12 0 0 0,
      ("add John " ++ arabic_indic_1234567890)%string);
     (Datetime.mk 2026 11 3 12 0 0 0, "add John 0987654321");
     (Datetime.mk 2026 11 3 12 0 0 0, "change John 0987654321 12")] in
  In r (heap (snd (main (fun _ => Ok 7%Z) keep_case inputs))) /\ valid_record r.
Proof.
  cbv zeta. split; [left; reflexivity|].
  apply (fields_valid_at_the_prompt (fun _ => Ok 7%Z) keep_case
           [(Datetime.mk 2026 11 3 12 0 0 0,
             ("add John " ++ arabic_indic_1234567890)%string);
            (Datetime.mk 2026 11 3 12 0 0 0, "add John 0987654321");
            (Datetime.mk 2026 11 3 12 0 0 0, "change John 0987654321 12")]).
  left. reflexivity.
Defined.

(** ** Listing after [add] *)






(** At the prompt, with a birthday and an email. *)
Lemma all_at_the_prompt :
  forall (int : string -> result Z)
         (lower_wide : string -> char * string) (t1 t2 t3 t4 : Datetime.t),
    fst (fst (main int lower_wide [(t1, "add John 1234567890");
                        (t2, "add-birthday John 15.06.1990");
                        (t3, "add-email John john@example.org");
                        (t4, "all")]))
    = ["Welcome to the assistant bot!";
       "Contact added.";
       "Birthday added for contact John.";
       "Email john@example.org added for contact John.";
       ("Contacts in address book:" ++ nl
        ++ "Contact name: John, phones: 1234567890, emails: john@example.org, birthday: 15.06.1990")%string].
Proof. intros. reflexivity. Qed.

(** ** Reading a line *)

Lemma string_forall_app (p : char -> bool) (s1 s2 : string) :
  string_forall p (s1 ++ s2) = string_forall p s1 && string_forall p s2.
Proof.
  induction s1 as [|c s1 IH]; simpl; [reflexivity|].
  rewrite IH, andb_assoc. reflexivity.
Qed.

Lemma is_empty_app (s : string) (c : char) :
  is_empty (s ++ String c EmptyString) = false.
Proof. destruct s; reflexivity. Qed.

Lemma split_from_nil :
  forall s cur,
    split_from cur s = []
    <-> is_empty cur = true /\ string_forall is_space s = true.
Proof.
  induction s as [|c s IH]; intros cur; simpl.
  - destruct (is_empty cur); split; intros H; auto; try discriminate.
    destruct H; discriminate.
  - destruct (is_space c); simpl.
    + destruct (is_empty cur) eqn:E.
      * rewrite IH. simpl. tauto.
      * split; [discriminate | intros [H _]; discriminate H].
    + rewrite IH, is_empty_app. split; intros [H1 H2]; discriminate.
Qed.

Lemma split_from_words :
  forall s cur tok,
    string_forall (fun c => negb (is_space c)) cur = true ->
    In tok (split_from cur s) -> is_word tok = true.
Proof.
  induction s as [|c s IH]; intros cur tok C H; simpl in H.
  - destruct (is_empty cur) eqn:E; [contradiction|].
    destruct H as [<- | []]. unfold is_word. rewrite E, C. reflexivity.
  - destruct (is_space c) eqn:S.
    + destruct (is_empty cur) eqn:E.
      * apply (IH EmptyString tok eq_refl H).
      * destruct H as [<- | H].
        -- unfold is_word. rewrite E, C. reflexivity.
        -- apply (IH EmptyString tok eq_refl H).
    + apply (IH (cur ++ String c EmptyString)%string tok); [|exact H].
      rewrite string_forall_app, C. simpl. rewrite S. reflexivity.
Qed.

Lemma lstrip_spec (s : string) :
  if string_forall is_space s then lstrip s = EmptyString
  else exists c t, lstrip s = String c t /\ is_space c = false.
Proof.
  induction s as [|c s IH]; simpl; [reflexivity|].
  destruct (is_space c) eqn:S; simpl; [exact IH | eauto].
Qed.

Lemma strip_empty (s : string) :
  is_empty (strip s) = string_forall is_space s.
Proof.
  unfold strip. pose proof (lstrip_spec s) as L.
  destruct (string_forall is_space s).
  - rewrite L. reflexivity.
  - destruct L as (c & t & -> & S). simpl. rewrite S. reflexivity.
Qed.

Lemma lower_not_empty (lower_wide : string -> char * string) (s : string) :
  is_empty (lower lower_wide s) = is_empty s.
Proof.
  unfold lower. destruct s as [|c s]; [reflexivity|].
  destruct (is_latin1 (String c s)); [reflexivity|].
  destruct (lower_wide (String c s)); reflexivity.
Qed.

(** X15.  [parse_input] fails - with the [IndexError] of [parts[0]] -
    exactly on the lines that [strip] empties, the ones [main] answers
    itself before calling it; on any other line it returns a non-empty
    command and arguments that are words: non-empty and free of white
    space. *)
Theorem parse_input_words :
  forall (lower_wide : string -> char * string) (user_input : string),
    (parse_input lower_wide user_input = Raise (IndexError "list index out of range")
     <-> is_empty (strip user_input) = true)
    /\ (forall command args,
           parse_input lower_wide user_input = Ok (command, args) ->
           is_empty (strip user_input) = false
           /\ is_empty command = false
           /\ forall arg, In arg args -> is_word arg = true).
Proof.
  intros lower_wide user_input. rewrite strip_empty. unfold parse_input, split.
  pose proof (split_from_nil user_input EmptyString) as N.
  pose proof (split_from_words user_input EmptyString) as W.
  destruct (split_from EmptyString user_input) as [|tok toks].
  - split.
    + split; [intros _; apply N; reflexivity | reflexivity].
    + intros command args H. discriminate H.
  - split.
    + split; [discriminate|]. intros H.
      assert (K : tok :: toks = []) by (apply N; auto). discriminate K.
    + intros command args H. injection H as <- <-.
      split.
      { destruct (string_forall is_space user_input); [|reflexivity].
        assert (K : tok :: toks = []) by (apply N; auto). discriminate K. }
      split.
      { rewrite lower_not_empty.
        pose proof (W tok eq_refl (or_introl eq_refl)) as T.
        unfold is_word in T. apply andb_true_iff in T as [T _].
        apply negb_true_iff in T. exact T. }
      intros arg Ha. apply (W arg eq_refl). right; exact Ha.
Qed.

Lemma parse_input_words_witness :
  is_word "John" = true /\ is_word "1234567890" = true.
Proof.
  pose proof (proj2 (parse_input_words keep_case "  Add   John 1234567890  ")
                "add" ["John"; "1234567890"] eq_refl) as (_ & _ & H).
  split; apply H; simpl; auto.
Defined.

(** ** What can end the program *)

Lemma run_method_only_value_error (m : method) (r : Record_.t) :
  only_value_error (fst (run_method m r)).
Proof.
  destruct m; simpl.
  - rewrite add_phone_eq. destruct (ten_digits phone); exact I.
  - rewrite remove_phone_state. exact I.
  - rewrite edit_phone_state.
    destruct (has_value _ _ _); [|exact I].
    destruct (ten_digits new_phone); exact I.
  - unfold Record_.add_email, bind, lift, get, put, Email.init.
    destruct (Email._validate email); exact I.
  - rewrite remove_email_state. exact I.
  - rewrite edit_email_state.
    destruct (has_value _ _ _); [|exact I].
    destruct (Email._validate new_email); exact I.
  - unfold Record_.add_birthday, bind, lift, get, put, Birthday.init.
    unfold Datetime.strptime_dmY.
    destruct (Datetime.re_match _ _) as [[found [|c rest]]|]; try exact I.
    unfold Datetime.new.
    repeat match goal with
           | |- context [if ?b then _ else _] => destruct b; try exact I
           end.
Qed.

Lemma call_only_value_error (a : addr) (m : method) (w : World) :
  only_value_error (fst (call a (run_method m) w)).
Proof.
  unfold call. pose proof (run_method_only_value_error m (deref w a)) as H.
  destruct (run_method m (deref w a)) as [res r']. exact H.
Qed.

Lemma input_error_returns (func : list string -> M World string) args w :
  only_value_error (fst (func args w)) ->
  exists text, fst (input_error func args w) = Ok text.
Proof.
  unfold input_error. destruct (func args w) as [[text|[]] w']; simpl;
    intros H; try contradiction; eauto.
Qed.

Lemma find_call_only_value_error (name : string) (m : method) (s1 s2 : string)
  (w : World) :
  only_value_error
    (fst ((found <- AddressBook.find name ;;
           match found with
           | Some record => call record (run_method m) ;;; ret s1
           | None => ret s2
           end) w)).
Proof.
  unfold bind at 1. unfold AddressBook.find.
  destruct (Dict.get name (data w)) as [a|]; [|exact I].
  unfold bind, ret. pose proof (call_only_value_error a m w) as H.
  destruct (call a (run_method m) w) as [[u|e] w']; [exact I | exact H].
Qed.

Lemma add_contact_returns args w :
  exists text, fst (add_contact args w) = Ok text.
Proof.
  apply input_error_returns. unfold add_contact_func.
  destruct args as [|name [|phone rest]]; try exact I.
  unfold bind at 1. unfold AddressBook.find.
  destruct (Dict.get name (data w)) as [a|].
  - unfold bind at 1. unfold ret at 1. unfold bind, when, ret.
    destruct (negb (is_empty phone)); [|exact I].
    pose proof (call_only_value_error a (call_add_phone phone) w) as H.
    change (run_method (call_add_phone phone)) with (Record_.add_phone phone) in H.
    destruct (call a (Record_.add_phone phone) w) as [[u|e] w']; [exact I | exact H].
  - unfold bind at 1. unfold bind at 1. unfold new_record at 1.
    unfold bind at 1. unfold AddressBook.add_record at 1. unfold ret at 1.
    unfold bind, when, ret.
    destruct (negb (is_empty phone)); [|exact I].
    match goal with
    | |- context [call ?a0 _ ?w1] =>
        pose proof (call_only_value_error a0 (call_add_phone phone) w1) as H;
        change (run_method (call_add_phone phone))
          with (Record_.add_phone phone) in H;
        destruct (call a0 (Record_.add_phone phone) w1) as [[u|e] w'];
        [exact I | exact H]
    end.
Qed.

Lemma change_phone_returns args w :
  exists text, fst (change_phone args w) = Ok text.
Proof.
  apply input_error_returns. unfold change_phone_func.
  destruct args as [|name [|o [|n [|x rest]]]]; try exact I.
  apply (find_call_only_value_error name (call_edit_phone o n)).
Qed.

Lemma change_email_returns args w :
  exists text, fst (change_email args w) = Ok text.
Proof.
  apply input_error_returns. unfold change_email_func.
  destruct args as [|name [|o [|n [|x rest]]]]; try exact I.
  apply (find_call_only_value_error name (call_edit_email o n)).
Qed.

Lemma add_email_returns args w :
  exists text, fst (add_email args w) = Ok text.
Proof.
  apply input_error_returns. unfold add_email_func.
  destruct args as [|name [|email rest]]; try exact I.
  apply (find_call_only_value_error name (call_add_email email)).
Qed.

Lemma add_birthday_returns args w :
  exists text, fst (add_birthday args w) = Ok text.
Proof.
  apply input_error_returns. unfold add_birthday_func.
  destruct args as [|name [|b [|x rest]]]; try exact I.
  apply (find_call_only_value_error name (call_add_birthday b)).
Qed.

Lemma list_contacts_returns args w :
  exists text, fst (list_contacts args w) = Ok text.
Proof.
  apply input_error_returns. unfold list_contacts_func, bind, get, ret.
  destruct (data w); exact I.
Qed.

Lemma show_returns (k : addr -> M World string) (name : string) (s2 : string)
  (w : World) :
  (forall a w0, exists text, fst (k a w0) = Ok text) ->
  exists text,
    fst ((found <- AddressBook.find name ;;
          match found with
          | Some record => k record
          | None => ret s2
          end) w) = Ok text.
Proof.
  intros K. unfold bind at 1. unfold AddressBook.find.
  destruct (Dict.get name (data w)) as [a|]; [apply K | simpl; eauto].
Qed.

Lemma show_phone_result args w :
  match args with
  | [] => show_phone args w = (Raise (IndexError "list index out of range"), w)
  | _ :: _ => exists text, fst (show_phone args w) = Ok text
  end.
Proof.
  destruct args as [|name rest]; [reflexivity|].
  unfold show_phone, input_error, show_phone_func.
  destruct (show_returns
              (fun record => w0 <- get ;;
                 ret (name ++ "'s phones: "
                      ++ join ", " (map Phone.value
                                      (Record_.phones (deref w0 record))))%string)
              name ("Contact " ++ name ++ " not found.")%string w) as [text H].
  { intros a w0. simpl. eauto. }
  match goal with
  | |- context [match ?x with _ => _ end] =>
      destruct x as [[t|e] w']; simpl in H; [eauto | discriminate H]
  end.
Qed.

Lemma show_email_result args w :
  match args with
  | [] => show_email args w = (Raise (IndexError "list index out of range"), w)
  | _ :: _ => exists text, fst (show_email args w) = Ok text
  end.
Proof.
  destruct args as [|name rest]; [reflexivity|].
  unfold show_email, input_error, show_email_func.
  destruct (show_returns
              (fun record => w0 <- get ;;
                 ret (name ++ "'s emails: "
                      ++ join ", " (map Email.value
                                      (Record_.emails (deref w0 record))))%string)
              name ("Contact " ++ name ++ " not found.")%string w) as [text H].
  { intros a w0. simpl. eauto. }
  match goal with
  | |- context [match ?x with _ => _ end] =>
      destruct x as [[t|e] w']; simpl in H; [eauto | discriminate H]
  end.
Qed.

Lemma show_birthday_result args w :
  match args with
  | [] => show_birthday args w = (Raise (IndexError "list index out of range"), w)
  | _ :: _ => exists text, fst (show_birthday args w) = Ok text
  end.
Proof.
  destruct args as [|name rest]; [reflexivity|].
  unfold show_birthday, input_error, show_birthday_func.
  destruct (show_returns
              (fun record => w0 <- get ;;
                 match Record_.birthday (deref w0 record) with
                 | Some b =>
                     ret (name ++ "'s birthday is on "
                          ++ Datetime.strftime_dmY (Birthday.value b) ++ ".")%string
                 | None => ret ("Birthday not set for contact " ++ name ++ ".")%string
                 end)
              name ("Contact " ++ name ++ " not found.")%string w) as [text H].
  { intros a w0. unfold bind, get.
    destruct (Record_.birthday (deref w0 a)); simpl; eauto. }
  match goal with
  | |- context [match ?x with _ => _ end] =>
      destruct x as [[t|e] w']; simpl in H; [eauto | discriminate H]
  end.
Qed.

Lemma upcoming_loop_raises today days w :
  forall values upcoming e w',
    AddressBook.upcoming_loop today days values upcoming w = (Raise e, w') ->
    (exists msg, e = ValueError msg) \/ (exists msg, e = OverflowError msg).
Proof.
  induction values as [|r values IH]; intros upcoming e w' H; [discriminate H|].
  simpl in H. unfold bind at 1 in H. unfold get in H.
  destruct (Record_.birthday (deref w r)) as [b|]; [|apply (IH _ _ _ H)].
  unfold bind at 1 in H. unfold lift at 1 in H.
  destruct (Datetime.replace_year _ _) as [next|e0] eqn:R.
  - destruct (Datetime.le today next); [|apply (IH _ _ _ H)].
    unfold bind at 1 in H. unfold lift at 1 in H.
    unfold Datetime.timedelta_days in H.
    destruct (negb _); [injection H as <- _; right; eauto|].
    destruct (_ >? _)%Z; [injection H as <- _; right; eauto|].
    unfold bind at 1 in H. unfold lift at 1 in H.
    unfold Datetime.add_days in H.
    destruct (_ && _); [|injection H as <- _; right; eauto].
    destruct (Datetime._ord2ymd _) as [[y m] d].
    destruct (Datetime.le next _); apply (IH _ _ _ H).
  - injection H as <- _. left.
    unfold Datetime.replace_year, Datetime.new in R.
    repeat match type of R with
           | (if ?b then _ else _) = _ => destruct b; [injection R as <-; eauto|]
           end.
    discriminate R.
Qed.

Lemma birthday_lines_return (w : World) :
  forall l,
    (forall a, In a l -> Record_.birthday (deref w a) <> None) ->
    exists lines, mapM birthday_line l w = (Ok lines, w).
Proof.
  intros l. induction l as [|a l IH]; intros H; [exists []; reflexivity|].
  assert (IH' : exists lines, mapM birthday_line l w = (Ok lines, w)).
  { apply IH. intros b Hb. apply H. right. exact Hb. }
  destruct IH' as [lines E].
  simpl. unfold bind at 1. unfold birthday_line at 1. unfold bind at 1, get at 1.
  destruct (Record_.birthday (deref w a)) as [b|] eqn:B.
  - unfold ret at 1. unfold bind. rewrite E. simpl. unfold ret. eauto.
  - exfalso. apply (H a (or_introl eq_refl)). exact B.
Qed.

Lemma birthdays_raises int today args w e w' :
  birthdays int today args w = (Raise e, w') ->
  (exists arg rest, args = arg :: rest /\ int arg = Raise e)
  \/ (exists msg, e = OverflowError msg).
Proof.
  unfold birthdays, input_error, birthdays_func. unfold bind at 1.
  assert (K : forall days r,
             (upcoming_birthdays <-
                AddressBook.get_upcoming_birthdays today days ;;
              match upcoming_birthdays with
              | [] => ret "No upcoming birthdays within the next week."
              | _ :: _ =>
                  lines <- mapM birthday_line upcoming_birthdays ;;
                  ret (join nl ("Upcoming birthdays:" :: lines))
              end) w = r ->
             match r with
             | (Ok _, _) => True
             | (Raise e0, _) =>
                 (exists msg, e0 = ValueError msg)
                 \/ (exists msg, e0 = OverflowError msg)
             end).
  { intros days r <-. unfold bind at 1.
    destruct (AddressBook.get_upcoming_birthdays today days w) as [[l|e0] w0] eqn:G.
    - pose proof (state_get_upcoming_birthdays today days w) as S.
      rewrite G in S. simpl in S. subst w0.
      destruct l as [|a l]; [exact I|].
      destruct (birthday_lines_return w (a :: l)) as [lines L].
      { intros b Hb.
        rewrite (get_upcoming_birthdays_filter today days w _ _ G) in Hb.
        apply filter_In in Hb as [_ T]. unfold in_window in T.
        destruct (Record_.birthday (deref w b)); [discriminate | discriminate T]. }
      unfold bind. rewrite L. exact I.
    - unfold AddressBook.get_upcoming_birthdays, bind, get in G.
      exact (upcoming_loop_raises today days w _ _ _ _ G). }
  destruct args as [|arg rest].
  - unfold ret at 1. intros H.
    match type of H with
    | match ?x with _ => _ end = _ =>
        pose proof (K 7%Z x eq_refl) as Kx; destruct x as [[t|e0] w0]
    end.
    + discriminate H.
    + destruct Kx as [[msg ->] | [msg ->]]; [discriminate H|].
      injection H as <- _. right; eauto.
  - unfold lift at 1. destruct (int arg) as [days|e0] eqn:I0.
    + intros H.
      match type of H with
      | match ?x with _ => _ end = _ =>
          pose proof (K days x eq_refl) as Kx; destruct x as [[t|e1] w0]
      end.
      * discriminate H.
      * destruct Kx as [[msg ->] | [msg ->]]; [discriminate H|].
        injection H as <- _. right; eauto.
    + intros H. left. exists arg, rest. split; [reflexivity|].
      destruct e0; try discriminate H; injection H as <- _; exact I0.
Qed.

(** X16.  What can end the program at the prompt.  A turn of the loop
    crashes only in two ways: [phone], [show-email] or [show-birthday]
    typed without a name (the [IndexError] of [args[0]]), and [birthdays],
    with an exception of [int] that is not a [ValueError] or with an
    [OverflowError] of the window.  Nothing is printed then and the book
    is as it was.  So [add], [change], [add-email], [change-email],
    [add-birthday], [all], [hello], an unknown command or a blank line
    never end the program, whatever their arguments. *)
Theorem crashes_at_the_prompt :
  forall (int : string -> result Z)
         (lower_wide : string -> char * string)
         (today : Datetime.t) (user_input : string)
         (w w' : World) (out : list string) (e : exn),
    step int lower_wide today user_input w = (out, Crashed e, w') ->
    out = [] /\ w' = w
    /\ exists command args,
        parse_input lower_wide user_input = Ok (command, args)
        /\ ((args = [] /\ e = IndexError "list index out of range"
             /\ (command = "phone" \/ command = "show-email"
                 \/ command = "show-birthday"))
            \/ (command = "birthdays"
                /\ ((exists arg rest, args = arg :: rest /\ int arg = Raise e)
                    \/ exists msg, e = OverflowError msg))).
Proof.
  intros int lower_wide today user_input w w' out e. unfold step.
  destruct (is_empty (strip user_input)) eqn:S; [discriminate|].
  destruct (parse_input lower_wide user_input) as [[command args]|e0] eqn:P.
  2:{ exfalso. unfold parse_input in P.
      destruct (split user_input) eqn:Sp; [|discriminate P].
      apply (proj1 (split_from_nil user_input EmptyString)) in Sp.
      destruct Sp as [_ Sp]. rewrite strip_empty, Sp in S. discriminate S. }
  assert (OK : forall m : M World string,
             (exists text, fst (m w) = Ok text) ->
             print_result m w = (out, Crashed e, w') -> False).
  { intros m [text H]. unfold print_result.
    destruct (m w) as [[t|e1] w1]; simpl in H; [discriminate | discriminate H]. }
  assert (SH : forall (m : list string -> M World string),
             match args with
             | [] => m args w = (Raise (IndexError "list index out of range"), w)
             | _ :: _ => exists text, fst (m args w) = Ok text
             end ->
             print_result (m args) w = (out, Crashed e, w') ->
             out = [] /\ w' = w /\ args = []
             /\ e = IndexError "list index out of range").
  { intros m H Hp. destruct args as [|a rest].
    - unfold print_result in Hp. rewrite H in Hp. injection Hp as <- <- <-. auto.
    - exfalso. exact (OK (m (a :: rest)) H Hp). }
  destruct (String.eqb command "close" || String.eqb command "exit");
    [discriminate|].
  destruct (String.eqb command "hello"); [discriminate|].
  destruct (String.eqb command "add");
    [intros H; exfalso; exact (OK _ (add_contact_returns args w) H)|].
  destruct (String.eqb command "change");
    [intros H; exfalso; exact (OK _ (change_phone_returns args w) H)|].
  destruct (string_eqb_spec command "phone") as [->|_].
  { intros H. destruct (SH show_phone (show_phone_result args w) H)
      as (-> & -> & -> & ->).
    repeat split. exists "phone", []. split; [reflexivity|]. left. auto. }
  destruct (String.eqb command "add-email");
    [intros H; exfalso; exact (OK _ (add_email_returns args w) H)|].
  destruct (String.eqb command "change-email");
    [intros H; exfalso; exact (OK _ (change_email_returns args w) H)|].
  destruct (string_eqb_spec command "show-email") as [->|_].
  { intros H. destruct (SH show_email (show_email_result args w) H)
      as (-> & -> & -> & ->).
    repeat split. exists "show-email", []. split; [reflexivity|]. left. auto. }
  destruct (String.eqb command "all");
    [intros H; exfalso; exact (OK _ (list_contacts_returns args w) H)|].
  destruct (String.eqb command "add-birthday");
    [intros H; exfalso; exact (OK _ (add_birthday_returns args w) H)|].
  destruct (string_eqb_spec command "show-birthday") as [->|_].
  { intros H. destruct (SH show_birthday (show_birthday_result args w) H)
      as (-> & -> & -> & ->).
    repeat split. exists "show-birthday", []. split; [reflexivity|]. left. auto. }
  destruct (string_eqb_spec command "birthdays") as [->|_]; [|discriminate].
  intros H. unfold print_result in H.
  destruct (birthdays int today args w) as [[t|e1] w1] eqn:B; [discriminate H|].
  injection H as <- <- <-.
  pose proof (state_birthdays int today args w) as St. rewrite B in St.
  simpl in St. subst w1.
  repeat split. exists "birthdays", args. split; [reflexivity|]. right.
  split; [reflexivity|]. exact (birthdays_raises int today args w e1 w B).
Qed.

Lemma crashes_at_the_prompt_witness :
  step (fun _ => Ok 7%Z) keep_case (Datetime.mk 2026 11 3 12 0 0 0)
    "show-birthday" empty_world
  = ([], Crashed (IndexError "list index out of range"), empty_world)
  /\ exists command args,
      parse_input keep_case "show-birthday" = Ok (command, args)
      /\ ((args = []
           /\ IndexError "list index out of range"
              = IndexError "list index out of range"
           /\ (command = "phone" \/ command = "show-email"
               \/ command = "show-birthday"))
          \/ (command = "birthdays"
              /\ ((exists arg rest,
                      args = arg :: rest
                      /\ (fun _ : string => Ok 7%Z) arg
                         = Raise (IndexError "list index out of range"))
                  \/ exists msg, IndexError "list index out of range"
                                 = OverflowError msg))).
Proof.
  split; [reflexivity|].
  exact (proj2 (proj2 (crashes_at_the_prompt (fun _ => Ok 7%Z) keep_case
                         (Datetime.mk 2026 11 3 12 0 0 0) "show-birthday"
                         empty_world empty_world []
                         (IndexError "list index out of range") eq_refl))).
Defined.

(** ** Contacts stay in the book *)

Lemma data_find_call (name : string) (m : M Record_.t unit) (s1 s2 : string)
  (w : World) :
  data (snd ((found <- AddressBook.find name ;;
              match found with
              | Some record => call record m ;;; ret s1
              | None => ret s2
              end) w)) = data w.
Proof.
  rewrite state_of_find_call.
  destruct (Dict.get name (data w)) as [a|]; [apply data_call | reflexivity].
Qed.

Lemma deref_new_record (name : string) (w : World) :
  deref (snd (new_record name w)) (List.length (heap w)) = Record_.init name.
Proof.
  unfold deref, new_record. simpl.
  rewrite app_nth2, Nat.sub_diag by lia. reflexivity.
Qed.

Lemma data_add_contact args w :
  data (snd (add_contact args w)) = data w
  \/ exists name,
      Dict.get name (data w) = None
      /\ data (snd (add_contact args w))
         = data w ++ [(name, List.length (heap w))].
Proof.
  destruct args as [|name [|phone rest]];
    try (left; unfold add_contact; rewrite snd_input_error; reflexivity).
  rewrite add_contact_state.
  destruct (Dict.get name (data w)) as [a|] eqn:G.
  - left. destruct (is_empty phone); [reflexivity | apply data_call].
  - right. exists name. split; [exact G|]. cbv zeta.
    assert (E : data (snd (AddressBook.add_record (List.length (heap w))
                             (snd (new_record name w))))
                = data w ++ [(name, List.length (heap w))]).
    { unfold AddressBook.add_record. cbn [snd data].
      rewrite deref_new_record. cbn [new_record snd data].
      apply dict_set_absent. exact G. }
    destruct (is_empty phone); [exact E|].
    rewrite (proj1 (data_call _ _ _)). exact E.
Qed.

Lemma data_step int lower_wide today user_input w :
  let w' := snd (step int lower_wide today user_input w) in
  data w' = data w
  \/ exists name,
      Dict.get name (data w) = None
      /\ data w' = data w ++ [(name, List.length (heap w))].
Proof.
  cbv zeta. unfold step.
  destruct (is_empty (strip user_input)); [left; reflexivity|].
  destruct (parse_input lower_wide user_input) as [[command args]|e]; [|left; reflexivity].
  repeat match goal with
         | |- context [if ?b then _ else _] => destruct b
         end;
    try (left; reflexivity); rewrite snd_print_result;
    first [ apply data_add_contact
          | left;
            first [ rewrite state_show_phone; reflexivity
                  | rewrite state_show_email; reflexivity
                  | rewrite state_show_birthday; reflexivity
                  | rewrite state_list_contacts; reflexivity
                  | rewrite state_birthdays; reflexivity
                  | idtac ] ].
  - unfold change_phone. rewrite snd_input_error.
    destruct args as [|name [|o [|n [|x rest]]]]; try reflexivity.
    apply data_find_call.
  - unfold add_email. rewrite snd_input_error.
    destruct args as [|name [|email rest]]; try reflexivity.
    apply data_find_call.
  - unfold change_email. rewrite snd_input_error.
    destruct args as [|name [|o [|n [|x rest]]]]; try reflexivity.
    apply data_find_call.
  - unfold add_birthday. rewrite snd_input_error.
    destruct args as [|name [|b [|x rest]]]; try reflexivity.
    apply data_find_call.
Qed.

Lemma dict_get_app {V : Type} (k : string) (v : V) :
  forall d d', Dict.get k d = Some v -> Dict.get k (d ++ d') = Some v.
Proof.
  induction d as [|[k' v'] d IH]; simpl; intros d' H; [discriminate|].
  destruct (String.eqb k k'); [exact H | apply IH; exact H].
Qed.

(** X17.  No command removes a contact or makes its name lead to
    another record: after any lines typed, the dictionary of the book is
    the one before followed by the entries of the contacts added since,
    so every name of the book still leads to the same object and the
    order of the listing is kept.  ([AddressBook.delete] is never
    called from the prompt.) *)
Theorem contacts_are_never_removed :
  forall (int : string -> result Z)
         (lower_wide : string -> char * string)
         (inputs : list (Datetime.t * string))
         (w : World),
    let w' := snd (main_loop int lower_wide inputs w) in
    exists added,
      data w' = data w ++ added
      /\ forall name a,
          Dict.get name (data w) = Some a -> Dict.get name (data w') = Some a.
Proof.
  intros int lower_wide inputs w. cbv zeta.
  assert (E : exists added, data (snd (main_loop int lower_wide inputs w)) = data w ++ added).
  { revert w. induction inputs as [|[today line] inputs IH]; intros w.
    - exists []. simpl. rewrite app_nil_r. reflexivity.
    - simpl. pose proof (data_step int lower_wide today line w) as S. cbv zeta in S.
      destruct (step int lower_wide today line w) as [[out st] w1]. cbn [snd] in S.
      assert (S' : exists added, data w1 = data w ++ added).
      { destruct S as [S | (name & _ & S)]; rewrite S;
          [exists []; rewrite app_nil_r; reflexivity | eauto]. }
      destruct st; try exact S'.
      destruct (IH w1) as [added2 E2]. destruct S' as [added1 E1].
      destruct (main_loop int lower_wide inputs w1) as [[out' st'] w2]. cbn [snd] in *.
      exists (added1 ++ added2). rewrite E2, E1, app_assoc. reflexivity. }
  destruct E as [added E]. exists added. split; [exact E|].
  intros name a G. rewrite E. apply dict_get_app. exact G.
Qed.

Lemma contacts_are_never_removed_witness :
  Dict.get "John"
    (data (snd (main_loop (fun _ => Ok 7%Z) keep_case
                  [(Datetime.mk 2026 11 3 12 0 0 0, "add Ann 0987654321");
                   (Datetime.mk 2026 11 3 12 0 0 0, "change John 1234567890 1")]
                  (mkWorld [Record_.init "John"] [("John", 0)]))))
  = Some 0.
Proof.
  destruct (contacts_are_never_removed (fun _ => Ok 7%Z) keep_case
              [(Datetime.mk 2026 11 3 12 0 0 0, "add Ann 0987654321");
               (Datetime.mk 2026 11 3 12 0 0 0, "change John 1234567890 1")]
              (mkWorld [Record_.init "John"] [("John", 0)]))
    as (added & _ & K).
  apply K. reflexivity.
Defined.

(** ** [add] and [change] in closed form *)

Lemma heap_set_last (r x : Record_.t) :
  forall h, heap_set (List.length h) r (h ++ [x]) = h ++ [r].
Proof.
  induction h as [|y h IH]; simpl; [reflexivity | rewrite IH; reflexivity].
Qed.

Lemma heap_set_same (d : Record_.t) :
  forall h a, heap_set a (nth a h d) h = h.
Proof.
  induction h as [|y h IH]; intros a; [destruct a; reflexivity|].
  destruct a as [|a]; simpl; [reflexivity | rewrite IH; reflexivity].
Qed.

Lemma with_object_same (a : addr) (w : World) : with_object a (deref w a) w = w.
Proof.
  unfold with_object, deref. rewrite heap_set_same. destruct w; reflexivity.
Qed.

Lemma call_with_object {A : Type} (a : addr) (m : M Record_.t A) (w : World) :
  call a m w = (fst (m (deref w a)), with_object a (snd (m (deref w a))) w).
Proof.
  unfold call, with_object. destruct (m (deref w a)); reflexivity.
Qed.

(** X18.  [add name phone] for a name that is not in the book creates
    the contact before the phone is checked: with a phone that is not
    ten digits the handler prints the message of [Phone], and the
    contact is in the book all the same, without a phone, as [phone
    name] then shows. *)
Theorem add_with_invalid_phone_creates_the_contact :
  forall (name phone : string) (rest : list string) (w : World),
    Dict.get name (data w) = None ->
    is_empty phone = false ->
    ten_digits phone = false ->
    let w' := mkWorld (heap w ++ [Record_.init name])
                (data w ++ [(name, List.length (heap w))]) in
    add_contact (name :: phone :: rest) w
    = (Ok "Invalid phone number format. It should be 10 digits.", w')
    /\ show_phone [name] w' = (Ok (name ++ "'s phones: ")%string, w').
Proof.
  intros name phone rest w G E T. cbv zeta. split.
  - unfold add_contact, input_error, add_contact_func.
    unfold bind at 1. unfold AddressBook.find. rewrite G.
    unfold bind at 1. unfold bind at 1. unfold new_record at 1.
    unfold bind at 1. unfold AddressBook.add_record at 1. unfold ret at 1.
    unfold bind, when. rewrite E. cbn [negb].
    rewrite call_with_object, add_phone_eq, T. cbn [fst snd].
    rewrite with_object_same.
    change (deref _ (List.length (heap w)))
      with (deref (snd (new_record name w)) (List.length (heap w))).
    rewrite deref_new_record.
    apply f_equal. apply f_equal2; [reflexivity|].
    exact (dict_set_absent name (List.length (heap w)) (data w) G).
  - unfold show_phone, input_error, show_phone_func.
    unfold bind at 1. unfold AddressBook.find. cbn [data].
    assert (K : Dict.get name (data w ++ [(name, List.length (heap w))])
                = Some (List.length (heap w))).
    { pose proof (dict_get_set_same name (List.length (heap w)) (data w)) as K0.
      rewrite (dict_set_absent name (List.length (heap w)) (data w) G) in K0.
      exact K0. }
    rewrite K. unfold bind, get, ret, deref. cbn [heap].
    rewrite app_nth2, Nat.sub_diag by lia. reflexivity.
Qed.

Lemma add_with_invalid_phone_creates_the_contact_witness :
  add_contact ["John"; "12345"] empty_world
  = (Ok "Invalid phone number format. It should be 10 digits.",
     mkWorld [Record_.init "John"] [("John", 0)])
  /\ show_phone ["John"] (mkWorld [Record_.init "John"] [("John", 0)])
     = (Ok "John's phones: ", mkWorld [Record_.init "John"] [("John", 0)]).
Proof.
  exact (add_with_invalid_phone_creates_the_contact "John" "12345" []
           empty_world eq_refl eq_refl eq_refl).
Defined.



(** ** A birthday set and shown *)

Lemma digit_value (c : char) :
  is_digit c = true ->
  Datetime.digit (Z.of_N c - 48) = c /\ (0 <= Z.of_N c - 48 < 10)%Z.
Proof.
  intros H. apply is_digit_cases in H.
  repeat (destruct H as [<- | H]; [split; [reflexivity | cbn; lia]|]).
  contradiction.
Qed.

Lemma pad2_int_group (a b : char) :
  is_digit a = true -> is_digit b = true ->
  Datetime.pad2 (Datetime.int_group (String a (String b EmptyString)))
  = String a (String b EmptyString).
Proof.
  intros Ha Hb. unfold Datetime.int_group. cbn [Datetime.int_digits].
  rewrite (decimal_of_digit a Ha), (decimal_of_digit b Hb).
  destruct (digit_value a Ha) as [Da Ra]. destruct (digit_value b Hb) as [Db Rb].
  set (x := (Z.of_N a - 48)%Z) in *.
  set (y := (Z.of_N b - 48)%Z) in *.
  unfold Datetime.pad2.
  replace (((0 * 10 + x) * 10 + y) / 10 mod 10)%Z with x
    by (Z.div_mod_to_equations; lia).
  replace (((0 * 10 + x) * 10 + y) mod 10)%Z with y
    by (Z.div_mod_to_equations; lia).
  rewrite Da, Db. reflexivity.
Qed.

Lemma pad4_int_group (a b c d : char) :
  is_digit a = true -> is_digit b = true ->
  is_digit c = true -> is_digit d = true ->
  pad4 (Datetime.int_group (String a (String b (String c (String d EmptyString)))))
  = String a (String b (String c (String d EmptyString))).
Proof.
  intros Ha Hb Hc Hd. unfold Datetime.int_group. cbn [Datetime.int_digits].
  rewrite (decimal_of_digit a Ha), (decimal_of_digit b Hb),
    (decimal_of_digit c Hc), (decimal_of_digit d Hd).
  destruct (digit_value a Ha) as [Da Ra]. destruct (digit_value b Hb) as [Db Rb].
  destruct (digit_value c Hc) as [Dc Rc]. destruct (digit_value d Hd) as [Dd Rd].
  set (x := (Z.of_N a - 48)%Z) in *.
  set (y := (Z.of_N b - 48)%Z) in *.
  set (z := (Z.of_N c - 48)%Z) in *.
  set (t := (Z.of_N d - 48)%Z) in *.
  unfold pad4, Datetime.pad2.
  set (n := ((((0 * 10 + x) * 10 + y) * 10 + z) * 10 + t)%Z).
  replace (n / 1000 mod 10)%Z with x by (subst n; Z.div_mod_to_equations; lia).
  replace (n / 100 mod 10)%Z with y by (subst n; Z.div_mod_to_equations; lia).
  replace (n / 10 mod 10)%Z with z by (subst n; Z.div_mod_to_equations; lia).
  replace (n mod 10)%Z with t by (subst n; Z.div_mod_to_equations; lia).
  rewrite Da, Db, Dc, Dd. reflexivity.
Qed.

(** A text in the strict shape is its day and month on two digits and
    its year on four. *)
Lemma padded_of_strict (v : string) :
  strict_DD_MM_YYYY v = true ->
  (Datetime.pad2 (strict_day v) ++ "." ++ Datetime.pad2 (strict_month v) ++ "."
   ++ pad4 (strict_year v))%string = v.
Proof.
  intros H. unfold strict_DD_MM_YYYY in H.
  destruct v as [|d1 [|d2 [|p1 [|m1 [|m2 [|p2 [|y1 [|y2 [|y3 [|y4 [|? ?]]]]]]]]]]];
    try discriminate H.
  do 9 (apply andb_true_iff in H; destruct H as [H ?]).
  repeat match goal with
         | E : Char.eqb "." ?c = true |- _ => apply char_eqb_eq in E; subst c
         end.
  unfold strict_year, strict_month, strict_day.
  unfold substring; cbn [take skip].
  rewrite pad2_int_group, pad2_int_group, pad4_int_group by assumption.
  reflexivity.
Qed.

(** For a text in the strict shape whose year is 1000 or later,
    [strftime] of the date read is the text itself. *)
Lemma strftime_dmY_of_strict (v : string) (h mi s us : Z) :
  strict_DD_MM_YYYY v = true ->
  (1000 <= strict_year v <= 9999)%Z ->
  Datetime.strftime_dmY
    (Datetime.mk (strict_year v) (strict_month v) (strict_day v) h mi s us) = v.
Proof.
  intros H Y. unfold Datetime.strftime_dmY.
  cbn [Datetime.day Datetime.month Datetime.year].
  rewrite str_int_pad4 by exact Y. apply padded_of_strict. exact H.
Qed.

Lemma wf_get_in_range (w : World) (name : string) (a : addr) :
  wf w -> Dict.get name (data w) = Some a -> a < List.length (heap w).
Proof.
  intros [_ W] G. exact (proj1 (W name a (dict_get_in name a (data w) G))).
Qed.

(** X20.  [add-birthday] then [show-birthday], for a contact of the
    book and a value that [Birthday] accepts: the first answers
    [Birthday added for contact ...] and sets the birthday of that
    contact only; the second then shows a text that gives the day and
    the month of the birthday on two digits and its year as a number.
    That text is the one typed when the value typed was in the strict
    shape [DD.MM.YYYY] with a year from 1000 on (a value typed
    [1.2.2020] is shown as [01.02.2020]); for an earlier year it is not
    in the strict shape (a value typed [01.01.0999] is shown as
    [01.01.999]). *)
Theorem add_birthday_then_show_birthday :
  forall (name value : string) (b : Birthday.t) (w : World) (a : addr),
    wf w ->
    Dict.get name (data w) = Some a ->
    Birthday.init value = Ok b ->
    let dt := Birthday.value b in
    let w' := with_object a (Record_.set_birthday (Some b) (deref w a)) w in
    add_birthday [name; value] w
    = (Ok ("Birthday added for contact " ++ name ++ ".")%string, w')
    /\ exists text : string,
        show_birthday [name] w'
        = (Ok (name ++ "'s birthday is on " ++ text ++ ".")%string, w')
        /\ date_text text (Datetime.year dt) (Datetime.month dt) (Datetime.day dt)
           = true
        /\ (strict_DD_MM_YYYY value = true -> (1000 <= Datetime.year dt)%Z ->
            text = value)
        /\ ((Datetime.year dt < 1000)%Z -> strict_DD_MM_YYYY text = false).
Proof.
  intros name value b w a W G B. cbv zeta. split.
  - unfold add_birthday, input_error, add_birthday_func.
    unfold bind at 1. unfold AddressBook.find. rewrite G.
    unfold bind, ret. rewrite call_with_object.
    unfold Record_.add_birthday, bind, lift, get, put. rewrite B. reflexivity.
  - exists (Datetime.strftime_dmY (Birthday.value b)).
    destruct (Birthday_init_midnight value b B) as (y & m & d & E & C).
    pose proof (calendar_date_bounds y m d C) as (Hy & Hm & Hd).
    split; [|split; [|split]].
    + unfold show_birthday, input_error, show_birthday_func.
      unfold bind at 1. unfold AddressBook.find.
      change (data (with_object a _ w)) with (data w). rewrite G.
      unfold bind, get, ret.
      assert (D : deref (with_object a (Record_.set_birthday (Some b) (deref w a))
                           w) a
                  = Record_.set_birthday (Some b) (deref w a)).
      { unfold deref, with_object. cbn [heap].
        apply nth_heap_set_same. exact (wf_get_in_range w name a W G). }
      rewrite D. reflexivity.
    + apply strftime_dmY_date_text. rewrite E. exact C.
    + intros S L. rewrite (Birthday_init_strict value S) in B.
      destruct (calendar_date _ _ _) eqn:C'; [|discriminate B].
      injection B as <-. cbn [Birthday.value Datetime.year] in L.
      apply calendar_date_bounds in C'.
      apply strftime_dmY_of_strict; [exact S | lia].
    + intros L. rewrite E in *. cbn [Datetime.year] in L.
      rewrite strftime_dmY_strict by (cbn [Datetime.year]; lia).
      cbn [Datetime.year]. apply Z.leb_gt. exact L.
Qed.

Lemma add_birthday_then_show_birthday_witness :
  let w := mkWorld [Record_.init "John"] [("John", 0)] in
  let b := Birthday.mk (Datetime.mk 999 1 1 0 0 0 0) in
  let w' := mkWorld [Record_.set_birthday (Some b) (Record_.init "John")]
              [("John", 0)] in
  add_birthday ["John"; "01.01.0999"] w
  = (Ok "Birthday added for contact John.", w')
  /\ show_birthday ["John"] w' = (Ok "John's birthday is on 01.01.999.", w').
Proof.
  cbv zeta.
  assert (W : wf (mkWorld [Record_.init "John"] [("John", 0)])).
  { split; cbn.
    - constructor; [intros [] | constructor].
    - intros k a [E | []]. injection E as <- <-. split; [lia | reflexivity]. }
  split.
  - exact (proj1 (add_birthday_then_show_birthday "John" "01.01.0999"
                    (Birthday.mk (Datetime.mk 999 1 1 0 0 0 0))
                    (mkWorld [Record_.init "John"] [("John", 0)]) 0
                    W eq_refl eq_refl)).
  - reflexivity.
Defined.

(** ** A name that is not in the book *)

(** X21.  Every handler that takes a name looks the contact up before
    anything else: for a name that is not in the book it answers
    [Contact ... not found.] and leaves the book as it is, whatever the
    other arguments are, valid or not.  Only [add] creates the
    contact. *)
Theorem contact_not_found :
  forall (name : string) (w : World),
    Dict.get name (data w) = None ->
    let answer := (Ok ("Contact " ++ name ++ " not found.")%string, w) in
    (forall old_phone new_phone,
        change_phone [name; old_phone; new_phone] w = answer)
    /\ (forall rest, show_phone (name :: rest) w = answer)
    /\ (forall email rest, add_email (name :: email :: rest) w = answer)
    /\ (forall old_email new_email,
           change_email [name; old_email; new_email] w = answer)
    /\ (forall rest, show_email (name :: rest) w = answer)
    /\ (forall birthday, add_birthday [name; birthday] w = answer)
    /\ (forall rest, show_birthday (name :: rest) w = answer).
Proof.
  intros name w G. cbv zeta.
  repeat split; intros;
    unfold change_phone, show_phone, add_email, change_email, show_email,
      add_birthday, show_birthday, input_error,
      change_phone_func, show_phone_func, add_email_func, change_email_func,
      show_email_func, add_birthday_func, show_birthday_func;
    unfold bind at 1; unfold AddressBook.find; rewrite G; reflexivity.
Qed.

Lemma contact_not_found_witness :
  add_email ["Ghost"; "not-an-email"] empty_world
  = (Ok "Contact Ghost not found.", empty_world).
Proof.
  exact (proj1 (proj2 (proj2 (contact_not_found "Ghost" empty_world eq_refl)))
           "not-an-email" []).
Defined.

(** ** Commands that only read *)

(** X22.  Only [add], [change], [add-email], [change-email] and
    [add-birthday] can change the book or a record: a turn of the loop
    on any other line - a query, [hello], [close], [exit], an unknown
    command, a blank line - leaves the whole state as it was, also when
    the turn ends the program. *)
Theorem other_commands_change_nothing :
  forall (int : string -> result Z)
         (lower_wide : string -> char * string)
         (today : Datetime.t) (user_input : string)
         (w : World),
    (forall command args,
        parse_input lower_wide user_input = Ok (command, args) ->
        ~ In command ["add"; "change"; "add-email"; "change-email";
                      "add-birthday"]) ->
    snd (step int lower_wide today user_input w) = w.
Proof.
  intros int lower_wide today user_input w N. unfold step.
  destruct (is_empty (strip user_input)); [reflexivity|].
  destruct (parse_input lower_wide user_input) as [[command args]|e]; [|reflexivity].
  specialize (N command args eq_refl).
  destruct (String.eqb command "close" || String.eqb command "exit");
    [reflexivity|].
  destruct (String.eqb command "hello"); [reflexivity|].
  destruct (string_eqb_spec command "add") as [->|_];
    [exfalso; apply N; simpl; auto|].
  destruct (string_eqb_spec command "change") as [->|_];
    [exfalso; apply N; simpl; auto|].
  destruct (String.eqb command "phone");
    [rewrite snd_print_result; apply state_show_phone|].
  destruct (string_eqb_spec command "add-email") as [->|_];
    [exfalso; apply N; simpl; auto|].
  destruct (string_eqb_spec command "change-email") as [->|_];
    [exfalso; apply N; simpl; auto|].
  destruct (String.eqb command "show-email");
    [rewrite snd_print_result; apply state_show_email|].
  destruct (String.eqb command "all");
    [rewrite snd_print_result; apply state_list_contacts|].
  destruct (string_eqb_spec command "add-birthday") as [->|_];
    [exfalso; apply N; simpl; auto 6|].
  destruct (String.eqb command "show-birthday");
    [rewrite snd_print_result; apply state_show_birthday|].
  destruct (String.eqb command "birthdays");
    [rewrite snd_print_result; apply state_birthdays | reflexivity].
Qed.

Lemma other_commands_change_nothing_witness :
  snd (step (fun _ => Ok 7%Z) keep_case (Datetime.mk 2026 11 3 12 0 0 0) "phone John"
         (mkWorld [Record_.init "John"] [("John", 0)]))
  = mkWorld [Record_.init "John"] [("John", 0)].
Proof.
  apply (other_commands_change_nothing (fun _ => Ok 7%Z) keep_case
           (Datetime.mk 2026 11 3 12 0 0 0) "phone John"
           (mkWorld [Record_.init "John"] [("John", 0)])).
  intros command args H. vm_compute in H. injection H as <- _.
  intros K. simpl in K.
  repeat (destruct K as [K | K]; [discriminate K|]). exact K.
Defined.

(** ** The loop *)

(** X23.  The loop on lines typed one after the other is the loop on
    the first lines followed by the loop on the rest, from the state
    the first left and with the outputs in sequence; once the loop has
    stopped - [close], [exit] or a crash - the lines that follow are
    never read. *)
Theorem main_loop_app :
  forall (int : string -> result Z)
         (lower_wide : string -> char * string)
         (first rest : list (Datetime.t * string))
         (w : World),
    main_loop int lower_wide (first ++ rest) w
    = match main_loop int lower_wide first w with
      | (out, Running, w') =>
          let '(out', st, w'') := main_loop int lower_wide rest w' in
          (out ++ out', st, w'')
      | stopped => stopped
      end.
Proof.
  intros int lower_wide first rest. induction first as [|[today line] first IH]; intros w.
  - simpl. destruct (main_loop int lower_wide rest w) as [[out st] w']. reflexivity.
  - simpl. destruct (step int lower_wide today line w) as [[out st] w1].
    destruct st; try reflexivity.
    rewrite IH. destruct (main_loop int lower_wide first w1) as [[out2 st2] w2].
    destruct st2; try reflexivity.
    destruct (main_loop int lower_wide rest w2) as [[out3 st3] w3].
    rewrite app_assoc. reflexivity.
Qed.
